(** * pxfmt: conversion of pixel blocks between sized pixel formats

    A shallow embedding of [src/extlib/pxfmt/pxfmt.cpp].  The C++ file
    builds, at compile time, one descriptor per [pxfmt_sized_format]
    (the [FMT_INFO] rows), and instantiates one decoder and one encoder
    per format from a handful of function templates.  Here a template
    over [F] is a function taking [F], and the descriptor is the value
    [pxfmt_per_fmt_info F].

    Memory is a list of bytes in native (little-endian) order; a typed
    pointer is a buffer together with a byte offset.  Floating-point
    values are IEEE-754 values of the Standard Library's [spec_float],
    computed with its binary64 operations (round to nearest even). *)

From Stdlib Require Import ZArith Bool Lia.
From Stdlib Require Import Floats.SpecFloat.
From stdpp Require Import base list.

Local Open Scope Z_scope.

(** ** Scalar types of the C++ source *)

(** The typedefs at the top of the file ([uint8] ... [int32]) and the two
    floating-point types used as formatted and intermediate types. *)
Inductive ctype : Set :=
  | uint8 | int8 | uint16 | int16 | uint32 | int32 | float | double.

Definition sizeof (t : ctype) : nat :=
  match t with
  | uint8 | int8 => 1
  | uint16 | int16 => 2
  | uint32 | int32 | float => 4
  | double => 8
  end%nat.

Definition bitsof (t : ctype) : Z := 8 * Z.of_nat (sizeof t).

Definition is_signed_int (t : ctype) : bool :=
  match t with int8 | int16 | int32 => true | _ => false end.

(** A scalar value: an integer (its mathematical value) or a
    floating-point number.  Floating values are kept in binary64 form;
    a [float] is a binary64 value that is representable in binary32. *)
Inductive cvalue : Set :=
  | Vint (n : Z)
  | Vfp (x : spec_float).

(** *** Fixed-width integers *)

(** [wrap w n]: the unsigned [w]-bit integer congruent to [n]. *)
Definition wrap (w n : Z) : Z := n mod 2 ^ w.

(** [sext w n]: the signed (two's complement) [w]-bit integer congruent
    to [n]. *)
Definition sext (w n : Z) : Z :=
  let u := wrap w n in if u <? 2 ^ (w - 1) then u else u - 2 ^ w.

(** The value of integer type [t] congruent to [n]. *)
Definition int_repr (t : ctype) (n : Z) : Z :=
  if is_signed_int t then sext (bitsof t) n else wrap (bitsof t) n.

Definition int_in_range (t : ctype) (n : Z) : bool :=
  if is_signed_int t
  then (- 2 ^ (bitsof t - 1) <=? n) && (n <? 2 ^ (bitsof t - 1))
  else (0 <=? n) && (n <? 2 ^ bitsof t).

(** *** IEEE-754 binary64 and binary32 *)

Definition prec64 : Z := 53.
Definition emax64 : Z := 1024.
Definition prec32 : Z := 24.
Definition emax32 : Z := 128.

Definition ddiv : spec_float -> spec_float -> spec_float := SFdiv prec64 emax64.
Definition dmul : spec_float -> spec_float -> spec_float := SFmul prec64 emax64.
Definition dlt : spec_float -> spec_float -> bool := SFltb.

(** Integer to [double]. *)
Definition Z_to_double (n : Z) : spec_float :=
  binary_normalize prec64 emax64 n 0 false.

(** Rounding of a value to the format [(prec, emax)]. *)
Definition SF_round (prec emax : Z) (x : spec_float) : spec_float :=
  match x with
  | S754_finite s m e => binary_round prec emax s m e
  | _ => x
  end.

(** [double] to [float] and back: the stored number is the binary32
    rounding, written again as a binary64 value. *)
Definition round_to_float (x : spec_float) : spec_float :=
  SF_round prec64 emax64 (SF_round prec32 emax32 x).

Definition d_zero : spec_float := S754_zero false.
Definition d_one : spec_float := Z_to_double 1.
Definition d_minus_one : spec_float := SFopp d_one.

(** Truncation toward zero of a finite value ([Z.shiftl] by a negative
    amount shifts right). *)
Definition SF_trunc (x : spec_float) : option Z :=
  match x with
  | S754_zero _ => Some 0
  | S754_finite s m e => Some (cond_Zopp s (Z.shiftl (Zpos m) e))
  | S754_infinity _ | S754_nan => None
  end.

(** The interchange encoding of a value of the format [(prec, emax)]: sign,
    biased exponent and trailing significand, each cut to its field.  A NaN
    is written as the quiet NaN with a zero payload ([spec_float] keeps no
    payload). *)
Definition SF_to_bits (prec emax : Z) (x : spec_float) : Z :=
  let mw := prec - 1 in
  let top := 2 * emax - 1 in
  let sign (s : bool) := if s then 2 * emax * 2 ^ mw else 0 in
  match x with
  | S754_zero s => sign s
  | S754_infinity s => sign s + top * 2 ^ mw
  | S754_nan => top * 2 ^ mw + 2 ^ (mw - 1)
  | S754_finite s m e =>
      sign s +
      (if Zpos m <? 2 ^ mw then Zpos m
       else ((e - emin prec emax + 1) mod (2 * emax)) * 2 ^ mw + (Zpos m) mod 2 ^ mw)
  end.

Definition bits_to_SF (prec emax : Z) (b : Z) : spec_float :=
  let mw := prec - 1 in
  let top := 2 * emax - 1 in
  let s := Z.odd (b / (2 * emax * 2 ^ mw)) in
  let ex := (b / 2 ^ mw) mod (2 * emax) in
  let fr := b mod 2 ^ mw in
  if ex =? 0 then
    match fr with
    | Zpos m => S754_finite s m (emin prec emax)
    | _ => S754_zero s
    end
  else if ex =? top then
    (if fr =? 0 then S754_infinity s else S754_nan)
  else
    match fr + 2 ^ mw with
    | Zpos m => S754_finite s m (ex - 1 + emin prec emax)
    | _ => S754_nan
    end.

(** ** Byte-addressed memory *)

(** A buffer is a list of bytes (integers in [0, 256)).  C leaves an access
    outside an object undefined; in the model a read outside the list
    yields 0 and a write outside it is dropped. *)
Abbreviation mem := (list Z).

Definition load_byte (m : mem) (a : nat) : Z := default 0 (m !! a).

Fixpoint load_le (m : mem) (a : nat) (n : nat) : Z :=
  match n with
  | O => 0
  | S k => load_byte m a + 256 * load_le m (S a) k
  end.

Fixpoint store_le (m : mem) (a : nat) (n : nat) (z : Z) : mem :=
  match n with
  | O => m
  | S k => store_le (<[a := z mod 256]> m) (S a) k (z / 256)
  end.

(** Address of [p[i]] for a pointer [p] to [t] at byte offset [p]. *)
Definition elem_addr (t : ctype) (p : nat) (i : Z) : nat :=
  (p + Z.to_nat i * sizeof t)%nat.

(** ** The per-format descriptors *)

(** Modelled from the spec: [pxfmt.h], which declares the enumeration
    [pxfmt_sized_format], is not among the sources at hand (the spec's
    PixelEncoding, "an identifier from a fixed closed set").  Its
    enumerators are the ones [pxfmt.cpp] names: one per [FMT_INFO] row, and
    [PXFMT_INVALID]. *)
Inductive pxfmt_sized_format : Set :=
  | PXFMT_INVALID
  | PXFMT_R8_UNORM | PXFMT_R8_SNORM | PXFMT_R16_UNORM
  | PXFMT_R16_SNORM | PXFMT_R32_UNORM | PXFMT_R32_SNORM
  | PXFMT_R32_FLOAT | PXFMT_G8_UNORM | PXFMT_G8_SNORM
  | PXFMT_G16_UNORM | PXFMT_G16_SNORM | PXFMT_G32_UNORM
  | PXFMT_G32_SNORM | PXFMT_G32_FLOAT | PXFMT_B8_UNORM
  | PXFMT_B8_SNORM | PXFMT_B16_UNORM | PXFMT_B16_SNORM
  | PXFMT_B32_UNORM | PXFMT_B32_SNORM | PXFMT_B32_FLOAT
  | PXFMT_A8_UNORM | PXFMT_A8_SNORM | PXFMT_A16_UNORM
  | PXFMT_A16_SNORM | PXFMT_A32_UNORM | PXFMT_A32_SNORM
  | PXFMT_A32_FLOAT | PXFMT_RG8_UNORM | PXFMT_RG8_SNORM
  | PXFMT_RG16_UNORM | PXFMT_RG16_SNORM | PXFMT_RG32_UNORM
  | PXFMT_RG32_SNORM | PXFMT_RG32_FLOAT | PXFMT_RGB8_UNORM
  | PXFMT_RGB8_SNORM | PXFMT_RGB16_UNORM | PXFMT_RGB16_SNORM
  | PXFMT_RGB32_UNORM | PXFMT_RGB32_SNORM | PXFMT_RGB32_FLOAT
  | PXFMT_RGB332_UNORM | PXFMT_RGB233_UNORM | PXFMT_RGB565_UNORM
  | PXFMT_RGB565REV_UNORM | PXFMT_RGBA8_UNORM | PXFMT_RGBA8_SNORM
  | PXFMT_RGBA16_UNORM | PXFMT_RGBA16_SNORM | PXFMT_RGBA32_UNORM
  | PXFMT_RGBA32_SNORM | PXFMT_RGBA32_FLOAT | PXFMT_RGBA4_UNORM
  | PXFMT_RGBA4REV_UNORM | PXFMT_RGB5A1_UNORM | PXFMT_A1RGB5_UNORM
  | PXFMT_RGBA8REV_UNORM | PXFMT_RGB10A2_UNORM | PXFMT_A2RGB10_UNORM
  | PXFMT_BGRA8_UNORM | PXFMT_BGRA8_SNORM | PXFMT_BGRA16_UNORM
  | PXFMT_BGRA16_SNORM | PXFMT_BGRA32_UNORM | PXFMT_BGRA32_SNORM
  | PXFMT_BGRA32_FLOAT | PXFMT_BGRA4_UNORM | PXFMT_BGRA4REV_UNORM
  | PXFMT_BGR5A1_UNORM | PXFMT_A1BGR5_UNORM | PXFMT_BGRA8REV_UNORM
  | PXFMT_BGR10A2_UNORM | PXFMT_A2BGR10_UNORM | PXFMT_R8_UINT
  | PXFMT_R8_SINT | PXFMT_R16_UINT | PXFMT_R16_SINT
  | PXFMT_R32_UINT | PXFMT_R32_SINT | PXFMT_G8_UINT
  | PXFMT_G8_SINT | PXFMT_G16_UINT | PXFMT_G16_SINT
  | PXFMT_G32_UINT | PXFMT_G32_SINT | PXFMT_B8_UINT
  | PXFMT_B8_SINT | PXFMT_B16_UINT | PXFMT_B16_SINT
  | PXFMT_B32_UINT | PXFMT_B32_SINT | PXFMT_A8_UINT
  | PXFMT_A8_SINT | PXFMT_A16_UINT | PXFMT_A16_SINT
  | PXFMT_A32_UINT | PXFMT_A32_SINT | PXFMT_RG8_UINT
  | PXFMT_RG8_SINT | PXFMT_RG16_UINT | PXFMT_RG16_SINT
  | PXFMT_RG32_UINT | PXFMT_RG32_SINT | PXFMT_RGB8_UINT
  | PXFMT_RGB8_SINT | PXFMT_RGB16_UINT | PXFMT_RGB16_SINT
  | PXFMT_RGB32_UINT | PXFMT_RGB32_SINT | PXFMT_RGB332_UINT
  | PXFMT_RGB233_UINT | PXFMT_RGB565_UINT | PXFMT_RGB565REV_UINT
  | PXFMT_RGBA8_UINT | PXFMT_RGBA8_SINT | PXFMT_RGBA16_UINT
  | PXFMT_RGBA16_SINT | PXFMT_RGBA32_UINT | PXFMT_RGBA32_SINT
  | PXFMT_RGBA4_UINT | PXFMT_RGBA4REV_UINT | PXFMT_RGB5A1_UINT
  | PXFMT_A1RGB5_UINT | PXFMT_RGBA8REV_UINT | PXFMT_RGB10A2_UINT
  | PXFMT_A2RGB10_UINT | PXFMT_BGRA8_UINT | PXFMT_BGRA8_SINT
  | PXFMT_BGRA16_UINT | PXFMT_BGRA16_SINT | PXFMT_BGRA32_UINT
  | PXFMT_BGRA32_SINT | PXFMT_BGRA4_UINT | PXFMT_BGRA4REV_UINT
  | PXFMT_BGR5A1_UINT | PXFMT_A1BGR5_UINT | PXFMT_BGRA8REV_UINT
  | PXFMT_BGR10A2_UINT | PXFMT_A2BGR10_UINT | PXFMT_D8_UNORM
  | PXFMT_D8_SNORM | PXFMT_D16_UNORM | PXFMT_D16_SNORM
  | PXFMT_D32_UNORM | PXFMT_D32_SNORM | PXFMT_D32_FLOAT
  | PXFMT_S8_UINT | PXFMT_S8_SINT | PXFMT_S16_UINT
  | PXFMT_S16_SINT | PXFMT_S32_UINT | PXFMT_S32_SINT
  | PXFMT_S32_FLOAT | PXFMT_D24_UNORM_S8_UINT | PXFMT_D32_FLOAT_S8_UINT.

(** [max_values<is_signed, nbits>::m_max]: computed on 64 bits and cut to
    a [uint32]. *)
Definition max_values (is_signed : bool) (nbits : Z) : Z :=
  wrap 32
    (wrap 64
       (Z.shiftl 1
          (if negb is_signed then nbits
           else if 0 <? nbits then nbits - 1 else 0))
     - 1).

(** The members of [pxfmt_per_fmt_info<F>]. *)
Record fmt_info : Set := {
  m_fmt : pxfmt_sized_format;
  m_formatted_type : ctype;
  m_intermediate_type : ctype;
  m_num_components : Z;
  m_bytes_per_pixel : Z;
  m_needs_fp_intermediate : bool;
  m_is_normalized : bool;
  m_is_signed : bool;
  m_is_packed : bool;
  m_index : list Z;
  m_max : list Z;
  m_shift : list Z;
  m_mask : list Z
}.

(** The macro [FMT_INFO]; the shift that builds a mask is a shift of a
    [uint32]. *)
Definition FMT_INFO (F : pxfmt_sized_format) (ftype itype : ctype)
    (ncomps bypp : Z) (needfp norm is_signed pack : bool)
    (in0 in1 in2 in3 nbits0 nbits1 nbits2 nbits3
     shift0 shift1 shift2 shift3 : Z) : fmt_info :=
  {| m_fmt := F;
     m_formatted_type := ftype;
     m_intermediate_type := itype;
     m_num_components := ncomps;
     m_bytes_per_pixel := bypp;
     m_needs_fp_intermediate := needfp;
     m_is_normalized := norm;
     m_is_signed := is_signed;
     m_is_packed := pack;
     m_index := [in0; in1; in2; in3];
     m_max := [max_values is_signed nbits0; max_values is_signed nbits1;
               max_values is_signed nbits2; max_values is_signed nbits3];
     m_shift := [shift0; shift1; shift2; shift3];
     m_mask := [wrap 32 (Z.shiftl (max_values is_signed nbits0) shift0);
                wrap 32 (Z.shiftl (max_values is_signed nbits1) shift1);
                wrap 32 (Z.shiftl (max_values is_signed nbits2) shift2);
                wrap 32 (Z.shiftl (max_values is_signed nbits3) shift3)] |}.

(** The [FMT_INFO] rows.  The primary template is an empty struct, so
    [PXFMT_INVALID] has no descriptor. *)
Definition pxfmt_per_fmt_info (F : pxfmt_sized_format) : option fmt_info :=
  match F with
  | PXFMT_R8_UNORM => Some (FMT_INFO PXFMT_R8_UNORM uint8 double 1 1  true true false false  0 (-1) (-1) (-1)  8 0 0 0  0 0 0 0)
  | PXFMT_R8_SNORM => Some (FMT_INFO PXFMT_R8_SNORM int8 double 1 1  true true true false  0 (-1) (-1) (-1)  8 0 0 0  0 0 0 0)
  | PXFMT_R16_UNORM => Some (FMT_INFO PXFMT_R16_UNORM uint16 double 1 2  true true false false  0 (-1) (-1) (-1)  16 0 0 0  0 0 0 0)
  | PXFMT_R16_SNORM => Some (FMT_INFO PXFMT_R16_SNORM int16 double 1 2  true true true false  0 (-1) (-1) (-1)  16 0 0 0  0 0 0 0)
  | PXFMT_R32_UNORM => Some (FMT_INFO PXFMT_R32_UNORM uint32 double 1 4  true true false false  0 (-1) (-1) (-1)  32 0 0 0  0 0 0 0)
  | PXFMT_R32_SNORM => Some (FMT_INFO PXFMT_R32_SNORM int32 double 1 4  true true true false  0 (-1) (-1) (-1)  32 0 0 0  0 0 0 0)
  | PXFMT_R32_FLOAT => Some (FMT_INFO PXFMT_R32_FLOAT float double 1 4  true false false false  0 (-1) (-1) (-1)  0 0 0 0  0 0 0 0)
  | PXFMT_G8_UNORM => Some (FMT_INFO PXFMT_G8_UNORM uint8 double 1 1  true true false false  1 (-1) (-1) (-1)  8 0 0 0  0 0 0 0)
  | PXFMT_G8_SNORM => Some (FMT_INFO PXFMT_G8_SNORM int8 double 1 1  true true true false  1 (-1) (-1) (-1)  8 0 0 0  0 0 0 0)
  | PXFMT_G16_UNORM => Some (FMT_INFO PXFMT_G16_UNORM uint16 double 1 2  true true false false  1 (-1) (-1) (-1)  16 0 0 0  0 0 0 0)
  | PXFMT_G16_SNORM => Some (FMT_INFO PXFMT_G16_SNORM int16 double 1 2  true true true false  1 (-1) (-1) (-1)  16 0 0 0  0 0 0 0)
  | PXFMT_G32_UNORM => Some (FMT_INFO PXFMT_G32_UNORM uint32 double 1 4  true true false false  1 (-1) (-1) (-1)  32 0 0 0  0 0 0 0)
  | PXFMT_G32_SNORM => Some (FMT_INFO PXFMT_G32_SNORM int32 double 1 4  true true true false  1 (-1) (-1) (-1)  32 0 0 0  0 0 0 0)
  | PXFMT_G32_FLOAT => Some (FMT_INFO PXFMT_G32_FLOAT float double 1 4  true false false false  1 (-1) (-1) (-1)  0 0 0 0  0 0 0 0)
  | PXFMT_B8_UNORM => Some (FMT_INFO PXFMT_B8_UNORM uint8 double 1 1  true true false false  2 (-1) (-1) (-1)  8 0 0 0  0 0 0 0)
  | PXFMT_B8_SNORM => Some (FMT_INFO PXFMT_B8_SNORM int8 double 1 1  true true true false  2 (-1) (-1) (-1)  8 0 0 0  0 0 0 0)
  | PXFMT_B16_UNORM => Some (FMT_INFO PXFMT_B16_UNORM uint16 double 1 2  true true false false  2 (-1) (-1) (-1)  16 0 0 0  0 0 0 0)
  | PXFMT_B16_SNORM => Some (FMT_INFO PXFMT_B16_SNORM int16 double 1 2  true true true false  2 (-1) (-1) (-1)  16 0 0 0  0 0 0 0)
  | PXFMT_B32_UNORM => Some (FMT_INFO PXFMT_B32_UNORM uint32 double 1 4  true true false false  2 (-1) (-1) (-1)  32 0 0 0  0 0 0 0)
  | PXFMT_B32_SNORM => Some (FMT_INFO PXFMT_B32_SNORM int32 double 1 4  true true true false  2 (-1) (-1) (-1)  32 0 0 0  0 0 0 0)
  | PXFMT_B32_FLOAT => Some (FMT_INFO PXFMT_B32_FLOAT float double 1 4  true false false false  2 (-1) (-1) (-1)  0 0 0 0  0 0 0 0)
  | PXFMT_A8_UNORM => Some (FMT_INFO PXFMT_A8_UNORM uint8 double 1 1  true true false false  3 (-1) (-1) (-1)  8 0 0 0  0 0 0 0)
  | PXFMT_A8_SNORM => Some (FMT_INFO PXFMT_A8_SNORM int8 double 1 1  true true true false  3 (-1) (-1) (-1)  8 0 0 0  0 0 0 0)
  | PXFMT_A16_UNORM => Some (FMT_INFO PXFMT_A16_UNORM uint16 double 1 2  true true false false  3 (-1) (-1) (-1)  16 0 0 0  0 0 0 0)
  | PXFMT_A16_SNORM => Some (FMT_INFO PXFMT_A16_SNORM int16 double 1 2  true true true false  3 (-1) (-1) (-1)  16 0 0 0  0 0 0 0)
  | PXFMT_A32_UNORM => Some (FMT_INFO PXFMT_A32_UNORM uint32 double 1 4  true true false false  3 (-1) (-1) (-1)  32 0 0 0  0 0 0 0)
  | PXFMT_A32_SNORM => Some (FMT_INFO PXFMT_A32_SNORM int32 double 1 4  true true true false  3 (-1) (-1) (-1)  32 0 0 0  0 0 0 0)
  | PXFMT_A32_FLOAT => Some (FMT_INFO PXFMT_A32_FLOAT float double 1 4  true false false false  3 (-1) (-1) (-1)  0 0 0 0  0 0 0 0)
  | PXFMT_RG8_UNORM => Some (FMT_INFO PXFMT_RG8_UNORM uint8 double 2 2  true true false false  0 1 (-1) (-1)  8 8 0 0  0 0 0 0)
  | PXFMT_RG8_SNORM => Some (FMT_INFO PXFMT_RG8_SNORM int8 double 2 2  true true true false  0 1 (-1) (-1)  8 8 0 0  0 0 0 0)
  | PXFMT_RG16_UNORM => Some (FMT_INFO PXFMT_RG16_UNORM uint16 double 2 4  true true false false  0 1 (-1) (-1)  16 16 0 0  0 0 0 0)
  | PXFMT_RG16_SNORM => Some (FMT_INFO PXFMT_RG16_SNORM int16 double 2 4  true true true false  0 1 (-1) (-1)  16 16 0 0  0 0 0 0)
  | PXFMT_RG32_UNORM => Some (FMT_INFO PXFMT_RG32_UNORM uint32 double 2 8  true true false false  0 1 (-1) (-1)  32 32 0 0  0 0 0 0)
  | PXFMT_RG32_SNORM => Some (FMT_INFO PXFMT_RG32_SNORM int32 double 2 8  true true true false  0 1 (-1) (-1)  32 32 0 0  0 0 0 0)
  | PXFMT_RG32_FLOAT => Some (FMT_INFO PXFMT_RG32_FLOAT float double 2 8  true false false false  0 1 (-1) (-1)  0 0 0 0  0 0 0 0)
  | PXFMT_RGB8_UNORM => Some (FMT_INFO PXFMT_RGB8_UNORM uint8 double 3 3  true true false false  0 1 2 (-1)  8 8 8 0  0 0 0 0)
  | PXFMT_RGB8_SNORM => Some (FMT_INFO PXFMT_RGB8_SNORM int8 double 3 3  true true true false  0 1 2 (-1)  8 8 8 0  0 0 0 0)
  | PXFMT_RGB16_UNORM => Some (FMT_INFO PXFMT_RGB16_UNORM uint16 double 3 6  true true false false  0 1 2 (-1)  16 16 16 0  0 0 0 0)
  | PXFMT_RGB16_SNORM => Some (FMT_INFO PXFMT_RGB16_SNORM int16 double 3 6  true true true false  0 1 2 (-1)  16 16 16 0  0 0 0 0)
  | PXFMT_RGB32_UNORM => Some (FMT_INFO PXFMT_RGB32_UNORM uint32 double 3 12  true true false false  0 1 2 (-1)  32 32 32 0  0 0 0 0)
  | PXFMT_RGB32_SNORM => Some (FMT_INFO PXFMT_RGB32_SNORM int32 double 3 12  true true true false  0 1 2 (-1)  32 32 32 0  0 0 0 0)
  | PXFMT_RGB32_FLOAT => Some (FMT_INFO PXFMT_RGB32_FLOAT float double 3 12  true false false false  0 1 2 (-1)  0 0 0 0  0 0 0 0)
  | PXFMT_RGB332_UNORM => Some (FMT_INFO PXFMT_RGB332_UNORM uint8 double 3 1  true true false true  0 1 2 (-1)  3 3 2 0  5 2 0 0)
  | PXFMT_RGB233_UNORM => Some (FMT_INFO PXFMT_RGB233_UNORM uint8 double 3 1  true true false true  0 1 2 (-1)  3 3 2 0  0 3 6 0)
  | PXFMT_RGB565_UNORM => Some (FMT_INFO PXFMT_RGB565_UNORM uint16 double 3 2  true true false true  0 1 2 (-1)  5 6 5 0  11 5 0 0)
  | PXFMT_RGB565REV_UNORM => Some (FMT_INFO PXFMT_RGB565REV_UNORM uint16 double 3 2  true true false true  0 1 2 (-1)  5 6 5 0  0 5 11 0)
  | PXFMT_RGBA8_UNORM => Some (FMT_INFO PXFMT_RGBA8_UNORM uint32 double 4 4  true true false true  0 1 2 3  8 8 8 8  0 8 16 24)
  | PXFMT_RGBA8_SNORM => Some (FMT_INFO PXFMT_RGBA8_SNORM uint32 double 4 4  true true true true  0 1 2 3  8 8 8 8  0 8 16 24)
  | PXFMT_RGBA16_UNORM => Some (FMT_INFO PXFMT_RGBA16_UNORM uint16 double 4 8  true true false false  0 1 2 3  16 16 16 16  0 0 0 0)
  | PXFMT_RGBA16_SNORM => Some (FMT_INFO PXFMT_RGBA16_SNORM int16 double 4 8  true true true false  0 1 2 3  16 16 16 16  0 0 0 0)
  | PXFMT_RGBA32_UNORM => Some (FMT_INFO PXFMT_RGBA32_UNORM uint32 double 4 16  true true false false  0 1 2 3  32 32 32 32  0 0 0 0)
  | PXFMT_RGBA32_SNORM => Some (FMT_INFO PXFMT_RGBA32_SNORM int32 double 4 16  true true true false  0 1 2 3  32 32 32 32  0 0 0 0)
  | PXFMT_RGBA32_FLOAT => Some (FMT_INFO PXFMT_RGBA32_FLOAT float double 4 16  true false false false  0 1 2 3  0 0 0 0  0 0 0 0)
  | PXFMT_RGBA4_UNORM => Some (FMT_INFO PXFMT_RGBA4_UNORM uint16 double 4 2  true true false true  0 1 2 3  4 4 4 4  12 8 4 0)
  | PXFMT_RGBA4REV_UNORM => Some (FMT_INFO PXFMT_RGBA4REV_UNORM uint16 double 4 2  true true false true  0 1 2 3  4 4 4 4  0 4 8 12)
  | PXFMT_RGB5A1_UNORM => Some (FMT_INFO PXFMT_RGB5A1_UNORM uint16 double 4 2  true true false true  0 1 2 3  5 5 5 1  11 6 1 0)
  | PXFMT_A1RGB5_UNORM => Some (FMT_INFO PXFMT_A1RGB5_UNORM uint16 double 4 2  true true false true  0 1 2 3  5 5 5 1  0 5 10 15)
  | PXFMT_RGBA8REV_UNORM => Some (FMT_INFO PXFMT_RGBA8REV_UNORM uint32 double 4 4  true true false true  0 1 2 3  8 8 8 8  24 16 8 0)
  | PXFMT_RGB10A2_UNORM => Some (FMT_INFO PXFMT_RGB10A2_UNORM uint32 double 4 4  true true false true  0 1 2 3  10 10 10 2  22 12 2 0)
  | PXFMT_A2RGB10_UNORM => Some (FMT_INFO PXFMT_A2RGB10_UNORM uint32 double 4 4  true true false true  0 1 2 3  10 10 10 2  0 10 20 30)
  | PXFMT_BGRA8_UNORM => Some (FMT_INFO PXFMT_BGRA8_UNORM uint32 double 4 4  true true false true  0 1 2 3  8 8 8 8  16 8 0 24)
  | PXFMT_BGRA8_SNORM => Some (FMT_INFO PXFMT_BGRA8_SNORM uint32 double 4 4  true true true true  0 1 2 3  8 8 8 8  16 8 0 24)
  | PXFMT_BGRA16_UNORM => Some (FMT_INFO PXFMT_BGRA16_UNORM uint16 double 4 8  true true false false  2 1 0 3  16 16 16 16  0 0 0 0)
  | PXFMT_BGRA16_SNORM => Some (FMT_INFO PXFMT_BGRA16_SNORM int16 double 4 8  true true true false  2 1 0 3  16 16 16 16  0 0 0 0)
  | PXFMT_BGRA32_UNORM => Some (FMT_INFO PXFMT_BGRA32_UNORM uint32 double 4 16  true true false false  2 1 0 3  32 32 32 32  0 0 0 0)
  | PXFMT_BGRA32_SNORM => Some (FMT_INFO PXFMT_BGRA32_SNORM int32 double 4 16  true true true false  2 1 0 3  32 32 32 32  0 0 0 0)
  | PXFMT_BGRA32_FLOAT => Some (FMT_INFO PXFMT_BGRA32_FLOAT float double 4 16  true false false false  2 1 0 3  0 0 0 0  0 0 0 0)
  | PXFMT_BGRA4_UNORM => Some (FMT_INFO PXFMT_BGRA4_UNORM uint16 double 4 2  true true false true  0 1 2 3  4 4 4 4  4 8 12 0)
  | PXFMT_BGRA4REV_UNORM => Some (FMT_INFO PXFMT_BGRA4REV_UNORM uint16 double 4 2  true true false true  0 1 2 3  4 4 4 4  0 12 8 4)
  | PXFMT_BGR5A1_UNORM => Some (FMT_INFO PXFMT_BGR5A1_UNORM uint16 double 4 2  true true false true  0 1 2 3  5 5 5 1  1 6 11 0)
  | PXFMT_A1BGR5_UNORM => Some (FMT_INFO PXFMT_A1BGR5_UNORM uint16 double 4 2  true true false true  0 1 2 3  5 5 5 1  10 5 0 15)
  | PXFMT_BGRA8REV_UNORM => Some (FMT_INFO PXFMT_BGRA8REV_UNORM uint32 double 4 4  true true false true  0 1 2 3  8 8 8 8  24 0 8 16)
  | PXFMT_BGR10A2_UNORM => Some (FMT_INFO PXFMT_BGR10A2_UNORM uint32 double 4 4  true true false true  0 1 2 3  10 10 10 2  2 12 22 0)
  | PXFMT_A2BGR10_UNORM => Some (FMT_INFO PXFMT_A2BGR10_UNORM uint32 double 4 4  true true false true  0 1 2 3  10 10 10 2  20 10 0 30)
  | PXFMT_R8_UINT => Some (FMT_INFO PXFMT_R8_UINT uint8 uint32 1 1  false false false false  0 (-1) (-1) (-1)  8 0 0 0  0 0 0 0)
  | PXFMT_R8_SINT => Some (FMT_INFO PXFMT_R8_SINT int8 uint32 1 1  false false true false  0 (-1) (-1) (-1)  8 0 0 0  0 0 0 0)
  | PXFMT_R16_UINT => Some (FMT_INFO PXFMT_R16_UINT uint16 uint32 1 2  false false false false  0 (-1) (-1) (-1)  16 0 0 0  0 0 0 0)
  | PXFMT_R16_SINT => Some (FMT_INFO PXFMT_R16_SINT int16 uint32 1 2  false false true false  0 (-1) (-1) (-1)  16 0 0 0  0 0 0 0)
  | PXFMT_R32_UINT => Some (FMT_INFO PXFMT_R32_UINT uint32 uint32 1 4  false false false false  0 (-1) (-1) (-1)  32 0 0 0  0 0 0 0)
  | PXFMT_R32_SINT => Some (FMT_INFO PXFMT_R32_SINT int32 uint32 1 4  false false true false  0 (-1) (-1) (-1)  32 0 0 0  0 0 0 0)
  | PXFMT_G8_UINT => Some (FMT_INFO PXFMT_G8_UINT uint8 uint32 1 1  false false false false  1 (-1) (-1) (-1)  8 0 0 0  0 0 0 0)
  | PXFMT_G8_SINT => Some (FMT_INFO PXFMT_G8_SINT int8 uint32 1 1  false false true false  1 (-1) (-1) (-1)  8 0 0 0  0 0 0 0)
  | PXFMT_G16_UINT => Some (FMT_INFO PXFMT_G16_UINT uint16 uint32 1 2  false false false false  1 (-1) (-1) (-1)  16 0 0 0  0 0 0 0)
  | PXFMT_G16_SINT => Some (FMT_INFO PXFMT_G16_SINT int16 uint32 1 2  false false true false  1 (-1) (-1) (-1)  16 0 0 0  0 0 0 0)
  | PXFMT_G32_UINT => Some (FMT_INFO PXFMT_G32_UINT uint32 uint32 1 4  false false false false  1 (-1) (-1) (-1)  32 0 0 0  0 0 0 0)
  | PXFMT_G32_SINT => Some (FMT_INFO PXFMT_G32_SINT int32 uint32 1 4  false false true false  1 (-1) (-1) (-1)  32 0 0 0  0 0 0 0)
  | PXFMT_B8_UINT => Some (FMT_INFO PXFMT_B8_UINT uint8 uint32 1 1  false false false false  2 (-1) (-1) (-1)  8 0 0 0  0 0 0 0)
  | PXFMT_B8_SINT => Some (FMT_INFO PXFMT_B8_SINT int8 uint32 1 1  false false true false  2 (-1) (-1) (-1)  8 0 0 0  0 0 0 0)
  | PXFMT_B16_UINT => Some (FMT_INFO PXFMT_B16_UINT uint16 uint32 1 2  false false false false  2 (-1) (-1) (-1)  16 0 0 0  0 0 0 0)
  | PXFMT_B16_SINT => Some (FMT_INFO PXFMT_B16_SINT int16 uint32 1 2  false false true false  2 (-1) (-1) (-1)  16 0 0 0  0 0 0 0)
  | PXFMT_B32_UINT => Some (FMT_INFO PXFMT_B32_UINT uint32 uint32 1 4  false false false false  2 (-1) (-1) (-1)  32 0 0 0  0 0 0 0)
  | PXFMT_B32_SINT => Some (FMT_INFO PXFMT_B32_SINT int32 uint32 1 4  false false true false  2 (-1) (-1) (-1)  32 0 0 0  0 0 0 0)
  | PXFMT_A8_UINT => Some (FMT_INFO PXFMT_A8_UINT uint8 uint32 1 1  false false false false  3 (-1) (-1) (-1)  8 0 0 0  0 0 0 0)
  | PXFMT_A8_SINT => Some (FMT_INFO PXFMT_A8_SINT int8 uint32 1 1  false false true false  3 (-1) (-1) (-1)  8 0 0 0  0 0 0 0)
  | PXFMT_A16_UINT => Some (FMT_INFO PXFMT_A16_UINT uint16 uint32 1 2  false false false false  3 (-1) (-1) (-1)  16 0 0 0  0 0 0 0)
  | PXFMT_A16_SINT => Some (FMT_INFO PXFMT_A16_SINT int16 uint32 1 2  false false true false  3 (-1) (-1) (-1)  16 0 0 0  0 0 0 0)
  | PXFMT_A32_UINT => Some (FMT_INFO PXFMT_A32_UINT uint32 uint32 1 4  false false false false  3 (-1) (-1) (-1)  32 0 0 0  0 0 0 0)
  | PXFMT_A32_SINT => Some (FMT_INFO PXFMT_A32_SINT int32 uint32 1 4  false false true false  3 (-1) (-1) (-1)  32 0 0 0  0 0 0 0)
  | PXFMT_RG8_UINT => Some (FMT_INFO PXFMT_RG8_UINT uint8 uint32 2 2  false false false false  0 1 (-1) (-1)  8 8 0 0  0 0 0 0)
  | PXFMT_RG8_SINT => Some (FMT_INFO PXFMT_RG8_SINT int8 uint32 2 2  false false true false  0 1 (-1) (-1)  8 8 0 0  0 0 0 0)
  | PXFMT_RG16_UINT => Some (FMT_INFO PXFMT_RG16_UINT uint16 uint32 2 4  false false false false  0 1 (-1) (-1)  16 16 0 0  0 0 0 0)
  | PXFMT_RG16_SINT => Some (FMT_INFO PXFMT_RG16_SINT int16 uint32 2 4  false false true false  0 1 (-1) (-1)  16 16 0 0  0 0 0 0)
  | PXFMT_RG32_UINT => Some (FMT_INFO PXFMT_RG32_UINT uint32 uint32 2 8  false false false false  0 1 (-1) (-1)  32 32 0 0  0 0 0 0)
  | PXFMT_RG32_SINT => Some (FMT_INFO PXFMT_RG32_SINT int32 uint32 2 8  false false true false  0 1 (-1) (-1)  32 32 0 0  0 0 0 0)
  | PXFMT_RGB8_UINT => Some (FMT_INFO PXFMT_RGB8_UINT uint8 uint32 3 3  false false false false  0 1 2 (-1)  8 8 8 0  0 0 0 0)
  | PXFMT_RGB8_SINT => Some (FMT_INFO PXFMT_RGB8_SINT int8 uint32 3 3  false false true false  0 1 2 (-1)  8 8 8 0  0 0 0 0)
  | PXFMT_RGB16_UINT => Some (FMT_INFO PXFMT_RGB16_UINT uint16 uint32 3 6  false false false false  0 1 2 (-1)  16 16 16 0  0 0 0 0)
  | PXFMT_RGB16_SINT => Some (FMT_INFO PXFMT_RGB16_SINT int16 uint32 3 6  false false true false  0 1 2 (-1)  16 16 16 0  0 0 0 0)
  | PXFMT_RGB32_UINT => Some (FMT_INFO PXFMT_RGB32_UINT uint32 uint32 3 12  false false false false  0 1 2 (-1)  32 32 32 0  0 0 0 0)
  | PXFMT_RGB32_SINT => Some (FMT_INFO PXFMT_RGB32_SINT int32 uint32 3 12  false false true false  0 1 2 (-1)  32 32 32 0  0 0 0 0)
  | PXFMT_RGB332_UINT => Some (FMT_INFO PXFMT_RGB332_UINT uint8 uint32 3 1  false false false true  0 1 2 (-1)  3 3 2 0  5 2 0 0)
  | PXFMT_RGB233_UINT => Some (FMT_INFO PXFMT_RGB233_UINT uint8 uint32 3 1  false false false true  0 1 2 (-1)  3 3 2 0  0 3 6 0)
  | PXFMT_RGB565_UINT => Some (FMT_INFO PXFMT_RGB565_UINT uint8 uint32 3 2  false false false true  0 1 2 (-1)  5 6 5 0  11 5 0 0)
  | PXFMT_RGB565REV_UINT => Some (FMT_INFO PXFMT_RGB565REV_UINT uint8 uint32 3 2  false false false true  0 1 2 (-1)  5 6 5 0  0 5 11 0)
  | PXFMT_RGBA8_UINT => Some (FMT_INFO PXFMT_RGBA8_UINT uint32 uint32 4 4  false false false true  0 1 2 3  8 8 8 8  0 8 16 24)
  | PXFMT_RGBA8_SINT => Some (FMT_INFO PXFMT_RGBA8_SINT uint32 uint32 4 4  false false true true  0 1 2 3  8 8 8 8  0 8 16 24)
  | PXFMT_RGBA16_UINT => Some (FMT_INFO PXFMT_RGBA16_UINT uint16 uint32 4 8  false false false false  0 1 2 3  16 16 16 16  0 0 0 0)
  | PXFMT_RGBA16_SINT => Some (FMT_INFO PXFMT_RGBA16_SINT int16 uint32 4 8  false false true false  0 1 2 3  16 16 16 16  0 0 0 0)
  | PXFMT_RGBA32_UINT => Some (FMT_INFO PXFMT_RGBA32_UINT uint32 uint32 4 16  false false false false  0 1 2 3  32 32 32 32  0 0 0 0)
  | PXFMT_RGBA32_SINT => Some (FMT_INFO PXFMT_RGBA32_SINT int32 uint32 4 16  false false true false  0 1 2 3  32 32 32 32  0 0 0 0)
  | PXFMT_RGBA4_UINT => Some (FMT_INFO PXFMT_RGBA4_UINT uint16 uint32 4 2  false false false true  0 1 2 3  4 4 4 4  12 8 4 0)
  | PXFMT_RGBA4REV_UINT => Some (FMT_INFO PXFMT_RGBA4REV_UINT uint16 uint32 4 2  false false false true  0 1 2 3  4 4 4 4  0 4 8 12)
  | PXFMT_RGB5A1_UINT => Some (FMT_INFO PXFMT_RGB5A1_UINT uint16 uint32 4 2  false false false true  0 1 2 3  5 5 5 1  11 6 1 0)
  | PXFMT_A1RGB5_UINT => Some (FMT_INFO PXFMT_A1RGB5_UINT uint16 uint32 4 2  false false false true  0 1 2 3  5 5 5 1  0 5 10 15)
  | PXFMT_RGBA8REV_UINT => Some (FMT_INFO PXFMT_RGBA8REV_UINT uint32 uint32 4 4  false false false true  0 1 2 3  8 8 8 8  24 16 8 0)
  | PXFMT_RGB10A2_UINT => Some (FMT_INFO PXFMT_RGB10A2_UINT uint32 uint32 4 4  false false false true  0 1 2 3  10 10 10 2  22 12 2 0)
  | PXFMT_A2RGB10_UINT => Some (FMT_INFO PXFMT_A2RGB10_UINT uint32 uint32 4 4  false false false true  0 1 2 3  10 10 10 2  0 10 20 30)
  | PXFMT_BGRA8_UINT => Some (FMT_INFO PXFMT_BGRA8_UINT uint32 uint32 4 4  false false false true  0 1 2 3  8 8 8 8  16 8 0 24)
  | PXFMT_BGRA8_SINT => Some (FMT_INFO PXFMT_BGRA8_SINT uint32 uint32 4 4  false false true true  0 1 2 3  8 8 8 8  16 8 0 24)
  | PXFMT_BGRA16_UINT => Some (FMT_INFO PXFMT_BGRA16_UINT uint16 uint32 4 8  false false false false  2 1 0 3  16 16 16 16  0 0 0 0)
  | PXFMT_BGRA16_SINT => Some (FMT_INFO PXFMT_BGRA16_SINT int16 uint32 4 8  false false true false  2 1 0 3  16 16 16 16  0 0 0 0)
  | PXFMT_BGRA32_UINT => Some (FMT_INFO PXFMT_BGRA32_UINT uint32 uint32 4 16  false false false false  2 1 0 3  32 32 32 32  0 0 0 0)
  | PXFMT_BGRA32_SINT => Some (FMT_INFO PXFMT_BGRA32_SINT int32 uint32 4 16  false false true false  2 1 0 3  32 32 32 32  0 0 0 0)
  | PXFMT_BGRA4_UINT => Some (FMT_INFO PXFMT_BGRA4_UINT uint16 uint32 4 2  false false false true  0 1 2 3  4 4 4 4  4 8 12 0)
  | PXFMT_BGRA4REV_UINT => Some (FMT_INFO PXFMT_BGRA4REV_UINT uint16 uint32 4 2  false false false true  0 1 2 3  4 4 4 4  0 12 8 4)
  | PXFMT_BGR5A1_UINT => Some (FMT_INFO PXFMT_BGR5A1_UINT uint16 uint32 4 2  false false false true  0 1 2 3  5 5 5 1  1 6 11 0)
  | PXFMT_A1BGR5_UINT => Some (FMT_INFO PXFMT_A1BGR5_UINT uint16 uint32 4 2  false false false true  0 1 2 3  5 5 5 1  10 5 0 15)
  | PXFMT_BGRA8REV_UINT => Some (FMT_INFO PXFMT_BGRA8REV_UINT uint32 uint32 4 4  false false false true  0 1 2 3  8 8 8 8  24 0 8 16)
  | PXFMT_BGR10A2_UINT => Some (FMT_INFO PXFMT_BGR10A2_UINT uint32 uint32 4 4  false false false true  0 1 2 3  10 10 10 2  2 12 22 0)
  | PXFMT_A2BGR10_UINT => Some (FMT_INFO PXFMT_A2BGR10_UINT uint32 uint32 4 4  false false false true  0 1 2 3  10 10 10 2  20 10 0 30)
  | PXFMT_D8_UNORM => Some (FMT_INFO PXFMT_D8_UNORM uint8 double 1 1  true true false false  0 (-1) (-1) (-1)  8 0 0 0  0 0 0 0)
  | PXFMT_D8_SNORM => Some (FMT_INFO PXFMT_D8_SNORM int8 double 1 1  true true true false  0 (-1) (-1) (-1)  8 0 0 0  0 0 0 0)
  | PXFMT_D16_UNORM => Some (FMT_INFO PXFMT_D16_UNORM uint16 double 1 2  true true false false  0 (-1) (-1) (-1)  16 0 0 0  0 0 0 0)
  | PXFMT_D16_SNORM => Some (FMT_INFO PXFMT_D16_SNORM int16 double 1 2  true true true false  0 (-1) (-1) (-1)  16 0 0 0  0 0 0 0)
  | PXFMT_D32_UNORM => Some (FMT_INFO PXFMT_D32_UNORM uint32 double 1 4  true true false false  0 (-1) (-1) (-1)  32 0 0 0  0 0 0 0)
  | PXFMT_D32_SNORM => Some (FMT_INFO PXFMT_D32_SNORM int32 double 1 4  true true true false  0 (-1) (-1) (-1)  32 0 0 0  0 0 0 0)
  | PXFMT_D32_FLOAT => Some (FMT_INFO PXFMT_D32_FLOAT float double 1 4  true false false false  0 (-1) (-1) (-1)  0 0 0 0  0 0 0 0)
  | PXFMT_S8_UINT => Some (FMT_INFO PXFMT_S8_UINT uint8 uint32 1 1  false false false false  0 (-1) (-1) (-1)  0 0 0 0  0 0 0 0)
  | PXFMT_S8_SINT => Some (FMT_INFO PXFMT_S8_SINT int8 uint32 1 1  false false true false  0 (-1) (-1) (-1)  0 0 0 0  0 0 0 0)
  | PXFMT_S16_UINT => Some (FMT_INFO PXFMT_S16_UINT uint16 uint32 1 2  false false false false  0 (-1) (-1) (-1)  0 0 0 0  0 0 0 0)
  | PXFMT_S16_SINT => Some (FMT_INFO PXFMT_S16_SINT int16 uint32 1 2  false false true false  0 (-1) (-1) (-1)  0 0 0 0  0 0 0 0)
  | PXFMT_S32_UINT => Some (FMT_INFO PXFMT_S32_UINT uint32 uint32 1 4  false false false false  0 (-1) (-1) (-1)  0 0 0 0  0 0 0 0)
  | PXFMT_S32_SINT => Some (FMT_INFO PXFMT_S32_SINT int32 uint32 1 4  false false true false  0 (-1) (-1) (-1)  0 0 0 0  0 0 0 0)
  | PXFMT_S32_FLOAT => Some (FMT_INFO PXFMT_S32_FLOAT float uint32 1 4  false false false false  0 (-1) (-1) (-1)  0 0 0 0  0 0 0 0)
  | PXFMT_D24_UNORM_S8_UINT => Some (FMT_INFO PXFMT_D24_UNORM_S8_UINT uint32 double 2 4  true false false false  0 1 (-1) (-1)  24 8 0 0  0 0 0 0)
  | PXFMT_D32_FLOAT_S8_UINT => Some (FMT_INFO PXFMT_D32_FLOAT_S8_UINT float double 2 8  true false false false  0 1 (-1) (-1)  0 8 0 0  0 0 0 0)
  | PXFMT_INVALID => None
  end.

(** Modelled from the spec: [pxfmt_case_statements.inl], the list of
    [CASE_STATEMENT(fmt)] lines that every run-time dispatcher includes in
    its [switch], is not among the sources at hand.  It is taken to hold one
    line per format that has a descriptor ("EncodingDescriptor (one per
    PixelEncoding)"), so that the [switch] on a run-time format selects the
    instantiation of the template for that very format. *)
Definition pxfmt_case_statements (fmt : pxfmt_sized_format) : option fmt_info :=
  pxfmt_per_fmt_info fmt.

(** [a[c]] for one of the four-element member arrays. *)
Definition elt (a : list Z) (c : nat) : Z := a !!! c.

(** ** The format identifier *)

(** The [GLenum] values the identifier switches on, with the values the
    OpenGL headers ([GL/gl.h], [GL/glext.h]) give them. *)
Definition GL_RED : Z := 0x1903.
Definition GL_GREEN : Z := 0x1904.
Definition GL_BLUE : Z := 0x1905.
Definition GL_ALPHA : Z := 0x1906.
Definition GL_RG : Z := 0x8227.
Definition GL_RGB : Z := 0x1907.
Definition GL_RGBA : Z := 0x1908.
Definition GL_BGRA : Z := 0x80E1.
Definition GL_RED_INTEGER : Z := 0x8D94.
Definition GL_GREEN_INTEGER : Z := 0x8D95.
Definition GL_BLUE_INTEGER : Z := 0x8D96.
Definition GL_ALPHA_INTEGER : Z := 0x8D97.
Definition GL_RG_INTEGER : Z := 0x8228.
Definition GL_RGB_INTEGER : Z := 0x8D98.
Definition GL_RGBA_INTEGER : Z := 0x8D99.
Definition GL_BGRA_INTEGER : Z := 0x8D9B.
Definition GL_DEPTH_COMPONENT : Z := 0x1902.
Definition GL_STENCIL_INDEX : Z := 0x1901.
Definition GL_DEPTH_STENCIL : Z := 0x84F9.

Definition GL_BYTE : Z := 0x1400.
Definition GL_UNSIGNED_BYTE : Z := 0x1401.
Definition GL_SHORT : Z := 0x1402.
Definition GL_UNSIGNED_SHORT : Z := 0x1403.
Definition GL_INT : Z := 0x1404.
Definition GL_UNSIGNED_INT : Z := 0x1405.
Definition GL_FLOAT : Z := 0x1406.
Definition GL_UNSIGNED_BYTE_3_3_2 : Z := 0x8032.
Definition GL_UNSIGNED_SHORT_4_4_4_4 : Z := 0x8033.
Definition GL_UNSIGNED_SHORT_5_5_5_1 : Z := 0x8034.
Definition GL_UNSIGNED_INT_8_8_8_8 : Z := 0x8035.
Definition GL_UNSIGNED_INT_10_10_10_2 : Z := 0x8036.
Definition GL_UNSIGNED_BYTE_2_3_3_REV : Z := 0x8362.
Definition GL_UNSIGNED_SHORT_5_6_5 : Z := 0x8363.
Definition GL_UNSIGNED_SHORT_5_6_5_REV : Z := 0x8364.
Definition GL_UNSIGNED_SHORT_4_4_4_4_REV : Z := 0x8365.
Definition GL_UNSIGNED_SHORT_1_5_5_5_REV : Z := 0x8366.
Definition GL_UNSIGNED_INT_8_8_8_8_REV : Z := 0x8367.
Definition GL_UNSIGNED_INT_2_10_10_10_REV : Z := 0x8368.
Definition GL_UNSIGNED_INT_24_8 : Z := 0x84FA.
Definition GL_FLOAT_32_UNSIGNED_INT_24_8_REV : Z := 0x8DAD.

(** An inner [switch (type)]: every [case] returns, [default] breaks.  The
    result is [Some r] for [return r] and [None] for the [break]. *)
Fixpoint switch_type (type : Z) (cases : list (Z * pxfmt_sized_format))
  : option pxfmt_sized_format :=
  match cases with
  | [] => None
  | (label, r) :: rest => if type =? label then Some r else switch_type type rest
  end.

Definition cases_GL_RED : list (Z * pxfmt_sized_format) :=
  [ (GL_UNSIGNED_BYTE, PXFMT_R8_UNORM);
    (GL_BYTE, PXFMT_R8_SNORM);
    (GL_UNSIGNED_SHORT, PXFMT_R16_UNORM);
    (GL_SHORT, PXFMT_R16_SNORM);
    (GL_UNSIGNED_INT, PXFMT_R32_UNORM);
    (GL_INT, PXFMT_R32_SNORM);
    (GL_FLOAT, PXFMT_R32_FLOAT) ].

Definition cases_GL_GREEN : list (Z * pxfmt_sized_format) :=
  [ (GL_UNSIGNED_BYTE, PXFMT_G8_UNORM);
    (GL_BYTE, PXFMT_G8_SNORM);
    (GL_UNSIGNED_SHORT, PXFMT_G16_UNORM);
    (GL_SHORT, PXFMT_G16_SNORM);
    (GL_UNSIGNED_INT, PXFMT_G32_UNORM);
    (GL_INT, PXFMT_G32_SNORM);
    (GL_FLOAT, PXFMT_G32_FLOAT) ].

Definition cases_GL_BLUE : list (Z * pxfmt_sized_format) :=
  [ (GL_UNSIGNED_BYTE, PXFMT_B8_UNORM);
    (GL_BYTE, PXFMT_B8_SNORM);
    (GL_UNSIGNED_SHORT, PXFMT_B16_UNORM);
    (GL_SHORT, PXFMT_B16_SNORM);
    (GL_UNSIGNED_INT, PXFMT_B32_UNORM);
    (GL_INT, PXFMT_B32_SNORM);
    (GL_FLOAT, PXFMT_B32_FLOAT) ].

Definition cases_GL_ALPHA : list (Z * pxfmt_sized_format) :=
  [ (GL_UNSIGNED_BYTE, PXFMT_A8_UNORM);
    (GL_BYTE, PXFMT_A8_SNORM);
    (GL_UNSIGNED_SHORT, PXFMT_A16_UNORM);
    (GL_SHORT, PXFMT_A16_SNORM);
    (GL_UNSIGNED_INT, PXFMT_A32_UNORM);
    (GL_INT, PXFMT_A32_SNORM);
    (GL_FLOAT, PXFMT_A32_FLOAT) ].

Definition cases_GL_RG : list (Z * pxfmt_sized_format) :=
  [ (GL_UNSIGNED_BYTE, PXFMT_RG8_UNORM);
    (GL_BYTE, PXFMT_RG8_SNORM);
    (GL_UNSIGNED_SHORT, PXFMT_RG16_UNORM);
    (GL_SHORT, PXFMT_RG16_SNORM);
    (GL_UNSIGNED_INT, PXFMT_RG32_UNORM);
    (GL_INT, PXFMT_RG32_SNORM);
    (GL_FLOAT, PXFMT_RG32_FLOAT) ].

Definition cases_GL_RGB : list (Z * pxfmt_sized_format) :=
  [ (GL_UNSIGNED_BYTE, PXFMT_RGB8_UNORM);
    (GL_BYTE, PXFMT_RGB8_SNORM);
    (GL_UNSIGNED_SHORT, PXFMT_RGB16_UNORM);
    (GL_SHORT, PXFMT_RGB16_SNORM);
    (GL_UNSIGNED_INT, PXFMT_RGB32_UNORM);
    (GL_INT, PXFMT_RGB32_SNORM);
    (GL_FLOAT, PXFMT_RGB32_FLOAT);
    (GL_UNSIGNED_BYTE_3_3_2, PXFMT_RGB332_UNORM);
    (GL_UNSIGNED_BYTE_2_3_3_REV, PXFMT_RGB233_UNORM);
    (GL_UNSIGNED_SHORT_5_6_5, PXFMT_RGB565_UNORM);
    (GL_UNSIGNED_SHORT_5_6_5_REV, PXFMT_RGB565REV_UNORM) ].

Definition cases_GL_RGBA : list (Z * pxfmt_sized_format) :=
  [ (GL_UNSIGNED_BYTE, PXFMT_RGBA8_UNORM);
    (GL_BYTE, PXFMT_RGBA8_SNORM);
    (GL_UNSIGNED_SHORT, PXFMT_RGBA16_UNORM);
    (GL_SHORT, PXFMT_RGBA16_SNORM);
    (GL_UNSIGNED_INT, PXFMT_RGBA32_UNORM);
    (GL_INT, PXFMT_RGBA32_SNORM);
    (GL_FLOAT, PXFMT_RGBA32_FLOAT);
    (GL_UNSIGNED_SHORT_4_4_4_4, PXFMT_RGBA4_UNORM);
    (GL_UNSIGNED_SHORT_4_4_4_4_REV, PXFMT_RGBA4REV_UNORM);
    (GL_UNSIGNED_SHORT_5_5_5_1, PXFMT_RGB5A1_UNORM);
    (GL_UNSIGNED_SHORT_1_5_5_5_REV, PXFMT_A1RGB5_UNORM);
    (GL_UNSIGNED_INT_8_8_8_8, PXFMT_RGBA8_UNORM);
    (GL_UNSIGNED_INT_8_8_8_8_REV, PXFMT_RGBA8REV_UNORM);
    (GL_UNSIGNED_INT_10_10_10_2, PXFMT_RGB10A2_UNORM);
    (GL_UNSIGNED_INT_2_10_10_10_REV, PXFMT_A2RGB10_UNORM) ].

Definition cases_GL_BGRA : list (Z * pxfmt_sized_format) :=
  [ (GL_UNSIGNED_BYTE, PXFMT_BGRA8_UNORM);
    (GL_BYTE, PXFMT_BGRA8_SNORM);
    (GL_UNSIGNED_SHORT, PXFMT_BGRA16_UNORM);
    (GL_SHORT, PXFMT_BGRA16_SNORM);
    (GL_UNSIGNED_INT, PXFMT_BGRA32_UNORM);
    (GL_INT, PXFMT_BGRA32_SNORM);
    (GL_FLOAT, PXFMT_BGRA32_FLOAT);
    (GL_UNSIGNED_SHORT_4_4_4_4, PXFMT_BGRA4_UNORM);
    (GL_UNSIGNED_SHORT_4_4_4_4_REV, PXFMT_BGRA4REV_UNORM);
    (GL_UNSIGNED_SHORT_5_5_5_1, PXFMT_BGR5A1_UNORM);
    (GL_UNSIGNED_SHORT_1_5_5_5_REV, PXFMT_A1BGR5_UNORM);
    (GL_UNSIGNED_INT_8_8_8_8, PXFMT_BGRA8_UNORM);
    (GL_UNSIGNED_INT_8_8_8_8_REV, PXFMT_BGRA8REV_UNORM);
    (GL_UNSIGNED_INT_10_10_10_2, PXFMT_BGR10A2_UNORM);
    (GL_UNSIGNED_INT_2_10_10_10_REV, PXFMT_A2BGR10_UNORM) ].

Definition cases_GL_RED_INTEGER : list (Z * pxfmt_sized_format) :=
  [ (GL_UNSIGNED_BYTE, PXFMT_R8_UINT);
    (GL_BYTE, PXFMT_R8_SINT);
    (GL_UNSIGNED_SHORT, PXFMT_R16_UINT);
    (GL_SHORT, PXFMT_R16_SINT);
    (GL_UNSIGNED_INT, PXFMT_R32_UINT);
    (GL_INT, PXFMT_R32_SINT) ].

Definition cases_GL_GREEN_INTEGER : list (Z * pxfmt_sized_format) :=
  [ (GL_UNSIGNED_BYTE, PXFMT_G8_UINT);
    (GL_BYTE, PXFMT_G8_SINT);
    (GL_UNSIGNED_SHORT, PXFMT_G16_UINT);
    (GL_SHORT, PXFMT_G16_SINT);
    (GL_UNSIGNED_INT, PXFMT_G32_UINT);
    (GL_INT, PXFMT_G32_SINT) ].

Definition cases_GL_BLUE_INTEGER : list (Z * pxfmt_sized_format) :=
  [ (GL_UNSIGNED_BYTE, PXFMT_B8_UINT);
    (GL_BYTE, PXFMT_B8_SINT);
    (GL_UNSIGNED_SHORT, PXFMT_B16_UINT);
    (GL_SHORT, PXFMT_B16_SINT);
    (GL_UNSIGNED_INT, PXFMT_B32_UINT);
    (GL_INT, PXFMT_B32_SINT) ].

Definition cases_GL_ALPHA_INTEGER : list (Z * pxfmt_sized_format) :=
  [ (GL_UNSIGNED_BYTE, PXFMT_A8_UINT);
    (GL_BYTE, PXFMT_A8_SINT);
    (GL_UNSIGNED_SHORT, PXFMT_A16_UINT);
    (GL_SHORT, PXFMT_A16_SINT);
    (GL_UNSIGNED_INT, PXFMT_A32_UINT);
    (GL_INT, PXFMT_A32_SINT) ].

Definition cases_GL_RG_INTEGER : list (Z * pxfmt_sized_format) :=
  [ (GL_UNSIGNED_BYTE, PXFMT_RG8_UINT);
    (GL_BYTE, PXFMT_RG8_SINT);
    (GL_UNSIGNED_SHORT, PXFMT_RG16_UINT);
    (GL_SHORT, PXFMT_RG16_SINT);
    (GL_UNSIGNED_INT, PXFMT_RG32_UINT);
    (GL_INT, PXFMT_RG32_SINT) ].

Definition cases_GL_RGB_INTEGER : list (Z * pxfmt_sized_format) :=
  [ (GL_UNSIGNED_BYTE, PXFMT_RGB8_UINT);
    (GL_BYTE, PXFMT_RGB8_SINT);
    (GL_UNSIGNED_SHORT, PXFMT_RGB16_UINT);
    (GL_SHORT, PXFMT_RGB16_SINT);
    (GL_UNSIGNED_INT, PXFMT_RGB32_UINT);
    (GL_INT, PXFMT_RGB32_SINT);
    (GL_UNSIGNED_BYTE_3_3_2, PXFMT_RGB332_UINT);
    (GL_UNSIGNED_BYTE_2_3_3_REV, PXFMT_RGB233_UINT);
    (GL_UNSIGNED_SHORT_5_6_5, PXFMT_RGB565_UINT);
    (GL_UNSIGNED_SHORT_5_6_5_REV, PXFMT_RGB565REV_UINT) ].

Definition cases_GL_RGBA_INTEGER : list (Z * pxfmt_sized_format) :=
  [ (GL_UNSIGNED_BYTE, PXFMT_RGBA8_UINT);
    (GL_BYTE, PXFMT_RGBA8_SINT);
    (GL_UNSIGNED_SHORT, PXFMT_RGBA16_UINT);
    (GL_SHORT, PXFMT_RGBA16_SINT);
    (GL_UNSIGNED_INT, PXFMT_RGBA32_UINT);
    (GL_INT, PXFMT_RGBA32_SINT);
    (GL_UNSIGNED_SHORT_4_4_4_4, PXFMT_RGBA4_UINT);
    (GL_UNSIGNED_SHORT_4_4_4_4_REV, PXFMT_RGBA4REV_UINT);
    (GL_UNSIGNED_SHORT_5_5_5_1, PXFMT_RGB5A1_UINT);
    (GL_UNSIGNED_SHORT_1_5_5_5_REV, PXFMT_A1RGB5_UINT);
    (GL_UNSIGNED_INT_8_8_8_8, PXFMT_RGBA8_UINT);
    (GL_UNSIGNED_INT_8_8_8_8_REV, PXFMT_RGBA8REV_UINT);
    (GL_UNSIGNED_INT_10_10_10_2, PXFMT_RGB10A2_UINT);
    (GL_UNSIGNED_INT_2_10_10_10_REV, PXFMT_A2RGB10_UINT) ].

Definition cases_GL_BGRA_INTEGER : list (Z * pxfmt_sized_format) :=
  [ (GL_UNSIGNED_BYTE, PXFMT_BGRA8_UINT);
    (GL_BYTE, PXFMT_BGRA8_SINT);
    (GL_UNSIGNED_SHORT, PXFMT_BGRA16_UINT);
    (GL_SHORT, PXFMT_BGRA16_SINT);
    (GL_UNSIGNED_INT, PXFMT_BGRA32_UINT);
    (GL_INT, PXFMT_BGRA32_SINT);
    (GL_UNSIGNED_SHORT_4_4_4_4, PXFMT_BGRA4_UINT);
    (GL_UNSIGNED_SHORT_4_4_4_4_REV, PXFMT_BGRA4REV_UINT);
    (GL_UNSIGNED_SHORT_5_5_5_1, PXFMT_BGR5A1_UINT);
    (GL_UNSIGNED_SHORT_1_5_5_5_REV, PXFMT_A1BGR5_UINT);
    (GL_UNSIGNED_INT_8_8_8_8, PXFMT_BGRA8_UINT);
    (GL_UNSIGNED_INT_8_8_8_8_REV, PXFMT_BGRA8REV_UINT);
    (GL_UNSIGNED_INT_10_10_10_2, PXFMT_BGR10A2_UINT);
    (GL_UNSIGNED_INT_2_10_10_10_REV, PXFMT_A2BGR10_UINT) ].

Definition cases_GL_DEPTH_COMPONENT : list (Z * pxfmt_sized_format) :=
  [ (GL_UNSIGNED_BYTE, PXFMT_D8_UNORM);
    (GL_BYTE, PXFMT_D8_SNORM);
    (GL_UNSIGNED_SHORT, PXFMT_D16_UNORM);
    (GL_SHORT, PXFMT_D16_SNORM);
    (GL_UNSIGNED_INT, PXFMT_D32_UNORM);
    (GL_INT, PXFMT_D32_SNORM);
    (GL_FLOAT, PXFMT_D32_FLOAT) ].

Definition cases_GL_STENCIL_INDEX : list (Z * pxfmt_sized_format) :=
  [ (GL_UNSIGNED_BYTE, PXFMT_S8_UINT);
    (GL_BYTE, PXFMT_S8_SINT);
    (GL_UNSIGNED_SHORT, PXFMT_S16_UINT);
    (GL_SHORT, PXFMT_S16_SINT);
    (GL_UNSIGNED_INT, PXFMT_S32_UINT);
    (GL_INT, PXFMT_S32_SINT);
    (GL_FLOAT, PXFMT_S32_FLOAT) ].

Definition cases_GL_DEPTH_STENCIL : list (Z * pxfmt_sized_format) :=
  [ (GL_UNSIGNED_INT_24_8, PXFMT_D24_UNORM_S8_UINT);
    (GL_FLOAT_32_UNSIGNED_INT_24_8_REV, PXFMT_D32_FLOAT_S8_UINT) ].

(** [validate_format_type_combo].  After an inner [switch] that did not
    return, [break] leaves the outer [switch] and the function returns
    [PXFMT_INVALID]; [case GL_RGBA_INTEGER] has no such [break] and runs on
    into [case GL_BGRA_INTEGER]. *)
Definition validate_format_type_combo (format type : Z) : pxfmt_sized_format :=
  if format =? GL_RED then
    default PXFMT_INVALID (switch_type type cases_GL_RED)
  else if format =? GL_GREEN then
    default PXFMT_INVALID (switch_type type cases_GL_GREEN)
  else if format =? GL_BLUE then
    default PXFMT_INVALID (switch_type type cases_GL_BLUE)
  else if format =? GL_ALPHA then
    default PXFMT_INVALID (switch_type type cases_GL_ALPHA)
  else if format =? GL_RG then
    default PXFMT_INVALID (switch_type type cases_GL_RG)
  else if format =? GL_RGB then
    default PXFMT_INVALID (switch_type type cases_GL_RGB)
  else if format =? GL_RGBA then
    default PXFMT_INVALID (switch_type type cases_GL_RGBA)
  else if format =? GL_BGRA then
    default PXFMT_INVALID (switch_type type cases_GL_BGRA)
  else if format =? GL_RED_INTEGER then
    default PXFMT_INVALID (switch_type type cases_GL_RED_INTEGER)
  else if format =? GL_GREEN_INTEGER then
    default PXFMT_INVALID (switch_type type cases_GL_GREEN_INTEGER)
  else if format =? GL_BLUE_INTEGER then
    default PXFMT_INVALID (switch_type type cases_GL_BLUE_INTEGER)
  else if format =? GL_ALPHA_INTEGER then
    default PXFMT_INVALID (switch_type type cases_GL_ALPHA_INTEGER)
  else if format =? GL_RG_INTEGER then
    default PXFMT_INVALID (switch_type type cases_GL_RG_INTEGER)
  else if format =? GL_RGB_INTEGER then
    default PXFMT_INVALID (switch_type type cases_GL_RGB_INTEGER)
  else if format =? GL_RGBA_INTEGER then
    match switch_type type cases_GL_RGBA_INTEGER with
    | Some r => r
    | None => default PXFMT_INVALID (switch_type type cases_GL_BGRA_INTEGER)
    end
  else if format =? GL_BGRA_INTEGER then
    default PXFMT_INVALID (switch_type type cases_GL_BGRA_INTEGER)
  else if format =? GL_DEPTH_COMPONENT then
    default PXFMT_INVALID (switch_type type cases_GL_DEPTH_COMPONENT)
  else if format =? GL_STENCIL_INDEX then
    default PXFMT_INVALID (switch_type type cases_GL_STENCIL_INDEX)
  else if format =? GL_DEPTH_STENCIL then
    default PXFMT_INVALID (switch_type type cases_GL_DEPTH_STENCIL)
  else PXFMT_INVALID.

(** The supported pairs, layout by layout: the datatypes each external
    layout is accepted with. *)
Definition scalar_integer_types : list Z :=
  [GL_UNSIGNED_BYTE; GL_BYTE; GL_UNSIGNED_SHORT; GL_SHORT; GL_UNSIGNED_INT; GL_INT].

Definition packed_three_types : list Z :=
  [GL_UNSIGNED_BYTE_3_3_2; GL_UNSIGNED_BYTE_2_3_3_REV;
   GL_UNSIGNED_SHORT_5_6_5; GL_UNSIGNED_SHORT_5_6_5_REV].

Definition packed_four_types : list Z :=
  [GL_UNSIGNED_SHORT_4_4_4_4; GL_UNSIGNED_SHORT_4_4_4_4_REV;
   GL_UNSIGNED_SHORT_5_5_5_1; GL_UNSIGNED_SHORT_1_5_5_5_REV;
   GL_UNSIGNED_INT_8_8_8_8; GL_UNSIGNED_INT_8_8_8_8_REV;
   GL_UNSIGNED_INT_10_10_10_2; GL_UNSIGNED_INT_2_10_10_10_REV].

Definition mem_Z (x : Z) (l : list Z) : bool := existsb (Z.eqb x) l.

Definition supported_types (format : Z) : list Z :=
  if mem_Z format [GL_RED; GL_GREEN; GL_BLUE; GL_ALPHA; GL_RG;
                   GL_DEPTH_COMPONENT; GL_STENCIL_INDEX]
  then scalar_integer_types ++ [GL_FLOAT]
  else if format =? GL_RGB
  then scalar_integer_types ++ [GL_FLOAT] ++ packed_three_types
  else if mem_Z format [GL_RGBA; GL_BGRA]
  then scalar_integer_types ++ [GL_FLOAT] ++ packed_four_types
  else if mem_Z format [GL_RED_INTEGER; GL_GREEN_INTEGER; GL_BLUE_INTEGER;
                        GL_ALPHA_INTEGER; GL_RG_INTEGER]
  then scalar_integer_types
  else if format =? GL_RGB_INTEGER
  then scalar_integer_types ++ packed_three_types
  else if mem_Z format [GL_RGBA_INTEGER; GL_BGRA_INTEGER]
  then scalar_integer_types ++ packed_four_types
  else if format =? GL_DEPTH_STENCIL
  then [GL_UNSIGNED_INT_24_8; GL_FLOAT_32_UNSIGNED_INT_24_8_REV]
  else [].

Definition supported (format type : Z) : bool :=
  mem_Z type (supported_types format).

(** ** Conversions between scalar types *)

(** One platform's answer to an out-of-range conversion, for the closed
    examples at the end: always 0. *)
Definition undef_cast_zero : ctype -> spec_float -> Z := fun _ _ => 0.

Section Pxfmt.

(** C++ leaves the conversion of a floating value to an integer type
    undefined when the truncated value does not fit the type (and for
    infinities and NaNs).  [undef_cast t x] stands for whatever integer
    the platform produces in that case; everything below holds for any
    choice of it. *)
Variable undef_cast : ctype -> spec_float -> Z.

(** Floating to integer type [t]: truncation toward zero. *)
Definition fp_to_int (t : ctype) (x : spec_float) : Z :=
  match SF_trunc x with
  | Some n => if int_in_range t n then n else int_repr t (undef_cast t x)
  | None => int_repr t (undef_cast t x)
  end.

(** [convert t v]: the value [v] converted to type [t], as an explicit
    cast or an assignment to an object of type [t] does. *)
Definition convert (t : ctype) (v : cvalue) : cvalue :=
  match t, v with
  | double, Vint n => Vfp (Z_to_double n)
  | double, Vfp x => Vfp x
  | float, Vint n => Vfp (round_to_float (Z_to_double n))
  | float, Vfp x => Vfp (round_to_float x)
  | _, Vint n => Vint (int_repr t n)
  | _, Vfp x => Vint (fp_to_int t x)
  end.

Definition to_uint32 (v : cvalue) : Z :=
  match convert uint32 v with Vint n => n | Vfp _ => 0 end.

Definition to_double (v : cvalue) : spec_float :=
  match convert double v with Vfp x => x | Vint _ => d_zero end.

(** The object representation of a value of type [t]. *)
Definition encode (t : ctype) (v : cvalue) : Z :=
  match convert t v with
  | Vint n => wrap (bitsof t) n
  | Vfp x =>
      match t with
      | float => SF_to_bits prec32 emax32 (SF_round prec32 emax32 x)
      | _ => SF_to_bits prec64 emax64 x
      end
  end.

Definition decode (t : ctype) (b : Z) : cvalue :=
  match t with
  | float => Vfp (SF_round prec64 emax64 (bits_to_SF prec32 emax32 b))
  | double => Vfp (bits_to_SF prec64 emax64 b)
  | _ => Vint (int_repr t b)
  end.

(** [load t m a] reads [*(t * )(m + a)]; [store t m a v] performs
    [*(t * )(m + a) = v]. *)
Definition load (t : ctype) (m : mem) (a : nat) : cvalue :=
  decode t (load_le m a (sizeof t)).

Definition store (t : ctype) (m : mem) (a : nat) (v : cvalue) : mem :=
  store_le m a (sizeof t) (encode t v).

(** ** Strides *)

(** The template [get_pxfmt_info<F>]: all three operands of the stride
    computation are [uint32]. *)
Definition get_pxfmt_info_F (F : fmt_info) (width : Z) : Z * Z * bool :=
  let pixel_stride := m_bytes_per_pixel F in
  let row_stride :=
    Z.land (wrap 32 (wrap 32 (pixel_stride * width) + 3)) 0xFFFFFFFC in
  (pixel_stride, row_stride, m_needs_fp_intermediate F).

(** The run-time dispatcher: a [switch] over the case statements, and
    [case PXFMT_INVALID: break;], which leaves the three reference
    parameters unassigned (here [None]). *)
Definition get_pxfmt_info (width : Z) (fmt : pxfmt_sized_format)
  : option (Z * Z * bool) :=
  match pxfmt_case_statements fmt with
  | Some F => Some (get_pxfmt_info_F F width)
  | None => None
  end.

(** ** From a formatted pixel to the intermediate values *)

(** [for (uint c = 0 ; c < n ; c++) body]: [for_loop n 0 body]. *)
Fixpoint for_loop {St : Type} (n : nat) (c : nat) (body : nat -> St -> St)
    (st : St) : St :=
  match n with
  | O => st
  | S k => for_loop k (S c) body (body c st)
  end.

(** In the decoders [dst] is the intermediate array (its element type is
    [m_intermediate_type F]) and [src] with [psrc] is the pointer to the
    source pixel (element type [m_formatted_type F]); each function returns
    the array as it leaves it. *)
Definition set_intermediate_to_defaults (F : fmt_info) (intermediate : mem)
  : mem :=
  let Tint := m_intermediate_type F in
  let dst := store Tint intermediate (elem_addr Tint 0 0) (Vint 0) in
  let dst := store Tint dst (elem_addr Tint 0 1) (Vint 0) in
  let dst := store Tint dst (elem_addr Tint 0 2) (Vint 0) in
  store Tint dst (elem_addr Tint 0 3) (Vint 1).

(** [std::max<double>(a, b)] is [(a < b) ? b : a]. *)
Definition std_max (a b : spec_float) : spec_float :=
  if dlt a b then b else a.

(** [dst[index] = std::max<double>(dst[index], -1.0)].  [std::max]
    returns a reference to the larger argument: unless [dst[index]] is
    below -1.0 the object is assigned to itself and its bytes stay as they
    are. *)
Definition clamp_to_minus_one (Tint : ctype) (dst : mem) (a : nat) : mem :=
  if dlt (to_double (load Tint dst a)) d_minus_one
  then store Tint dst a (Vfp (std_max (to_double (load Tint dst a)) d_minus_one))
  else dst.

(** One component of a packed pixel: [raw] is the whole scalar [*src]. *)
Definition to_int_comp_packed (F : fmt_info) (dst : mem)
    (src : mem) (psrc : nat) (c : nat) : mem :=
  let Tint := m_intermediate_type F in
  let raw := to_uint32 (load (m_formatted_type F) src psrc) in
  let index := wrap 32 (elt (m_index F) c) in
  let mask := elt (m_mask F) c in
  let shift := elt (m_shift F) c in
  if m_is_normalized F then
    let max := elt (m_max F) c in
    let raw := Z.shiftr (Z.land raw mask) shift in
    let dst := store Tint dst (elem_addr Tint 0 index)
                 (Vfp (ddiv (Z_to_double raw) (Z_to_double max))) in
    if m_is_signed F then clamp_to_minus_one Tint dst (elem_addr Tint 0 index)
    else dst
  else
    store Tint dst (elem_addr Tint 0 index)
      (Vint (Z.shiftr (Z.land raw mask) shift)).

(** One normalized component: [raw] is [(uint32) src[c]]. *)
Definition to_int_comp_norm_unpacked (F : fmt_info) (dst : mem)
    (src : mem) (psrc : nat) (c : nat) : mem :=
  let Tint := m_intermediate_type F in
  let Tsrc := m_formatted_type F in
  let raw := to_uint32 (load Tsrc src (elem_addr Tsrc psrc (Z.of_nat c))) in
  let index := wrap 32 (elt (m_index F) c) in
  let max := elt (m_max F) c in
  let dst := store Tint dst (elem_addr Tint 0 index)
               (Vfp (ddiv (Z_to_double raw) (Z_to_double max))) in
  if m_is_signed F then clamp_to_minus_one Tint dst (elem_addr Tint 0 index)
  else dst.

(** [dst[index] = src[c]], with the conversion the assignment implies. *)
Definition to_int_comp_copy (F : fmt_info) (dst : mem)
    (src : mem) (psrc : nat) (c : nat) : mem :=
  let Tint := m_intermediate_type F in
  let Tsrc := m_formatted_type F in
  let index := wrap 32 (elt (m_index F) c) in
  store Tint dst (elem_addr Tint 0 index)
    (load Tsrc src (elem_addr Tsrc psrc (Z.of_nat c))).

(** [GL_DEPTH_STENCIL] with [GL_UNSIGNED_INT_24_8]: the depth goes through
    a [double *] to [&dst[0]], the stencil through a [uint32 *] to
    [&dst[1]]. *)
Definition to_int_d24_unorm_s8_uint (F : fmt_info) (dst : mem)
    (src : mem) (psrc : nat) : mem :=
  let Tint := m_intermediate_type F in
  let depth := to_uint32 (load (m_formatted_type F) src psrc) in
  let dst :=
    store double dst (elem_addr Tint 0 0)
      (Vfp (ddiv
              (Z_to_double
                 (Z.shiftr (Z.land depth (elt (m_mask F) 0)) (elt (m_shift F) 0)))
              (Z_to_double (elt (m_max F) 0)))) in
  let stencil := to_uint32 (load (m_formatted_type F) src psrc) in
  store uint32 dst (elem_addr Tint 0 1)
    (Vint (Z.shiftr (Z.land stencil (elt (m_mask F) 1)) (elt (m_shift F) 1))).

(** [GL_DEPTH_STENCIL] with [GL_FLOAT_32_UNSIGNED_INT_24_8_REV]. *)
Definition to_int_d32_float_s8_uint (F : fmt_info) (dst : mem)
    (src : mem) (psrc : nat) : mem :=
  let Tint := m_intermediate_type F in
  let Tsrc := m_formatted_type F in
  let dst := to_int_comp_copy F dst src psrc 0 in
  let stencil := to_uint32 (load uint32 src (elem_addr Tsrc psrc 1)) in
  store uint32 dst (elem_addr Tint 0 1)
    (Vint (Z.shiftr (Z.land stencil (elt (m_mask F) 1)) (elt (m_shift F) 1))).

Definition is_D24_UNORM_S8_UINT (f : pxfmt_sized_format) : bool :=
  match f with PXFMT_D24_UNORM_S8_UINT => true | _ => false end.

Definition is_D32_FLOAT_S8_UINT (f : pxfmt_sized_format) : bool :=
  match f with PXFMT_D32_FLOAT_S8_UINT => true | _ => false end.

(** The body of the component loop of [to_intermediate<F>]. *)
Definition to_int_comp (F : fmt_info) (src : mem) (psrc : nat) (c : nat)
    (dst : mem) : mem :=
  if 0 <=? elt (m_index F) c then
    if m_is_packed F then to_int_comp_packed F dst src psrc c
    else if m_is_normalized F then to_int_comp_norm_unpacked F dst src psrc c
    else to_int_comp_copy F dst src psrc c
  else dst.

(** The template [to_intermediate<F>]. *)
Definition to_intermediate_F (F : fmt_info) (intermediate : mem)
    (src : mem) (psrc : nat) : mem :=
  let dst := set_intermediate_to_defaults F intermediate in
  if is_D24_UNORM_S8_UINT (m_fmt F) then to_int_d24_unorm_s8_uint F dst src psrc
  else if is_D32_FLOAT_S8_UINT (m_fmt F) then to_int_d32_float_s8_uint F dst src psrc
  else for_loop (Z.to_nat (m_num_components F)) 0 (to_int_comp F src psrc) dst.

(** The run-time dispatcher [to_intermediate]. *)
Definition to_intermediate (intermediate : mem) (src : mem) (psrc : nat)
    (src_fmt : pxfmt_sized_format) : mem :=
  match pxfmt_case_statements src_fmt with
  | Some F => to_intermediate_F F intermediate src psrc
  | None => intermediate
  end.

(** ** From the intermediate values to a formatted pixel *)

(** [norm ? (src[i] * m_max[i]) : src[i]], of type [Tint]: a product of
    doubles when [Tint] is [double], of [uint32]s when it is [uint32]. *)
Definition scaled_component (F : fmt_info) (src : mem) (i : nat) : cvalue :=
  let Tint := m_intermediate_type F in
  let v := load Tint src (elem_addr Tint 0 (Z.of_nat i)) in
  if m_is_normalized F then
    match v with
    | Vfp x => convert Tint (Vfp (dmul x (Z_to_double (elt (m_max F) i))))
    | Vint n => convert Tint (Vint (n * elt (m_max F) i))
    end
  else v.

(** [((uint32) comp << m_shift[i]) & m_mask[i]]: what component [i] adds
    to the packed value. *)
Definition packed_term (F : fmt_info) (src : mem) (i : nat) : Z :=
  Z.land
    (wrap 32 (Z.shiftl (to_uint32 (scaled_component F src i)) (elt (m_shift F) i)))
    (elt (m_mask F) i).

(** In the encoders [dst] with [pdst] is the pointer to the destination
    pixel and [src] is the intermediate array. *)
Definition from_int_comp_packed (F : fmt_info) (dst : mem) (pdst : nat)
    (src : mem) : mem :=
  store (m_formatted_type F) dst pdst
    (Vint (Z.lor (Z.lor (Z.lor (packed_term F src 0) (packed_term F src 1))
                    (packed_term F src 2))
             (packed_term F src 3))).

(** The unused local [raw] of the source is left out. *)
Definition from_int_comp_norm_unpacked (F : fmt_info) (dst : mem) (pdst : nat)
    (src : mem) (c : nat) : mem :=
  let Tint := m_intermediate_type F in
  let Tdst := m_formatted_type F in
  let index := wrap 32 (elt (m_index F) c) in
  let max := elt (m_max F) c in
  store Tdst dst (elem_addr Tdst pdst (Z.of_nat c))
    (convert Tint
       (Vfp (dmul (to_double (load Tint src (elem_addr Tint 0 index)))
               (Z_to_double max)))).

Definition from_int_comp_copy (F : fmt_info) (dst : mem) (pdst : nat)
    (src : mem) (c : nat) : mem :=
  let Tint := m_intermediate_type F in
  let Tdst := m_formatted_type F in
  let index := wrap 32 (elt (m_index F) c) in
  store Tdst dst (elem_addr Tdst pdst (Z.of_nat c))
    (convert Tint (load Tint src (elem_addr Tint 0 index))).

Definition from_int_d24_unorm_s8_uint (F : fmt_info) (dst : mem) (pdst : nat)
    (src : mem) : mem :=
  let Tint := m_intermediate_type F in
  let depth_double :=
    dmul (to_double (load Tint src (elem_addr Tint 0 0)))
      (Z_to_double (elt (m_max F) 0)) in
  let depth_uint32 := to_uint32 (Vfp depth_double) in
  let depth_uint32 :=
    Z.land (wrap 32 (Z.shiftl depth_uint32 (elt (m_shift F) 0)))
      (elt (m_mask F) 0) in
  let stencil_src := to_uint32 (load uint32 src (elem_addr Tint 0 1)) in
  let stencil :=
    Z.land (wrap 32 (Z.shiftl stencil_src (elt (m_shift F) 1)))
      (elt (m_mask F) 1) in
  store (m_formatted_type F) dst pdst (Vint (Z.lor depth_uint32 stencil)).

Definition from_int_d32_float_s8_uint (F : fmt_info) (dst : mem) (pdst : nat)
    (src : mem) : mem :=
  let Tint := m_intermediate_type F in
  let Tdst := m_formatted_type F in
  let dst := from_int_comp_copy F dst pdst src 0 in
  let stencil_src := to_uint32 (load uint32 src (elem_addr Tint 0 1)) in
  store uint32 dst (elem_addr Tdst pdst 1)
    (Vint (Z.land (wrap 32 (Z.shiftl stencil_src (elt (m_shift F) 1)))
             (elt (m_mask F) 1))).

(** The body of the component loop of [from_intermediate<F>]. *)
Definition from_int_comp (F : fmt_info) (pdst : nat) (src : mem) (c : nat)
    (dst : mem) : mem :=
  if 0 <=? elt (m_index F) c then
    if m_is_normalized F then from_int_comp_norm_unpacked F dst pdst src c
    else from_int_comp_copy F dst pdst src c
  else dst.

(** The template [from_intermediate<F>]. *)
Definition from_intermediate_F (F : fmt_info) (dst : mem) (pdst : nat)
    (intermediate : mem) : mem :=
  if is_D24_UNORM_S8_UINT (m_fmt F) then
    from_int_d24_unorm_s8_uint F dst pdst intermediate
  else if is_D32_FLOAT_S8_UINT (m_fmt F) then
    from_int_d32_float_s8_uint F dst pdst intermediate
  else if m_is_packed F then from_int_comp_packed F dst pdst intermediate
  else
    for_loop (Z.to_nat (m_num_components F)) 0
      (from_int_comp F pdst intermediate) dst.

(** The run-time dispatcher [from_intermediate]. *)
Definition from_intermediate (dst : mem) (pdst : nat) (intermediate : mem)
    (dst_fmt : pxfmt_sized_format) : mem :=
  match pxfmt_case_statements dst_fmt with
  | Some F => from_intermediate_F F dst pdst intermediate
  | None => dst
  end.

(** ** The pixel-block converter *)

(** The locals of [pxfmt_convert_pixels] that change in its loops: the four
    pointers (byte offsets into the two buffers), the intermediate array and
    the destination buffer.  The source buffer is only read, and is taken to
    be disjoint from the destination. *)
Record conv_state : Type := {
  src : nat; src_row : nat;
  dst : nat; dst_row : nat;
  intermediate : mem;
  dst_mem : mem
}.

(** How a call ends: it returns, it stops on a failed [assert] (the
    destination as it is then), or its behaviour is undefined: it reads the
    strides that [get_pxfmt_info] left unassigned for [PXFMT_INVALID], or
    it reads an object that lies past the end of the local array
    [intermediate]. *)
Inductive outcome : Type :=
  | Returned (d : mem)
  | Aborted (d : mem)
  | Undefined.

(** [assert(cond)]; with [NDEBUG] defined the macro expands to nothing. *)
Definition assert (ndebug : bool) (cond : bool) (d : mem) (k : outcome)
  : outcome :=
  if ndebug || cond then k else Aborted d.

(** The body of the inner loop. *)
Definition convert_pixel (pSrc : mem) (src_fmt dst_fmt : pxfmt_sized_format)
    (src_pixel_stride dst_pixel_stride : Z) (x : nat) (st : conv_state)
  : conv_state :=
  let i := to_intermediate (intermediate st) pSrc (src st) src_fmt in
  let d := from_intermediate (dst_mem st) (dst st) i dst_fmt in
  {| src := src st + Z.to_nat src_pixel_stride; src_row := src_row st;
     dst := dst st + Z.to_nat dst_pixel_stride; dst_row := dst_row st;
     intermediate := i; dst_mem := d |}%nat.

(** The body of the outer loop: the inner loop, whose bound is [height] in
    the source, then the step to the next row. *)
Definition convert_row (pSrc : mem) (src_fmt dst_fmt : pxfmt_sized_format)
    (height : Z)
    (src_pixel_stride src_row_stride dst_pixel_stride dst_row_stride : Z)
    (y : nat) (st : conv_state) : conv_state :=
  let st :=
    for_loop (Z.to_nat height) 0
      (convert_pixel pSrc src_fmt dst_fmt src_pixel_stride dst_pixel_stride)
      st in
  {| src := src_row st + Z.to_nat src_row_stride;
     src_row := src_row st + Z.to_nat src_row_stride;
     dst := dst_row st + Z.to_nat dst_row_stride;
     dst_row := dst_row st + Z.to_nat dst_row_stride;
     intermediate := intermediate st; dst_mem := dst_mem st |}%nat.

(** Whether an object of type [t] at byte offset [addr] lies inside an
    array of [len] bytes. *)
Definition inside (t : ctype) (addr len : nat) : bool :=
  (addr + sizeof t <=? len)%nat.

(** Whether the objects that [from_intermediate<F>] reads through its
    pointer [src] lie inside an intermediate array of [len] bytes, branch
    by branch: [src[0]] and the [uint32] at [&src[1]] for
    [PXFMT_D24_UNORM_S8_UINT]; [src[m_index[0]]] and the [uint32] at
    [&src[1]] for [PXFMT_D32_FLOAT_S8_UINT]; [src[0]] to [src[3]] for a
    packed format; [src[m_index[c]]] for every component that the loop
    converts otherwise.  The pointer has the intermediate type of the
    destination format, whatever the array was declared as. *)
Definition from_intermediate_reads_inside (F : fmt_info) (len : nat) : bool :=
  let Tint := m_intermediate_type F in
  if is_D24_UNORM_S8_UINT (m_fmt F) then
    inside Tint (elem_addr Tint 0 0) len
    && inside uint32 (elem_addr Tint 0 1) len
  else if is_D32_FLOAT_S8_UINT (m_fmt F) then
    inside Tint (elem_addr Tint 0 (wrap 32 (elt (m_index F) 0))) len
    && inside uint32 (elem_addr Tint 0 1) len
  else if m_is_packed F then
    inside Tint (elem_addr Tint 0 0) len && inside Tint (elem_addr Tint 0 1) len
    && inside Tint (elem_addr Tint 0 2) len && inside Tint (elem_addr Tint 0 3) len
  else
    for_loop (Z.to_nat (m_num_components F)) 0
      (fun c ok =>
         ok && (if 0 <=? elt (m_index F) c
                then inside Tint (elem_addr Tint 0 (wrap 32 (elt (m_index F) c))) len
                else true))
      true.

(** [pxfmt_convert_pixels].  [ndebug] tells whether the file is compiled
    with [NDEBUG].  The local array [intermediate] is [double[4]], 32
    bytes, or [uint32[4]], 16 bytes, by the flag of the source format; its
    initial content is indeterminate in C++ and zero here.  The decoder
    writes the array with the intermediate type of the source format and
    stays inside it.  The encoder reads it with the intermediate type of
    the destination format: when the array is [uint32[4]] and the
    destination format has a [double] intermediate, which the last [assert]
    excludes and [NDEBUG] lets through, the first conversion reads doubles
    that do not fit the 16 bytes, and the call is [Undefined]. *)
Definition pxfmt_convert_pixels (ndebug : bool) (pDst pSrc : mem)
    (width height : Z) (src_fmt dst_fmt : pxfmt_sized_format) : outcome :=
  match get_pxfmt_info (wrap 32 width) src_fmt,
        get_pxfmt_info (wrap 32 width) dst_fmt with
  | Some (src_pixel_stride, src_row_stride, src_needs_fp_intermediate),
    Some (dst_pixel_stride, dst_row_stride, dst_needs_fp_intermediate) =>
      assert ndebug (0 <? src_pixel_stride) pDst (
      assert ndebug (0 <? src_row_stride) pDst (
      assert ndebug (0 <? dst_pixel_stride) pDst (
      assert ndebug (0 <? dst_row_stride) pDst (
      assert ndebug
        (eqb src_needs_fp_intermediate dst_needs_fp_intermediate) pDst (
      let buffer :=
        if src_needs_fp_intermediate
        then replicate (4 * sizeof double) 0
        else replicate (4 * sizeof uint32) 0 in
      let reads_inside :=
        match pxfmt_case_statements dst_fmt with
        | Some D => from_intermediate_reads_inside D (length buffer)
        | None => true
        end in
      if (0 <? height) && negb reads_inside then Undefined else
      let st :=
        for_loop (Z.to_nat height) 0
          (convert_row pSrc src_fmt dst_fmt height
             src_pixel_stride src_row_stride dst_pixel_stride dst_row_stride)
          {| src := 0; src_row := 0; dst := 0; dst_row := 0;
             intermediate := buffer; dst_mem := pDst |}%nat in
      Returned (dst_mem st))))))
  | _, _ => Undefined
  end.

(** ** Notions the properties are stated with *)

(** [n] rounded up to the next multiple of 4. *)
Definition round_up_4 (n : Z) : Z := 4 * ((n + 3) / 4).

(** Component [c] of a format is present when the component loops reach
    it and its [m_index] is not negative. *)
Definition present (F : fmt_info) (c : nat) : bool :=
  (Z.of_nat c <? m_num_components F) && (0 <=? elt (m_index F) c).

Definition present_components (F : fmt_info) : list nat :=
  filter (fun c => present F c = true) [0; 1; 2; 3]%nat.

Definition present_masks (F : fmt_info) : list Z :=
  map (elt (m_mask F)) (present_components F).

Fixpoint pairwise_disjoint (masks : list Z) : bool :=
  match masks with
  | [] => true
  | x :: rest =>
      forallb (fun y => Z.land x y =? 0) rest && pairwise_disjoint rest
  end.

Definition mask_union (masks : list Z) : Z := fold_right Z.lor 0 masks.

(** The invariant of a packed format: the masks of its present components
    are pairwise disjoint and their union fits the storage scalar. *)
Definition packed_masks_ok (F : fmt_info) : bool :=
  pairwise_disjoint (present_masks F)
  && (mask_union (present_masks F) <? 2 ^ bitsof (m_formatted_type F)).

Definition is_RGB565_UINT (f : pxfmt_sized_format) : bool :=
  match f with
  | PXFMT_RGB565_UINT | PXFMT_RGB565REV_UINT => true
  | _ => false
  end.

(** The value [from_int_comp_packed] assigns to [*dst], before the
    assignment cuts it to the formatted type. *)
Definition packed_value (F : fmt_info) (src : mem) : Z :=
  Z.lor (Z.lor (Z.lor (packed_term F src 0) (packed_term F src 1))
           (packed_term F src 2))
    (packed_term F src 3).

(** The union of the four masks of a descriptor. *)
Definition all_masks (F : fmt_info) : Z :=
  Z.lor (Z.lor (Z.lor (elt (m_mask F) 0) (elt (m_mask F) 1)) (elt (m_mask F) 2))
    (elt (m_mask F) 3).

(** The dividend of a normalized component: the source scalar after its
    cast to [uint32] (and, for a packed format, after mask and shift), as
    [to_int_comp_packed] and [to_int_comp_norm_unpacked] compute it. *)
Definition normalized_raw (F : fmt_info) (src : mem) (psrc c : nat) : Z :=
  let Tsrc := m_formatted_type F in
  if m_is_packed F
  then Z.shiftr (Z.land (to_uint32 (load Tsrc src psrc)) (elt (m_mask F) c))
         (elt (m_shift F) c)
  else to_uint32 (load Tsrc src (elem_addr Tsrc psrc (Z.of_nat c))).

(** A floating value that is not a NaN and whose sign bit is clear. *)
Definition SF_nonneg (x : spec_float) : bool :=
  match x with
  | S754_zero false | S754_infinity false | S754_finite false _ _ => true
  | _ => false
  end.

(** Slot [s] of the intermediate is the target of a present component. *)
Definition slot_present (F : fmt_info) (s : Z) : bool :=
  existsb (fun c => elt (m_index F) c =? s) (present_components F).

(** An 8-bit unsigned normalized format whose components are not packed
    ([R8], [G8], [B8], [A8], [RG8], [RGB8] and [D8], all [UNORM]). *)
Definition unorm8_unpacked (F : fmt_info) : bool :=
  match m_formatted_type F with uint8 => true | _ => false end
  && m_is_normalized F && negb (m_is_signed F) && negb (m_is_packed F).

(** What the round trip of one such component computes from the stored
    byte [v]: [v / 255.0] written to and read from a [double] slot, times
    [255.0], assigned to a [uint8]. *)
Definition unorm8_there_and_back (v : Z) : Z :=
  wrap 8
    (fp_to_int uint8
       (dmul
          (bits_to_SF prec64 emax64
             (SF_to_bits prec64 emax64 (ddiv (Z_to_double v) (Z_to_double 255))
              mod 256 ^ 8))
          (Z_to_double 255)))
  mod 256.

(** 2^-16 as a [double]. *)
Definition two_pow_minus_16 : spec_float := ddiv d_one (Z_to_double 65536).

(** The value a present component of a source pixel decodes to, before it
    is assigned to its intermediate slot: the right-hand sides of the
    assignments in [to_int_comp_packed], [to_int_comp_norm_unpacked] and
    [to_int_comp_copy]. *)
Definition decoded_value (F : fmt_info) (src : mem) (psrc c : nat) : cvalue :=
  let Tsrc := m_formatted_type F in
  if m_is_packed F then
    let field :=
      Z.shiftr (Z.land (to_uint32 (load Tsrc src psrc)) (elt (m_mask F) c))
        (elt (m_shift F) c) in
    if m_is_normalized F
    then Vfp (ddiv (Z_to_double field) (Z_to_double (elt (m_max F) c)))
    else Vint field
  else if m_is_normalized F then
    Vfp (ddiv
           (Z_to_double
              (to_uint32 (load Tsrc src (elem_addr Tsrc psrc (Z.of_nat c)))))
           (Z_to_double (elt (m_max F) c)))
  else load Tsrc src (elem_addr Tsrc psrc (Z.of_nat c)).

(** A value of type [t] written to an object of that type and read back. *)
Definition through_object (t : ctype) (v : cvalue) : cvalue :=
  decode t (encode t v mod 256 ^ Z.of_nat (sizeof t)).

(** The value the unpacked encoder assigns to [dst[c]], from the content
    [x] of the component's intermediate slot. *)
Definition encoded_value (F : fmt_info) (x : cvalue) (c : nat) : cvalue :=
  let Tint := m_intermediate_type F in
  if m_is_normalized F
  then convert Tint (Vfp (dmul (to_double x) (Z_to_double (elt (m_max F) c))))
  else convert Tint x.

(** Two buffers of one length that agree outside [[lo, hi)]. *)
Definition agree_except (lo hi : nat) (m m' : mem) : Prop :=
  length m = length m'
  /\ forall i, (i < lo \/ hi <= i)%nat -> m !! i = m' !! i.

(** The integer types among the scalar types. *)
Definition is_integer_type (t : ctype) : bool :=
  match t with float | double => false | _ => true end.

(** An unpacked format whose components come back as they were stored
    when a pixel is decoded and encoded again: the formats that store
    integers and have a [uint32] intermediate ([UINT], [SINT] and the
    integer stencil indices), and the 8-bit unsigned normalized ones. *)
Definition unpacked_exact (F : fmt_info) : bool :=
  negb (m_is_packed F)
  && (negb (m_needs_fp_intermediate F) && is_integer_type (m_formatted_type F)
      || unorm8_unpacked F).

(** What the round trip of a normalized field computes from the field [v]
    of a component with maximum [mx]: [v / mx] written to and read from a
    [double] slot, times [mx], cast to [uint32]. *)
Definition norm_there_and_back (mx v : Z) : Z :=
  to_uint32
    (Vfp (dmul
            (bits_to_SF prec64 emax64
               (SF_to_bits prec64 emax64 (ddiv (Z_to_double v) (Z_to_double mx))
                mod 256 ^ 8))
            (Z_to_double mx))).

(** The maxima of the components of the packed formats: 1, 2, 3, 4, 5, 6,
    8 and 10 bits, and 7 for the signed 8-bit fields. *)
Definition packed_maxima : list Z := [1; 3; 7; 15; 31; 63; 127; 255; 1023].

(** The storage scalar of the pixel at [psrc], cast to [uint32]. *)
Definition packed_raw (F : fmt_info) (src : mem) (psrc : nat) : Z :=
  to_uint32 (load (m_formatted_type F) src psrc).

(** The pixels the converter visits, in the order of its loops, as
    (row, column) pairs. *)
Definition pixel_grid (rows cols : nat) : list (nat * nat) :=
  flat_map (fun y => map (pair y) (seq 0 cols)) (seq 0 rows).

(** One pixel converted on its own, through a fresh intermediate array
    [buffer]: the source pixel of row [y] and column [x] is at
    [y * src_row_stride + x * src_pixel_stride], the destination pixel at
    [y * dst_row_stride + x * dst_pixel_stride]. *)
Definition convert_one (pSrc : mem) (src_fmt dst_fmt : pxfmt_sized_format)
    (buffer : mem)
    (src_pixel_stride src_row_stride dst_pixel_stride dst_row_stride : nat)
    (d : mem) (yx : nat * nat) : mem :=
  from_intermediate d (fst yx * dst_row_stride + snd yx * dst_pixel_stride)
    (to_intermediate buffer pSrc
       (fst yx * src_row_stride + snd yx * src_pixel_stride) src_fmt)
    dst_fmt.

(** The offsets of the scalars of a pixel from its first byte: the one
    scalar of a packed pixel, the present components of an unpacked one. *)
Definition scalar_offsets (F : fmt_info) : list nat :=
  if m_is_packed F then [0%nat]
  else map (fun c => (c * sizeof (m_formatted_type F))%nat)
         (present_components F).

(** The pixel at [p1] of [m1] holds the scalars of the pixel at [p2] of
    [m2]. *)
Definition same_pixel (F : fmt_info) (m1 : mem) (p1 : nat) (m2 : mem) (p2 : nat)
  : Prop :=
  forall off, In off (scalar_offsets F) ->
    load (m_formatted_type F) m1 (p1 + off)
    = load (m_formatted_type F) m2 (p2 + off).

(** The formats whose pixels come back as they were, byte for byte, when
    decoded and encoded again: the unsigned packed formats whose storage
    scalar is the whole pixel, and the exact unpacked ones.
    [PXFMT_RGB565_UINT] and [PXFMT_RGB565REV_UINT] are not among them:
    their storage scalar is one byte of a pixel of two. *)
Definition pixel_exact (F : fmt_info) : bool :=
  if m_is_packed F
  then negb (m_is_signed F)
       && (Z.of_nat (sizeof (m_formatted_type F)) =? m_bytes_per_pixel F)
  else unpacked_exact F.

(** A buffer that holds bytes. *)
Definition byte_buffer (m : mem) : Prop := Forall (fun b => 0 <= b < 256) m.

(** The component of a source format that fills slot [s] of the
    intermediate array, if there is one. *)
Definition source_component (F : fmt_info) (s : Z) : option nat :=
  List.find (fun c => elt (m_index F) c =? s) (present_components F).

(** What component [c] of a destination format receives when no source
    component fills its slot: 0, or for alpha (slot 3) the integer 1 or the
    normalized 1.0, which is the component's maximum. *)
Definition default_component (F : fmt_info) (c : nat) : Z :=
  if elt (m_index F) c =? 3
  then (if m_is_normalized F then elt (m_max F) c else 1)
  else 0.

(** The formats the inner [switch] of a layout can return (for
    [GL_RGBA_INTEGER], those of the [switch] it runs on into as well). *)
Definition layout_results (format : Z) : list pxfmt_sized_format :=
  map snd
    (if format =? GL_RED then cases_GL_RED
     else if format =? GL_GREEN then cases_GL_GREEN
     else if format =? GL_BLUE then cases_GL_BLUE
     else if format =? GL_ALPHA then cases_GL_ALPHA
     else if format =? GL_RG then cases_GL_RG
     else if format =? GL_RGB then cases_GL_RGB
     else if format =? GL_RGBA then cases_GL_RGBA
     else if format =? GL_BGRA then cases_GL_BGRA
     else if format =? GL_RED_INTEGER then cases_GL_RED_INTEGER
     else if format =? GL_GREEN_INTEGER then cases_GL_GREEN_INTEGER
     else if format =? GL_BLUE_INTEGER then cases_GL_BLUE_INTEGER
     else if format =? GL_ALPHA_INTEGER then cases_GL_ALPHA_INTEGER
     else if format =? GL_RG_INTEGER then cases_GL_RG_INTEGER
     else if format =? GL_RGB_INTEGER then cases_GL_RGB_INTEGER
     else if format =? GL_RGBA_INTEGER
     then cases_GL_RGBA_INTEGER ++ cases_GL_BGRA_INTEGER
     else if format =? GL_BGRA_INTEGER then cases_GL_BGRA_INTEGER
     else if format =? GL_DEPTH_COMPONENT then cases_GL_DEPTH_COMPONENT
     else if format =? GL_STENCIL_INDEX then cases_GL_STENCIL_INDEX
     else if format =? GL_DEPTH_STENCIL then cases_GL_DEPTH_STENCIL
     else []).

(** Two descriptors with the same number of components, the same kind of
    intermediate and the same intermediate slots filled. *)
Definition same_components (F1 F2 : fmt_info) : bool :=
  (m_num_components F1 =? m_num_components F2)
  && eqb (m_needs_fp_intermediate F1) (m_needs_fp_intermediate F2)
  && forallb (fun s => eqb (slot_present F1 s) (slot_present F2 s)) [0; 1; 2; 3].

(** The same for two formats, through their descriptors. *)
Definition same_components_fmt (r1 r2 : pxfmt_sized_format) : bool :=
  match pxfmt_per_fmt_info r1, pxfmt_per_fmt_info r2 with
  | Some F1, Some F2 => same_components F1 F2
  | _, _ => false
  end.

(** Equality of two floating values as data (same sign, significand and
    exponent). *)
Definition sf_eqb (x y : spec_float) : bool :=
  match x, y with
  | S754_zero s, S754_zero s' => eqb s s'
  | S754_infinity s, S754_infinity s' => eqb s s'
  | S754_nan, S754_nan => true
  | S754_finite s m e, S754_finite s' m' e' =>
      eqb s s' && (m =? m')%positive && (e =? e')
  | _, _ => false
  end.

(** The quotient [v / mx] of a normalized field is kept as it is by a
    [double] slot, and lies between 0.0 and 1.0. *)
Definition unit_quotient (mx v : Z) : bool :=
  let q := ddiv (Z_to_double v) (Z_to_double mx) in
  sf_eqb (bits_to_SF prec64 emax64 (SF_to_bits prec64 emax64 q mod 256 ^ 8)) q
  && SFleb d_zero q && SFleb q d_one.

(** The formats the conversion properties cover: the packed formats and
    the exact unpacked ones. *)
Definition exact_family (F : fmt_info) : bool :=
  m_is_packed F || unpacked_exact F.

(** The product the encoder of a normalized component truncates, for a
    source field [v] with maximum [mx] and a destination component with
    maximum [mx']: [v / mx], written to and read from a [double] slot,
    times [mx']. *)
Definition norm_product (mx mx' v : Z) : spec_float :=
  dmul
    (bits_to_SF prec64 emax64
       (SF_to_bits prec64 emax64 (ddiv (Z_to_double v) (Z_to_double mx))
        mod 256 ^ 8))
    (Z_to_double mx').

(** The value that component [c] of a destination format [D] receives
    from a pixel of a source format [S] of the same kind.  With the source
    component that fills the same intermediate slot: its scalar or field
    as a [uint32], which for normalized formats is scaled from the
    source's maximum to the destination's and rounded down.  Without one:
    the default. *)
Definition converted_field (S D : fmt_info) (src : mem) (psrc c : nat) : Z :=
  match source_component S (elt (m_index D) c) with
  | Some c' =>
      if m_is_normalized D
      then normalized_raw S src psrc c' * elt (m_max D) c / elt (m_max S) c'
      else normalized_raw S src psrc c'
  | None => default_component D c
  end.

(** * Properties *)

(** ** The format identifier *)

Lemma switch_type_None (type : Z) (cases : list (Z * pxfmt_sized_format)) :
  switch_type type cases = None <-> mem_Z type (map fst cases) = false.
Proof.
  induction cases as [|[label r] rest IH]; simpl.
  - split; reflexivity.
  - destruct (type =? label); simpl.
    + split; discriminate.
    + exact IH.
Qed.

Lemma switch_type_Some (type : Z) (cases : list (Z * pxfmt_sized_format))
    (r : pxfmt_sized_format) :
  switch_type type cases = Some r -> In r (map snd cases).
Proof.
  induction cases as [|[label r'] rest IH]; simpl.
  - discriminate.
  - destruct (type =? label).
    + intros [= ->]. now left.
    + intros H. right. now apply IH.
Qed.

(** What one inner [switch] followed by [break] contributes: it yields a
    format other than [PXFMT_INVALID] exactly on its case labels, provided
    no case returns [PXFMT_INVALID]. *)
Lemma switch_type_valid (type : Z) (cases : list (Z * pxfmt_sized_format)) :
  ~ In PXFMT_INVALID (map snd cases) ->
  (default PXFMT_INVALID (switch_type type cases) = PXFMT_INVALID
   <-> mem_Z type (map fst cases) = false).
Proof.
  intros Hvalid. rewrite <- switch_type_None.
  destruct (switch_type type cases) as [r|] eqn:E; simpl.
  - split; [|discriminate]. intros ->.
    apply switch_type_Some in E. contradiction.
  - split; reflexivity.
Qed.

Lemma no_invalid_by_computation (l : list pxfmt_sized_format) :
  forallb (fun r => match r with PXFMT_INVALID => false | _ => true end) l = true ->
  ~ In PXFMT_INVALID l.
Proof.
  rewrite forallb_forall. intros H Hin. specialize (H _ Hin). discriminate.
Qed.

(** A layout the outer [switch] knows and leaves by [break]. *)
Ltac known_layout type cs :=
  match goal with
  | |- validate_format_type_combo ?f type = _ <-> _ =>
      change (validate_format_type_combo f type)
        with (default PXFMT_INVALID (switch_type type cs));
      change (supported f type) with (mem_Z type (map fst cs));
      apply switch_type_valid; apply no_invalid_by_computation; reflexivity
  end.

(** C3. The identifier is a function defined on every pair of [GLenum]
    values (so it is total and deterministic); it returns
    [PXFMT_INVALID] exactly on the pairs outside the supported ones, never
    a valid format there; and the pair (depth layout, packed 5-6-5) is such
    a pair. *)
Theorem validate_format_type_combo_unsupported :
  forall format type : Z,
    (exists r, validate_format_type_combo format type = r /\
               forall r', validate_format_type_combo format type = r' -> r' = r)
    /\ (validate_format_type_combo format type = PXFMT_INVALID
        <-> supported format type = false)
    /\ validate_format_type_combo GL_DEPTH_COMPONENT GL_UNSIGNED_SHORT_5_6_5
       = PXFMT_INVALID.
Proof.
  intros format type. split; [|split].
  - eexists. split; [reflexivity|]. intros r' <-. reflexivity.
  - destruct (Z.eqb_spec format GL_RED) as [->|?]; [known_layout type cases_GL_RED|].
    destruct (Z.eqb_spec format GL_GREEN) as [->|?]; [known_layout type cases_GL_GREEN|].
    destruct (Z.eqb_spec format GL_BLUE) as [->|?]; [known_layout type cases_GL_BLUE|].
    destruct (Z.eqb_spec format GL_ALPHA) as [->|?]; [known_layout type cases_GL_ALPHA|].
    destruct (Z.eqb_spec format GL_RG) as [->|?]; [known_layout type cases_GL_RG|].
    destruct (Z.eqb_spec format GL_RGB) as [->|?]; [known_layout type cases_GL_RGB|].
    destruct (Z.eqb_spec format GL_RGBA) as [->|?]; [known_layout type cases_GL_RGBA|].
    destruct (Z.eqb_spec format GL_BGRA) as [->|?]; [known_layout type cases_GL_BGRA|].
    destruct (Z.eqb_spec format GL_RED_INTEGER) as [->|?];
      [known_layout type cases_GL_RED_INTEGER|].
    destruct (Z.eqb_spec format GL_GREEN_INTEGER) as [->|?];
      [known_layout type cases_GL_GREEN_INTEGER|].
    destruct (Z.eqb_spec format GL_BLUE_INTEGER) as [->|?];
      [known_layout type cases_GL_BLUE_INTEGER|].
    destruct (Z.eqb_spec format GL_ALPHA_INTEGER) as [->|?];
      [known_layout type cases_GL_ALPHA_INTEGER|].
    destruct (Z.eqb_spec format GL_RG_INTEGER) as [->|?];
      [known_layout type cases_GL_RG_INTEGER|].
    destruct (Z.eqb_spec format GL_RGB_INTEGER) as [->|?];
      [known_layout type cases_GL_RGB_INTEGER|].
    destruct (Z.eqb_spec format GL_RGBA_INTEGER) as [->|?].
    { (* the inner switch does not return: control runs on into
         [case GL_BGRA_INTEGER], whose labels are the same *)
      change (validate_format_type_combo GL_RGBA_INTEGER type)
        with (match switch_type type cases_GL_RGBA_INTEGER with
              | Some r => r
              | None => default PXFMT_INVALID (switch_type type cases_GL_BGRA_INTEGER)
              end).
      change (supported GL_RGBA_INTEGER type)
        with (mem_Z type (map fst cases_GL_RGBA_INTEGER)).
      destruct (switch_type type cases_GL_RGBA_INTEGER) as [r|] eqn:E.
      - rewrite <- (switch_type_valid type cases_GL_RGBA_INTEGER)
          by (apply no_invalid_by_computation; reflexivity).
        rewrite E. reflexivity.
      - change (map fst cases_GL_RGBA_INTEGER) with (map fst cases_GL_BGRA_INTEGER).
        apply switch_type_valid. apply no_invalid_by_computation; reflexivity. }
    destruct (Z.eqb_spec format GL_BGRA_INTEGER) as [->|?];
      [known_layout type cases_GL_BGRA_INTEGER|].
    destruct (Z.eqb_spec format GL_DEPTH_COMPONENT) as [->|?];
      [known_layout type cases_GL_DEPTH_COMPONENT|].
    destruct (Z.eqb_spec format GL_STENCIL_INDEX) as [->|?];
      [known_layout type cases_GL_STENCIL_INDEX|].
    destruct (Z.eqb_spec format GL_DEPTH_STENCIL) as [->|?];
      [known_layout type cases_GL_DEPTH_STENCIL|].
    unfold validate_format_type_combo, supported, supported_types, mem_Z.
    simpl existsb.
    repeat match goal with
    | H : format <> ?c |- _ => rewrite (proj2 (Z.eqb_neq format c) H); clear H
    end.
    split; reflexivity.
  - reflexivity.
Qed.

(** ** Fixed-width integers *)

Lemma wrap_range (w n : Z) : 0 <= w -> 0 <= wrap w n < 2 ^ w.
Proof. intros Hw. unfold wrap. apply Z.mod_pos_bound. lia. Qed.

Lemma wrap_small (w n : Z) : 0 <= n < 2 ^ w -> wrap w n = n.
Proof. intros H. unfold wrap. now apply Z.mod_small. Qed.

Lemma testbit_above (w n i : Z) :
  0 <= w -> 0 <= n < 2 ^ w -> w <= i -> Z.testbit n i = false.
Proof.
  intros Hw Hn Hi. rewrite <- (Z.mod_small n (2 ^ w)) by exact Hn.
  apply Z.mod_pow2_bits_high. lia.
Qed.

(** ** Memory *)

Lemma store_le_length (n : nat) (m : mem) (a : nat) (z : Z) :
  length (store_le m a n z) = length m.
Proof.
  revert m a z. induction n as [|n IH]; intros m a z; simpl.
  - reflexivity.
  - rewrite IH. apply length_insert.
Qed.

(** A store of [n] bytes at [a] leaves every other byte as it is. *)
Lemma store_le_other (n : nat) (m : mem) (a : nat) (z : Z) (i : nat) :
  (i < a \/ a + n <= i)%nat -> store_le m a n z !! i = m !! i.
Proof.
  revert m a z. induction n as [|n IH]; intros m a z Hi; simpl.
  - reflexivity.
  - rewrite IH by lia. apply list_lookup_insert_ne. lia.
Qed.

Lemma load_le_ext (n : nat) (m m' : mem) (a : nat) :
  (forall i, (a <= i < a + n)%nat -> m !! i = m' !! i) ->
  load_le m a n = load_le m' a n.
Proof.
  revert a. induction n as [|n IH]; intros a H; simpl.
  - reflexivity.
  - unfold load_byte. rewrite (H a) by lia. rewrite (IH (S a)); [reflexivity|].
    intros i Hi. apply H. lia.
Qed.

Lemma load_le_store_le (n : nat) (m : mem) (a : nat) (z : Z) :
  (a + n <= length m)%nat ->
  load_le (store_le m a n z) a n = z mod 256 ^ Z.of_nat n.
Proof.
  revert m a z. induction n as [|n IH]; intros m a z Hlen.
  - simpl. now rewrite Z.mod_1_r.
  - cbn [store_le load_le]. unfold load_byte.
    rewrite store_le_other by lia.
    rewrite list_lookup_insert_eq by lia. cbn [default].
    rewrite IH by (rewrite length_insert; lia).
    rewrite Nat2Z.inj_succ, Z.pow_succ_r by lia.
    rewrite (Z.rem_mul_r z 256 (256 ^ Z.of_nat n)) by lia. reflexivity.
Qed.


Lemma store_other (t : ctype) (m : mem) (a : nat) (v : cvalue) (i : nat) :
  (i < a \/ a + sizeof t <= i)%nat -> store t m a v !! i = m !! i.
Proof. apply store_le_other. Qed.

Lemma store_length (t : ctype) (m : mem) (a : nat) (v : cvalue) :
  length (store t m a v) = length m.
Proof. apply store_le_length. Qed.

Lemma load_ext (t : ctype) (m m' : mem) (a : nat) :
  (forall i, (a <= i < a + sizeof t)%nat -> m !! i = m' !! i) ->
  load t m a = load t m' a.
Proof. intros H. unfold load. now rewrite (load_le_ext _ m m'). Qed.

(** Reading back what was just stored: the object representation, cut to
    the size of the type, decoded. *)
Lemma load_store (t : ctype) (m : mem) (a : nat) (v : cvalue) :
  (a + sizeof t <= length m)%nat ->
  load t (store t m a v) a = decode t (encode t v mod 256 ^ Z.of_nat (sizeof t)).
Proof. intros H. unfold load, store. now rewrite load_le_store_le. Qed.

(** ** Strides *)

(** Clearing the low two bits of a [uint32]. *)
Lemma land_FFFFFFFC (x : Z) :
  0 <= x < 2 ^ 32 -> Z.land x 0xFFFFFFFC = 4 * (x / 4).
Proof.
  intros Hx. apply Z.bits_inj'. intros i Hi.
  rewrite Z.land_spec.
  change 4 with (2 ^ 2) at 1. rewrite Z.mul_comm, <- Z.shiftl_mul_pow2 by lia.
  change 4 with (2 ^ 2). rewrite <- Z.shiftr_div_pow2 by lia.
  change 0xFFFFFFFC with (Z.shiftl (Z.ones 30) 2).
  destruct (Z.ltb_spec i 2) as [Hlt|Hge].
  - rewrite !Z.shiftl_spec_low by lia. apply andb_false_r.
  - rewrite !Z.shiftl_spec by lia. rewrite Z.shiftr_spec by lia.
    replace (i - 2 + 2) with i by lia.
    destruct (Z.ltb_spec i 32) as [Hlt|Hge'].
    + rewrite Z.ones_spec_low by lia. apply andb_true_r.
    + rewrite Z.ones_spec_high by lia.
      rewrite (testbit_above 32 x i) by lia. reflexivity.
Qed.

(** C7 (as amended). As long as the stride computation does not leave the
    range of a [uint32], the row stride is [bytes_per_pixel * width]
    rounded up to the next multiple of 4, which is that number plus 3 with
    its low two bits cleared, and the pixel stride is the descriptor's
    [bytes_per_pixel]. *)
Theorem get_pxfmt_info_strides (fmt : pxfmt_sized_format) (F : fmt_info)
    (width : Z) :
  pxfmt_per_fmt_info fmt = Some F ->
  0 <= width ->
  m_bytes_per_pixel F * width + 3 < 2 ^ 32 ->
  get_pxfmt_info (wrap 32 width) fmt
  = Some (m_bytes_per_pixel F,
          round_up_4 (m_bytes_per_pixel F * width),
          m_needs_fp_intermediate F)
  /\ round_up_4 (m_bytes_per_pixel F * width)
     = Z.land (m_bytes_per_pixel F * width + 3) 0xFFFFFFFC.
Proof.
  intros HF Hw Hfit.
  assert (Hbpp : 1 <= m_bytes_per_pixel F).
  { destruct fmt; inversion HF; subst F; vm_compute; discriminate. }
  assert (Hwidth : width < 2 ^ 32) by nia.
  assert (Hprod : 0 <= m_bytes_per_pixel F * width) by nia.
  unfold round_up_4.
  rewrite <- land_FFFFFFFC by lia.
  split; [|reflexivity].
  unfold get_pxfmt_info, pxfmt_case_statements. rewrite HF. unfold get_pxfmt_info_F.
  rewrite (wrap_small 32 width) by lia.
  rewrite (wrap_small 32 (m_bytes_per_pixel F * width)) by lia.
  rewrite (wrap_small 32 (m_bytes_per_pixel F * width + 3)) by lia.
  reflexivity.
Qed.

(** ** The descriptors of packed formats *)

(** Every packed format but the two [RGB565 ... UINT] rows satisfies the
    invariant; those two rows name [uint8] as formatted type while their
    masks cover 16 bits. *)
Lemma packed_masks_ok_table (fmt : pxfmt_sized_format) (F : fmt_info) :
  pxfmt_per_fmt_info fmt = Some F ->
  m_is_packed F = true ->
  packed_masks_ok F = negb (is_RGB565_UINT fmt).
Proof.
  intros HF. destruct fmt; inversion HF; subst F; clear HF;
    intros Hp; try discriminate Hp; vm_compute; reflexivity.
Qed.

(** C8 (the code at the failing input). [PXFMT_RGB565_UINT] is packed, its
    storage scalar is a [uint8], and the masks of its three present
    components are [0xF800], [0x07E0] and [0x001F]: disjoint, but their
    union [0xFFFF] does not fit 8 bits. *)
Theorem rgb565_uint_masks_exceed_storage :
  exists F,
    pxfmt_per_fmt_info PXFMT_RGB565_UINT = Some F
    /\ m_is_packed F = true
    /\ m_formatted_type F = uint8
    /\ present_masks F = [0xF800; 0x07E0; 0x001F]
    /\ pairwise_disjoint (present_masks F) = true
    /\ mask_union (present_masks F) = 0xFFFF
    /\ (mask_union (present_masks F) <? 2 ^ bitsof (m_formatted_type F)) = false
    /\ packed_masks_ok F = false.
Proof. eexists. repeat split. Qed.

(** ** The packed encoder *)

Lemma packed_formats_unsigned_storage (fmt : pxfmt_sized_format) (F : fmt_info) :
  pxfmt_per_fmt_info fmt = Some F ->
  m_is_packed F = true ->
  m_formatted_type F = uint8 \/ m_formatted_type F = uint16
  \/ m_formatted_type F = uint32.
Proof.
  intros HF. destruct fmt; inversion HF; subst F; clear HF;
    intros Hp; try discriminate Hp; cbn; tauto.
Qed.

(** An unsigned integer object holds the stored value cut to its width. *)
Lemma load_store_unsigned (t : ctype) (m : mem) (a : nat) (n : Z) :
  t = uint8 \/ t = uint16 \/ t = uint32 ->
  (a + sizeof t <= length m)%nat ->
  load t (store t m a (Vint n)) a = Vint (wrap (bitsof t) n).
Proof.
  intros Ht Hlen. rewrite load_store by exact Hlen.
  destruct Ht as [-> | [-> | ->]]; unfold decode, encode, convert, int_repr, wrap;
    cbn [is_signed_int];
    [ change (256 ^ Z.of_nat (sizeof uint8)) with (2 ^ bitsof uint8)
    | change (256 ^ Z.of_nat (sizeof uint16)) with (2 ^ bitsof uint16)
    | change (256 ^ Z.of_nat (sizeof uint32)) with (2 ^ bitsof uint32) ];
    rewrite !Z.mod_mod by (vm_compute; discriminate); reflexivity.
Qed.

Lemma packed_term_confined (F : fmt_info) (src : mem) (i : nat) (n : Z) :
  Z.testbit (elt (m_mask F) i) n = false ->
  Z.testbit (packed_term F src i) n = false.
Proof.
  intros H. unfold packed_term. rewrite Z.land_spec, H. apply andb_false_r.
Qed.

Lemma packed_formats_not_depth_stencil (fmt : pxfmt_sized_format)
    (F : fmt_info) :
  pxfmt_per_fmt_info fmt = Some F ->
  m_is_packed F = true ->
  is_D24_UNORM_S8_UINT (m_fmt F) = false
  /\ is_D32_FLOAT_S8_UINT (m_fmt F) = false.
Proof.
  intros HF. destruct fmt; inversion HF; subst F; clear HF;
    intros Hp; try discriminate Hp; split; reflexivity.
Qed.

(** C10. For a packed format and any content of the intermediate array,
    encoding is one assignment of [from_int_comp_packed]; the scalar it
    writes is the OR of the four components' terms cut to the storage
    width; each term has no bit outside its component's mask, and the
    written scalar has no bit outside the union of the four masks. *)
Theorem from_int_comp_packed_confined (fmt : pxfmt_sized_format) (F : fmt_info)
    (dst : mem) (pdst : nat) (src : mem) :
  pxfmt_per_fmt_info fmt = Some F ->
  m_is_packed F = true ->
  (pdst + sizeof (m_formatted_type F) <= length dst)%nat ->
  from_intermediate dst pdst src fmt = from_int_comp_packed F dst pdst src
  /\ exists written : Z,
      load (m_formatted_type F) (from_int_comp_packed F dst pdst src) pdst
      = Vint written
      /\ written = wrap (bitsof (m_formatted_type F)) (packed_value F src)
      /\ (forall i n, Z.testbit (elt (m_mask F) i) n = false ->
                      Z.testbit (packed_term F src i) n = false)
      /\ (forall n, Z.testbit (all_masks F) n = false ->
                    Z.testbit written n = false).
Proof.
  intros HF Hp Hlen. split.
  { unfold from_intermediate, pxfmt_case_statements. rewrite HF. unfold from_intermediate_F.
    destruct (packed_formats_not_depth_stencil fmt F HF Hp) as [-> ->].
    now rewrite Hp. }
  exists (wrap (bitsof (m_formatted_type F)) (packed_value F src)).
  split; [|split; [reflexivity|split]].
  - unfold from_int_comp_packed. fold (packed_value F src).
    apply load_store_unsigned; [|exact Hlen].
    exact (packed_formats_unsigned_storage fmt F HF Hp).
  - intros i n. apply packed_term_confined.
  - intros n Hn. unfold all_masks in Hn. rewrite !Z.lor_spec in Hn.
    apply orb_false_elim in Hn as [Hn H3].
    apply orb_false_elim in Hn as [Hn H2].
    apply orb_false_elim in Hn as [H0 H1].
    assert (Hv : Z.testbit (packed_value F src) n = false).
    { unfold packed_value. rewrite !Z.lor_spec.
      rewrite !packed_term_confined by assumption. reflexivity. }
    unfold wrap.
    assert (Hbits : 0 <= bitsof (m_formatted_type F))
      by (unfold bitsof; lia).
    destruct (Z.lt_ge_cases n (bitsof (m_formatted_type F))) as [Hlt|Hge].
    + destruct (Z.lt_ge_cases n 0) as [Hneg|Hnn].
      * apply Z.testbit_neg_r. exact Hneg.
      * rewrite Z.mod_pow2_bits_low by lia. exact Hv.
    + apply Z.mod_pow2_bits_high. lia.
Qed.

(** ** Signs of binary64 results *)

Lemma shr_1_nonneg (mrs : shr_record) :
  0 <= shr_m mrs -> 0 <= shr_m (shr_1 mrs).
Proof.
  destruct mrs as [m r s]. destruct m as [|p|p]; simpl; intros H;
    try lia; destruct p; simpl; lia.
Qed.

Lemma iter_shr_1_nonneg (p : positive) (mrs : shr_record) :
  0 <= shr_m mrs -> 0 <= shr_m (SpecFloat.iter_pos shr_1 p mrs).
Proof.
  revert mrs. induction p as [p IH|p IH|]; intros mrs H; simpl.
  - apply IH, IH, shr_1_nonneg, H.
  - apply IH, IH, H.
  - apply shr_1_nonneg, H.
Qed.

Lemma shr_fexp_nonneg (prec emax m e : Z) (l : location) :
  0 <= m -> 0 <= shr_m (fst (shr_fexp prec emax m e l)).
Proof.
  intros H. unfold shr_fexp, shr.
  assert (H0 : 0 <= shr_m (shr_record_of_loc m l))
    by (destruct l as [|[| |]]; exact H).
  destruct (fexp prec emax (Zdigits2 m + e) - e) as [|p|p]; simpl;
    [exact H0 | apply iter_shr_1_nonneg, H0 | exact H0].
Qed.

Lemma round_nearest_even_nonneg (m : Z) (l : location) :
  0 <= m -> 0 <= round_nearest_even m l.
Proof.
  intros H. destruct l as [|[| |]]; simpl; try lia.
  destruct (Z.even m); lia.
Qed.

(** Rounding a non-negative significand gives a result of the requested
    sign: never a NaN, never the other sign. *)
Lemma binary_round_aux_sign (prec emax : Z) (mx ex : Z) (lx : location) :
  0 <= mx ->
  SF_nonneg (binary_round_aux prec emax false mx ex lx) = true.
Proof.
  intros H. unfold binary_round_aux.
  pose proof (shr_fexp_nonneg prec emax mx ex lx H) as H1.
  destruct (shr_fexp prec emax mx ex lx) as [mrs' e'] eqn:E1. simpl in H1.
  pose proof (shr_fexp_nonneg prec emax
                (round_nearest_even (shr_m mrs') (loc_of_shr_record mrs')) e'
                loc_Exact (round_nearest_even_nonneg _ _ H1)) as H2.
  destruct (shr_fexp prec emax (round_nearest_even _ _) e' loc_Exact)
    as [mrs'' e''] eqn:E2. simpl in H2.
  destruct (shr_m mrs'') as [|m|m]; [reflexivity| |lia].
  destruct (e'' <=? emax - prec); reflexivity.
Qed.

Lemma Z_to_double_nonneg (n : Z) : 0 <= n -> SF_nonneg (Z_to_double n) = true.
Proof.
  intros H. unfold Z_to_double, binary_normalize.
  destruct n as [|m|m]; [reflexivity| |lia].
  unfold binary_round.
  destruct (shl_align m 0 _) as [mz ez]. apply binary_round_aux_sign. lia.
Qed.

(** A non-negative dividend over a positive finite divisor. *)
Lemma ddiv_nonneg (x : spec_float) (my : positive) (ey : Z) :
  SF_nonneg x = true -> SF_nonneg (ddiv x (S754_finite false my ey)) = true.
Proof.
  intros Hx. destruct x as [[|]|[|]| |[|] mx ex]; try discriminate Hx;
    try reflexivity.
  unfold ddiv, SFdiv. cbn [xorb].
  unfold SFdiv_core_binary.
  set (m' := match _ - _ - _ with Zpos _ => _ | Z0 => _ | Zneg _ => _ end).
  assert (Hm' : 0 <= m').
  { subst m'. destruct (_ - _ - _); [lia | apply Z.shiftl_nonneg; lia | lia]. }
  pose proof (Z.div_pos m' (Zpos my) Hm' eq_refl) as Hq.
  unfold Z.div in Hq.
  destruct (Z.div_eucl m' (Zpos my)) as [q r].
  apply binary_round_aux_sign. exact Hq.
Qed.

(** The sign bit of the binary64 encoding of such a value is clear. *)
Lemma SF_to_bits_nonneg (x : spec_float) :
  SF_nonneg x = true -> 0 <= SF_to_bits prec64 emax64 x < 2 ^ 63.
Proof.
  intros Hx. destruct x as [[|]|[|]| |[|] m e]; try discriminate Hx.
  - vm_compute. split; [discriminate | reflexivity].
  - vm_compute. split; [discriminate | reflexivity].
  - unfold SF_to_bits.
    change (prec64 - 1) with 52. change (2 * emax64) with 2048.
    pose proof (Z.mod_pos_bound (e - emin prec64 emax64 + 1) 2048 eq_refl) as He.
    pose proof (Z.mod_pos_bound (Zpos m) (2 ^ 52) eq_refl) as Hm.
    destruct (Z.ltb_spec (Zpos m) (2 ^ 52)) as [E|E];
      change (2 ^ 52) with 4503599627370496 in *;
      change (2 ^ 63) with 9223372036854775808; lia.
Qed.

(** A pattern with the sign bit clear decodes to a value that is not below
    -1.0. *)
Lemma bits_to_SF_not_below_minus_one (b : Z) :
  0 <= b < 2 ^ 63 -> dlt (bits_to_SF prec64 emax64 b) d_minus_one = false.
Proof.
  intros Hb. unfold bits_to_SF. cbv zeta.
  assert (b / (2 * emax64 * 2 ^ (prec64 - 1)) = 0) as ->
    by (apply Z.div_small; exact Hb).
  cbn [Z.odd].
  destruct (_ =? 0).
  - destruct (b mod _); reflexivity.
  - destruct (_ =? _).
    + destruct (_ =? 0); reflexivity.
    + destruct (_ + _); reflexivity.
Qed.

(** ** Decoding normalized formats *)

Lemma to_uint32_nonneg (v : cvalue) : 0 <= to_uint32 v.
Proof.
  assert (Hw : forall n, 0 <= int_repr uint32 n)
    by (intros n; apply (wrap_range 32 n); lia).
  unfold to_uint32. destruct v as [n|x]; cbn [convert].
  - apply Hw.
  - unfold fp_to_int. destruct (SF_trunc x) as [n|]; [|apply Hw].
    destruct (int_in_range uint32 n) eqn:E; [|apply Hw].
    cbn in E. apply andb_true_iff in E as [E _]. now apply Z.leb_le in E.
Qed.

Lemma num_components_le_4 (fmt : pxfmt_sized_format) (F : fmt_info) :
  pxfmt_per_fmt_info fmt = Some F -> m_num_components F <= 4.
Proof.
  intros HF. destruct fmt; inversion HF; subst F; vm_compute; discriminate.
Qed.

Lemma present_lt_4 (fmt : pxfmt_sized_format) (F : fmt_info) (c : nat) :
  pxfmt_per_fmt_info fmt = Some F -> present F c = true -> (c < 4)%nat.
Proof.
  intros HF Hc. pose proof (num_components_le_4 fmt F HF).
  unfold present in Hc. apply andb_true_iff in Hc as [Hc _].
  apply Z.ltb_lt in Hc. lia.
Qed.

(** What the table says about a present component of a normalized format:
    the intermediate type is [double], the slot index is one of 0..3, and
    the maximum is a positive number. *)
Lemma normalized_component_facts (fmt : pxfmt_sized_format) (F : fmt_info)
    (c : nat) :
  pxfmt_per_fmt_info fmt = Some F ->
  m_is_normalized F = true ->
  present F c = true ->
  m_intermediate_type F = double
  /\ 0 <= elt (m_index F) c <= 3
  /\ exists m e, Z_to_double (elt (m_max F) c) = S754_finite false m e.
Proof.
  intros HF Hn Hc. pose proof (present_lt_4 fmt F c HF Hc) as Hlt.
  destruct c as [|[|[|[|c]]]]; [| | | |lia]; clear Hlt;
    destruct fmt; inversion HF; subst F; clear HF;
    try discriminate Hn; try discriminate Hc;
    (split; [reflexivity|split; [vm_compute; split; discriminate|]]);
    vm_compute; eauto.
Qed.

(** C9. For a present component of a normalized format, packed or not,
    signed or not, the value decoded into the intermediate slot is the
    quotient of two [uint32] values converted to [double], the dividend
    being the source value after its cast to [uint32] (so a negative
    stored value has become a large positive one); the quotient is never
    negative, the test of the clamp to -1.0 is false, and so the decoder
    leaves in the slot exactly that quotient. *)
Theorem normalized_decode_nonneg (fmt : pxfmt_sized_format) (F : fmt_info)
    (dst src : mem) (psrc c : nat) :
  pxfmt_per_fmt_info fmt = Some F ->
  m_is_normalized F = true ->
  present F c = true ->
  (4 * sizeof (m_intermediate_type F) <= length dst)%nat ->
  let Tint := m_intermediate_type F in
  let slot := elem_addr Tint 0 (wrap 32 (elt (m_index F) c)) in
  let raw := normalized_raw F src psrc c in
  let q := ddiv (Z_to_double raw) (Z_to_double (elt (m_max F) c)) in
  0 <= raw
  /\ SF_nonneg q = true
  /\ dlt (to_double (load Tint (store Tint dst slot (Vfp q)) slot)) d_minus_one
     = false
  /\ to_int_comp F src psrc c dst = store Tint dst slot (Vfp q).
Proof.
  intros HF Hn Hc Hlen Tint slot raw q.
  destruct (normalized_component_facts fmt F c HF Hn Hc)
    as (HT & Hidx & m & e & Hmax).
  assert (Hraw : 0 <= raw).
  { subst raw. unfold normalized_raw. destruct (m_is_packed F).
    - apply Z.shiftr_nonneg, Z.land_nonneg. left. apply to_uint32_nonneg.
    - apply to_uint32_nonneg. }
  assert (Hq : SF_nonneg q = true).
  { subst q. rewrite Hmax. apply ddiv_nonneg, Z_to_double_nonneg, Hraw. }
  assert (Hslot : (slot + sizeof Tint <= length dst)%nat).
  { subst slot Tint. unfold elem_addr. rewrite wrap_small by lia.
    rewrite HT in *. cbn [sizeof] in *. lia. }
  assert (Hclamp :
            dlt (to_double (load Tint (store Tint dst slot (Vfp q)) slot)) d_minus_one
            = false).
  { rewrite load_store by exact Hslot.
    subst Tint. rewrite HT. unfold encode, decode, to_double. cbn [convert sizeof].
    apply bits_to_SF_not_below_minus_one.
    pose proof (SF_to_bits_nonneg q Hq) as Hb.
    rewrite Z.mod_small; [exact Hb|].
    change (256 ^ Z.of_nat 8) with 18446744073709551616.
    change (2 ^ 63) with 9223372036854775808 in Hb. lia. }
  repeat split; auto.
  assert (Hpresent : (0 <=? elt (m_index F) c) = true) by (apply Z.leb_le; lia).
  unfold to_int_comp. rewrite Hpresent.
  subst q raw. unfold normalized_raw in *. revert Hclamp.
  destruct (m_is_packed F); intros Hclamp.
  - unfold to_int_comp_packed. rewrite Hn. fold Tint. fold slot.
    destruct (m_is_signed F); [|reflexivity].
    unfold clamp_to_minus_one. now rewrite Hclamp.
  - rewrite Hn. unfold to_int_comp_norm_unpacked. fold Tint. fold slot.
    destruct (m_is_signed F); [|reflexivity].
    unfold clamp_to_minus_one. now rewrite Hclamp.
Qed.

(** ** Default values of the intermediate *)

Lemma load_store_other (t t' : ctype) (m : mem) (a a' : nat) (v : cvalue) :
  (a + sizeof t <= a' \/ a' + sizeof t' <= a)%nat ->
  load t (store t' m a' v) a = load t m a.
Proof.
  intros H. apply load_ext. intros i Hi. apply store_other. lia.
Qed.

Lemma intermediate_type_cases (fmt : pxfmt_sized_format) (F : fmt_info) :
  pxfmt_per_fmt_info fmt = Some F ->
  m_intermediate_type F = double \/ m_intermediate_type F = uint32.
Proof.
  intros HF. destruct fmt; inversion HF; subst F; cbn; tauto.
Qed.

Lemma m_fmt_table (fmt : pxfmt_sized_format) (F : fmt_info) :
  pxfmt_per_fmt_info fmt = Some F -> m_fmt F = fmt.
Proof. intros HF. destruct fmt; inversion HF; subst F; reflexivity. Qed.

Lemma index_range (fmt : pxfmt_sized_format) (F : fmt_info) (c : nat) :
  pxfmt_per_fmt_info fmt = Some F -> -1 <= elt (m_index F) c <= 3.
Proof.
  intros HF.
  destruct c as [|[|[|[|c]]]];
    destruct fmt; inversion HF; subst F; vm_compute; split; discriminate.
Qed.

(** After [set_intermediate_to_defaults] the four slots hold 0, 0, 0, 1. *)
Lemma set_intermediate_to_defaults_load (fmt : pxfmt_sized_format)
    (F : fmt_info) (m : mem) (s : nat) :
  pxfmt_per_fmt_info fmt = Some F ->
  (4 * sizeof (m_intermediate_type F) <= length m)%nat ->
  (s < 4)%nat ->
  load (m_intermediate_type F) (set_intermediate_to_defaults F m)
    (elem_addr (m_intermediate_type F) 0 (Z.of_nat s))
  = convert (m_intermediate_type F) (Vint (if (s =? 3)%nat then 1 else 0)).
Proof.
  intros HF Hlen Hs. unfold set_intermediate_to_defaults.
  destruct (intermediate_type_cases fmt F HF) as [HT | HT]; rewrite HT in *;
    destruct s as [|[|[|[|s]]]]; try lia; unfold elem_addr; cbn [sizeof] in *;
    cbn [Nat.add Nat.eqb];
    repeat match goal with
    | |- context [(Z.to_nat ?z * ?k)%nat] =>
        let r := eval vm_compute in (Z.to_nat z * k)%nat in
        change (Z.to_nat z * k)%nat with r
    end;
    repeat (rewrite load_store_other by (cbn [sizeof]; lia));
    (rewrite load_store
       by (cbn [sizeof]; rewrite ?store_length; lia));
    reflexivity.
Qed.

(** A component decoder writes inside its slot only. *)
Lemma clamp_to_minus_one_other (t : ctype) (m : mem) (a i : nat) :
  (i < a \/ a + sizeof t <= i)%nat ->
  clamp_to_minus_one t m a !! i = m !! i.
Proof.
  intros H. unfold clamp_to_minus_one.
  destruct (dlt _ _); [apply store_other, H | reflexivity].
Qed.

Lemma to_int_comp_other (F : fmt_info) (src : mem) (psrc c : nat) (dst : mem)
    (i : nat) :
  let a := elem_addr (m_intermediate_type F) 0 (wrap 32 (elt (m_index F) c)) in
  (0 <= elt (m_index F) c ->
   (i < a \/ a + sizeof (m_intermediate_type F) <= i)%nat) ->
  to_int_comp F src psrc c dst !! i = dst !! i.
Proof.
  intros a H. unfold to_int_comp.
  destruct (Z.leb_spec 0 (elt (m_index F) c)) as [Hpos|]; [|reflexivity].
  specialize (H Hpos).
  destruct (m_is_packed F); [|destruct (m_is_normalized F)].
  - unfold to_int_comp_packed. fold a.
    destruct (m_is_normalized F); [destruct (m_is_signed F)|];
      rewrite ?clamp_to_minus_one_other by exact H; apply store_other, H.
  - unfold to_int_comp_norm_unpacked. fold a.
    destruct (m_is_signed F);
      rewrite ?clamp_to_minus_one_other by exact H; apply store_other, H.
  - unfold to_int_comp_copy. apply store_other, H.
Qed.

Lemma to_int_loop_other (F : fmt_info) (src : mem) (psrc : nat) (i : nat)
    (n c0 : nat) (dst : mem) :
  (forall c, (c0 <= c < c0 + n)%nat -> 0 <= elt (m_index F) c ->
     let a := elem_addr (m_intermediate_type F) 0 (wrap 32 (elt (m_index F) c)) in
     (i < a \/ a + sizeof (m_intermediate_type F) <= i)%nat) ->
  for_loop n c0 (to_int_comp F src psrc) dst !! i = dst !! i.
Proof.
  revert c0 dst. induction n as [|n IH]; intros c0 dst H; cbn [for_loop].
  - reflexivity.
  - rewrite IH by (intros c Hc; apply H; lia).
    apply to_int_comp_other. intros Hpos. apply H; [lia | exact Hpos].
Qed.

(** A slot that no present component maps to is left alone by the
    component loop. *)
Lemma absent_slot_index (fmt : pxfmt_sized_format) (F : fmt_info) (s c : nat) :
  pxfmt_per_fmt_info fmt = Some F ->
  slot_present F (Z.of_nat s) = false ->
  (c < Z.to_nat (m_num_components F))%nat ->
  0 <= elt (m_index F) c ->
  elt (m_index F) c <> Z.of_nat s.
Proof.
  intros HF Hs Hc Hpos Heq.
  pose proof (num_components_le_4 fmt F HF) as H4.
  assert (Hp : present F c = true).
  { unfold present. apply andb_true_iff. split; [apply Z.ltb_lt | apply Z.leb_le]; lia. }
  assert (Hin : In c (present_components F)).
  { unfold present_components. apply list_elem_of_In, list_elem_of_filter.
    split; [exact Hp|]. apply list_elem_of_In.
    destruct c as [|[|[|[|c]]]]; simpl; try tauto. lia. }
  unfold slot_present in Hs.
  assert (Hex : existsb (fun c => elt (m_index F) c =? Z.of_nat s)
                  (present_components F) = true).
  { apply existsb_exists. exists c. split; [exact Hin | now apply Z.eqb_eq]. }
  congruence.
Qed.

(** The decoder of a format leaves a slot that none of its present
    components maps to as [set_intermediate_to_defaults] made it. *)
Lemma to_intermediate_F_absent_slot (fmt : pxfmt_sized_format) (F : fmt_info)
    (intermediate src : mem) (psrc : nat) (s : nat) :
  pxfmt_per_fmt_info fmt = Some F ->
  (4 * sizeof (m_intermediate_type F) <= length intermediate)%nat ->
  (s < 4)%nat ->
  slot_present F (Z.of_nat s) = false ->
  load (m_intermediate_type F) (to_intermediate_F F intermediate src psrc)
    (elem_addr (m_intermediate_type F) 0 (Z.of_nat s))
  = convert (m_intermediate_type F) (Vint (if (s =? 3)%nat then 1 else 0)).
Proof.
  intros HF Hlen Hs Habs.
  rewrite <- (set_intermediate_to_defaults_load fmt F intermediate s HF Hlen Hs).
  unfold to_intermediate_F.
  set (dst0 := set_intermediate_to_defaults F intermediate).
  rewrite (m_fmt_table fmt F HF).
  destruct (is_D24_UNORM_S8_UINT fmt) eqn:E24;
    [|destruct (is_D32_FLOAT_S8_UINT fmt) eqn:E32].
  - (* depth in slot 0, stencil in the first half of slot 1 *)
    destruct fmt; try discriminate E24. inversion HF; subst F.
    destruct s as [|[|[|[|s]]]]; try discriminate Habs; try lia;
      unfold to_int_d24_unorm_s8_uint;
      rewrite !load_store_other by (vm_compute; lia); reflexivity.
  - (* depth in slot 0, stencil in the first half of slot 1 *)
    destruct fmt; try discriminate E32. inversion HF; subst F.
    destruct s as [|[|[|[|s]]]]; try discriminate Habs; try lia;
      unfold to_int_d32_float_s8_uint, to_int_comp_copy;
      rewrite !load_store_other by (vm_compute; lia); reflexivity.
  - apply load_ext. intros i Hi. apply to_int_loop_other.
    intros c Hc Hpos a.
    pose proof (absent_slot_index fmt F s c HF Habs ltac:(lia) Hpos) as Hne.
    pose proof (index_range fmt F c HF) as Hr.
    subst a. unfold elem_addr in *. rewrite wrap_small by lia.
    destruct (intermediate_type_cases fmt F HF) as [HT | HT]; rewrite HT in *;
      cbn [sizeof] in *; lia.
Qed.

(** C6. Decoding starts from the defaults 0, 0, 0, 1 and overwrites only
    the slots that a present component maps to: every other slot still
    holds its default afterwards, and so for a format without an alpha
    component the alpha slot (slot 3) of every decoded pixel holds 1
    (the [double] 1.0 or the [uint32] 1, by the intermediate type). *)
Theorem to_intermediate_default_alpha (fmt : pxfmt_sized_format) (F : fmt_info)
    (intermediate src : mem) (psrc : nat) :
  pxfmt_per_fmt_info fmt = Some F ->
  (4 * sizeof (m_intermediate_type F) <= length intermediate)%nat ->
  let Tint := m_intermediate_type F in
  let defaults := set_intermediate_to_defaults F intermediate in
  let decoded := to_intermediate intermediate src psrc fmt in
  (forall s : nat, (s < 4)%nat ->
     load Tint defaults (elem_addr Tint 0 (Z.of_nat s))
     = convert Tint (Vint (if (s =? 3)%nat then 1 else 0)))
  /\ (forall s : nat, (s < 4)%nat -> slot_present F (Z.of_nat s) = false ->
        load Tint decoded (elem_addr Tint 0 (Z.of_nat s))
        = load Tint defaults (elem_addr Tint 0 (Z.of_nat s)))
  /\ (slot_present F 3 = false ->
      load Tint decoded (elem_addr Tint 0 3)
      = match Tint with double => Vfp d_one | _ => Vint 1 end).
Proof.
  intros HF Hlen Tint defaults decoded.
  assert (Hdef : forall s : nat, (s < 4)%nat ->
            load Tint defaults (elem_addr Tint 0 (Z.of_nat s))
            = convert Tint (Vint (if (s =? 3)%nat then 1 else 0))).
  { intros s Hs. now apply (set_intermediate_to_defaults_load fmt). }
  assert (Hgen : forall s : nat, (s < 4)%nat ->
            slot_present F (Z.of_nat s) = false ->
            load Tint decoded (elem_addr Tint 0 (Z.of_nat s))
            = convert Tint (Vint (if (s =? 3)%nat then 1 else 0))).
  { intros s Hs Habs. subst decoded Tint. unfold to_intermediate, pxfmt_case_statements. rewrite HF.
    now apply (to_intermediate_F_absent_slot fmt). }
  split; [exact Hdef|split].
  - intros s Hs Habs. rewrite Hdef by exact Hs. now apply Hgen.
  - intros Habs. pose proof (Hgen 3%nat ltac:(lia) Habs) as H3.
    change (Z.of_nat 3) with 3 in H3. rewrite H3.
    subst Tint.
    destruct (intermediate_type_cases fmt F HF) as [HT | HT]; rewrite HT;
      reflexivity.
Qed.

(** ** Round trip of 8-bit normalized components *)

Lemma below_256_by_computation (P : Z -> bool) :
  forallb P (map Z.of_nat (seq 0 256)) = true ->
  forall v, 0 <= v < 256 -> P v = true.
Proof.
  intros H v Hv. rewrite forallb_forall in H. apply H.
  apply in_map_iff. exists (Z.to_nat v). split; [lia|].
  apply in_seq. lia.
Qed.

Lemma unorm8_there_and_back_id (v : Z) :
  0 <= v < 256 -> unorm8_there_and_back v = v.
Proof.
  intros Hv. apply Z.eqb_eq.
  apply (below_256_by_computation (fun v => unorm8_there_and_back v =? v));
    [vm_compute; reflexivity | exact Hv].
Qed.

Lemma unorm8_component_facts (fmt : pxfmt_sized_format) (F : fmt_info)
    (c : nat) :
  pxfmt_per_fmt_info fmt = Some F ->
  unorm8_unpacked F = true ->
  present F c = true ->
  m_formatted_type F = uint8 /\ m_intermediate_type F = double
  /\ m_is_signed F = false
  /\ elt (m_max F) c = 255 /\ 0 <= elt (m_index F) c <= 3.
Proof.
  intros HF Hu Hc. pose proof (present_lt_4 fmt F c HF Hc) as Hlt.
  destruct c as [|[|[|[|c]]]]; [| | | |lia]; clear Hlt;
    destruct fmt; inversion HF; subst F; clear HF;
    try discriminate Hu; try discriminate Hc;
    repeat split; vm_compute; discriminate.
Qed.

Lemma load_uint8 (m : mem) (a : nat) (v : Z) :
  m !! a = Some v -> 0 <= v < 256 -> load uint8 m a = Vint v.
Proof.
  intros Hm Hv. unfold load, decode. cbn [sizeof load_le]. unfold load_byte.
  rewrite Hm. cbn [default]. unfold int_repr, wrap. cbn [is_signed_int].
  rewrite Z.mul_0_r, Z.add_0_r.
  change (2 ^ bitsof uint8) with 256. now rewrite Z.mod_small.
Qed.

(** C4. For a present component of an 8-bit unsigned normalized unpacked
    format and a stored byte [v]: the decoder puts [v / 255.0] into the
    component's intermediate slot, and the encoder of the same format,
    reading that slot, multiplying by [255.0] and truncating, writes [v]
    back. *)
Theorem unorm8_round_trip (fmt : pxfmt_sized_format) (F : fmt_info)
    (intermediate src dst : mem) (psrc pdst c : nat) (v : Z) :
  pxfmt_per_fmt_info fmt = Some F ->
  unorm8_unpacked F = true ->
  present F c = true ->
  0 <= v <= 255 ->
  src !! (psrc + c)%nat = Some v ->
  (4 * sizeof double <= length intermediate)%nat ->
  (pdst + c < length dst)%nat ->
  let decoded := to_int_comp_norm_unpacked F intermediate src psrc c in
  decoded
  = store double intermediate (elem_addr double 0 (elt (m_index F) c))
      (Vfp (ddiv (Z_to_double v) (Z_to_double 255)))
  /\ from_int_comp_norm_unpacked F dst pdst decoded c !! (pdst + c)%nat = Some v.
Proof.
  intros HF Hu Hc Hv Hsrc Hlen Hdst decoded.
  destruct (unorm8_component_facts fmt F c HF Hu Hc)
    as (HTs & HTi & Hsg & Hmax & Hidx).
  assert (Hdec : decoded
            = store double intermediate (elem_addr double 0 (elt (m_index F) c))
                (Vfp (ddiv (Z_to_double v) (Z_to_double 255)))).
  { subst decoded. unfold to_int_comp_norm_unpacked.
    rewrite HTs, HTi, Hsg, Hmax. rewrite (wrap_small 32 (elt _ _)) by lia.
    unfold elem_addr at 2. cbn [sizeof]. rewrite Nat2Z.id, Nat.mul_1_r.
    rewrite (load_uint8 src _ v Hsrc) by lia.
    unfold to_uint32. cbn [convert]. unfold int_repr. cbn [is_signed_int].
    rewrite wrap_small by (change (2 ^ bitsof uint32) with 4294967296; lia).
    reflexivity. }
  split; [exact Hdec|]. rewrite Hdec.
  unfold from_int_comp_norm_unpacked.
  rewrite HTs, HTi, Hmax. rewrite (wrap_small 32 (elt _ _)) by lia.
  rewrite load_store
    by (unfold elem_addr; cbn [sizeof] in *; lia).
  unfold elem_addr at 1. cbn [sizeof]. rewrite Nat2Z.id, Nat.mul_1_r.
  unfold store. cbn [sizeof store_le].
  rewrite list_lookup_insert_eq by exact Hdst.
  f_equal. apply (unorm8_there_and_back_id v). lia.
Qed.

(** ** The 24-bit depth, 8-bit stencil format *)

(** C5 (the code at the failing input). In the 24-bit depth, 8-bit stencil
    layout the depth field of the 32-bit value is its upper 24 bits and the
    stencil its low byte; the descriptor of [PXFMT_D24_UNORM_S8_UINT] gives
    the depth the mask [0xFFFFFF] with the shift 0, so the decoder takes the
    depth from the low 24 bits, stencil byte included.  For [0xFFFFFF42]
    (the bytes [42 FF FF FF]) the stencil slot holds [0x42] and the depth
    slot holds [0xFFFF42 / 0xFFFFFF], which is below 1.0, while the depth
    field [0xFFFFFF] over its maximum is 1.0.  [0x00FFFF42], whose depth
    field is [0x00FFFF], decodes to the same array.  [0xFF000042], whose
    depth field [0xFF0000] is above 0.99 of the maximum, decodes to the
    depth [0x42 / 0xFFFFFF], below 2^-16. *)
Theorem d24_unorm_s8_uint_depth_from_low_bits :
  (exists F,
     pxfmt_per_fmt_info PXFMT_D24_UNORM_S8_UINT = Some F
     /\ elt (m_mask F) 0 = 0xFFFFFF /\ elt (m_shift F) 0 = 0
     /\ elt (m_mask F) 1 = 0xFF /\ elt (m_shift F) 1 = 0
     /\ elt (m_max F) 0 = 2 ^ 24 - 1)
  /\ (let src := [0x42; 0xFF; 0xFF; 0xFF] in
      let decoded :=
        to_intermediate (replicate 32 0) src 0 PXFMT_D24_UNORM_S8_UINT in
      load uint32 src 0 = Vint 0xFFFFFF42
      /\ load double decoded (elem_addr double 0 0)
         = Vfp (ddiv (Z_to_double 0xFFFF42) (Z_to_double (2 ^ 24 - 1)))
      /\ dlt (ddiv (Z_to_double 0xFFFF42) (Z_to_double (2 ^ 24 - 1))) d_one
         = true
      /\ ddiv (Z_to_double (Z.shiftr 0xFFFFFF42 8)) (Z_to_double (2 ^ 24 - 1))
         = d_one
      /\ load uint32 decoded (elem_addr double 0 1) = Vint 0x42)
  /\ (load uint32 [0x42; 0xFF; 0xFF; 0x00] 0 = Vint 0x00FFFF42
      /\ to_intermediate (replicate 32 0) [0x42; 0xFF; 0xFF; 0x00] 0
           PXFMT_D24_UNORM_S8_UINT
         = to_intermediate (replicate 32 0) [0x42; 0xFF; 0xFF; 0xFF] 0
             PXFMT_D24_UNORM_S8_UINT)
  /\ (let src := [0x42; 0x00; 0x00; 0xFF] in
      let decoded :=
        to_intermediate (replicate 32 0) src 0 PXFMT_D24_UNORM_S8_UINT in
      load uint32 src 0 = Vint 0xFF000042
      /\ load double decoded (elem_addr double 0 0)
         = Vfp (ddiv (Z_to_double 0x42) (Z_to_double (2 ^ 24 - 1)))
      /\ dlt (ddiv (Z_to_double 0x42) (Z_to_double (2 ^ 24 - 1)))
           two_pow_minus_16
         = true
      /\ dlt (ddiv (Z_to_double 99) (Z_to_double 100))
           (ddiv (Z_to_double (Z.shiftr 0xFF000042 8))
              (Z_to_double (2 ^ 24 - 1)))
         = true).
Proof.
  split; [|split; [|split]].
  - eexists. split; [reflexivity|]. repeat split.
  - cbv zeta. split; [|split; [|split; [|split]]]; vm_compute; reflexivity.
  - split; vm_compute; reflexivity.
  - cbv zeta. split; [|split; [|split]]; vm_compute; reflexivity.
Qed.

(** ** The encoder writes inside its pixel *)

Lemma pixel_size_table (fmt : pxfmt_sized_format) (F : fmt_info) :
  pxfmt_per_fmt_info fmt = Some F ->
  (sizeof (m_formatted_type F) <= Z.to_nat (m_bytes_per_pixel F))%nat
  /\ (m_is_packed F = false -> is_D24_UNORM_S8_UINT fmt = false ->
      (Z.to_nat (m_num_components F) * sizeof (m_formatted_type F)
       <= Z.to_nat (m_bytes_per_pixel F))%nat).
Proof.
  intros HF. destruct fmt; inversion HF; subst F; clear HF;
    (split; [vm_compute; lia | intros Hp H24; try discriminate Hp;
                               try discriminate H24; vm_compute; lia]).
Qed.

Lemma from_int_comp_other (F : fmt_info) (pdst : nat) (src : mem) (c : nat)
    (dst : mem) (i : nat) :
  let a := elem_addr (m_formatted_type F) pdst (Z.of_nat c) in
  (i < a \/ a + sizeof (m_formatted_type F) <= i)%nat ->
  from_int_comp F pdst src c dst !! i = dst !! i.
Proof.
  intros a H. unfold from_int_comp.
  destruct (0 <=? elt (m_index F) c); [|reflexivity].
  destruct (m_is_normalized F);
    [unfold from_int_comp_norm_unpacked | unfold from_int_comp_copy];
    apply store_other, H.
Qed.

Lemma from_int_loop_other (F : fmt_info) (pdst : nat) (src : mem) (i : nat)
    (n c0 : nat) (dst : mem) :
  (i < pdst \/ pdst + (c0 + n) * sizeof (m_formatted_type F) <= i)%nat ->
  for_loop n c0 (from_int_comp F pdst src) dst !! i = dst !! i.
Proof.
  revert c0 dst. induction n as [|n IH]; intros c0 dst H; cbn [for_loop].
  - reflexivity.
  - rewrite IH by lia. apply from_int_comp_other.
    unfold elem_addr. rewrite Nat2Z.id. nia.
Qed.

(** Encoding a pixel changes no byte outside the [m_bytes_per_pixel] bytes
    of that pixel. *)
Lemma from_intermediate_other (fmt : pxfmt_sized_format) (F : fmt_info)
    (dst : mem) (pdst : nat) (intermediate : mem) (i : nat) :
  pxfmt_per_fmt_info fmt = Some F ->
  (i < pdst \/ pdst + Z.to_nat (m_bytes_per_pixel F) <= i)%nat ->
  from_intermediate dst pdst intermediate fmt !! i = dst !! i.
Proof.
  intros HF Hi. unfold from_intermediate, pxfmt_case_statements. rewrite HF.
  destruct (pixel_size_table fmt F HF) as [Hsize Hcomps].
  unfold from_intermediate_F. rewrite (m_fmt_table fmt F HF).
  destruct (is_D24_UNORM_S8_UINT fmt) eqn:E24;
    [|destruct (is_D32_FLOAT_S8_UINT fmt) eqn:E32;
      [|destruct (m_is_packed F) eqn:Ep]].
  - unfold from_int_d24_unorm_s8_uint. apply store_other. lia.
  - destruct fmt; try discriminate E32. inversion HF; subst F.
    unfold from_int_d32_float_s8_uint, from_int_comp_copy.
    cbn [m_formatted_type m_bytes_per_pixel FMT_INFO] in *.
    unfold elem_addr. cbn [sizeof Z.of_nat Z.to_nat Pos.to_nat Pos.iter_op
                           Nat.mul Nat.add] in *.
    rewrite !store_other by (cbn [sizeof]; lia). reflexivity.
  - unfold from_int_comp_packed. apply store_other. lia.
  - apply from_int_loop_other. specialize (Hcomps eq_refl eq_refl). lia.
Qed.

(** With [height = 1] the two loops make one conversion, whatever the
    width is: a call that returns has changed no destination byte beyond
    the first pixel. *)
Lemma convert_pixels_single_row (ndebug : bool) (pDst pSrc : mem)
    (width : Z) (src_fmt dst_fmt : pxfmt_sized_format) (Fd : fmt_info)
    (d : mem) (i : nat) :
  pxfmt_per_fmt_info dst_fmt = Some Fd ->
  pxfmt_convert_pixels ndebug pDst pSrc width 1 src_fmt dst_fmt = Returned d ->
  (Z.to_nat (m_bytes_per_pixel Fd) <= i)%nat ->
  d !! i = pDst !! i.
Proof.
  intros Hd Hret Hi. unfold pxfmt_convert_pixels in Hret.
  destruct (get_pxfmt_info (wrap 32 width) src_fmt) as [[[sps srs] sfp]|];
    [|discriminate].
  destruct (get_pxfmt_info (wrap 32 width) dst_fmt) as [[[dps drs] dfp]|];
    [|discriminate].
  unfold assert in Hret.
  repeat match type of Hret with
  | (if ?b then _ else Aborted _) = _ => destruct b; [|discriminate Hret]
  end.
  cbv zeta in Hret.
  match type of Hret with
  | (if ?b then Undefined else _) = _ => destruct b; [discriminate Hret|]
  end.
  injection Hret as <-.
  change (Z.to_nat 1) with 1%nat. cbn [for_loop convert_row convert_pixel dst_mem].
  apply (from_intermediate_other dst_fmt Fd); [exact Hd | lia].
Qed.

(** ** The pixel-block converter *)

(** The width reaches the loops through the strides only: two widths that
    give the same strides give the same result. *)
Lemma convert_pixels_width_through_strides (ndebug : bool) (pDst pSrc : mem)
    (width1 width2 height : Z) (src_fmt dst_fmt : pxfmt_sized_format) :
  get_pxfmt_info (wrap 32 width1) src_fmt = get_pxfmt_info (wrap 32 width2) src_fmt ->
  get_pxfmt_info (wrap 32 width1) dst_fmt = get_pxfmt_info (wrap 32 width2) dst_fmt ->
  pxfmt_convert_pixels ndebug pDst pSrc width1 height src_fmt dst_fmt
  = pxfmt_convert_pixels ndebug pDst pSrc width2 height src_fmt dst_fmt.
Proof.
  intros Hs Hd. unfold pxfmt_convert_pixels. now rewrite Hs, Hd.
Qed.

(** C1 (the code at the failing input). The inner loop of
    [pxfmt_convert_pixels] is bounded by [height], not by [width].  With
    [height = 1] a call that returns has written no destination byte beyond
    the first pixel, whatever the width and the formats.  So converting a
    block 2 pixels wide and 1 pixel high of [PXFMT_R8_UNORM] to the same
    format converts pixel (0, 0) only: destination pixel (1, 0) keeps its
    old byte [170] and never receives the source's [20].  A block 1 pixel
    wide and 2 high gets two conversions per row, the second one into the
    padding of the row. *)
Theorem convert_pixels_inner_loop_bound :
  (forall (ndebug : bool) (pDst pSrc : mem) (width : Z)
          (src_fmt dst_fmt : pxfmt_sized_format) (Fd : fmt_info) (d : mem)
          (i : nat),
     pxfmt_per_fmt_info dst_fmt = Some Fd ->
     pxfmt_convert_pixels ndebug pDst pSrc width 1 src_fmt dst_fmt = Returned d ->
     (Z.to_nat (m_bytes_per_pixel Fd) <= i)%nat ->
     d !! i = pDst !! i)
  /\ pxfmt_convert_pixels false [170; 170; 170; 170] [10; 20; 30; 40] 2 1
       PXFMT_R8_UNORM PXFMT_R8_UNORM
     = Returned [10; 170; 170; 170]
  /\ pxfmt_convert_pixels false
       [170; 170; 170; 170; 170; 170; 170; 170] [10; 20; 30; 40; 50; 60; 70; 80]
       1 2 PXFMT_R8_UNORM PXFMT_R8_UNORM
     = Returned [10; 20; 170; 170; 50; 60; 170; 170].
Proof.
  split; [|split; vm_compute; reflexivity].
  intros ndebug pDst pSrc width src_fmt dst_fmt Fd d i.
  apply convert_pixels_single_row.
Qed.

(** C2 (as amended). When the two formats disagree on the kind of
    intermediate, a build with assertions stops on a failed [assert]
    before the pixel loop, whatever the buffers and dimensions are, and the
    destination is then as the caller passed it.  There is no error value:
    the function returns [void]. *)
Theorem convert_pixels_intermediate_mismatch (pDst pSrc : mem)
    (width height : Z) (src_fmt dst_fmt : pxfmt_sized_format)
    (Fs Fd : fmt_info) :
  pxfmt_per_fmt_info src_fmt = Some Fs ->
  pxfmt_per_fmt_info dst_fmt = Some Fd ->
  m_needs_fp_intermediate Fs <> m_needs_fp_intermediate Fd ->
  pxfmt_convert_pixels false pDst pSrc width height src_fmt dst_fmt
  = Aborted pDst.
Proof.
  intros Hs Hd Hne.
  unfold pxfmt_convert_pixels, get_pxfmt_info, pxfmt_case_statements.
  rewrite Hs, Hd. unfold get_pxfmt_info_F, assert. cbn [orb].
  repeat match goal with
  | |- (if ?b then _ else Aborted pDst) = Aborted pDst =>
      destruct b eqn:?; [|reflexivity]
  end.
  match goal with
  | H : eqb _ _ = true |- _ => apply eqb_prop in H; contradiction
  end.
Qed.

(** C7 (counterexample). For [PXFMT_RGBA32_FLOAT], 16 bytes per pixel, and a
    width of 2^28 pixels the product is 2^32: the [uint32] row stride comes
    out as 0, not as the product rounded up to a multiple of 4. *)
Lemma row_stride_wraps_around :
  exists row_stride,
    get_pxfmt_info (wrap 32 268435456) PXFMT_RGBA32_FLOAT
    = Some (16, row_stride, true)
    /\ row_stride = 0
    /\ round_up_4 (16 * 268435456) = 4294967296
    /\ (row_stride =? round_up_4 (16 * 268435456)) = false.
Proof. exists 0. repeat split. Qed.

(** * Further properties *)

(** ** Maximum values and descriptors *)

(** X1. The maximum of an unsigned component of [nbits] bits is
    [2^nbits - 1], up to and including 32 bits (the reason the macro shifts
    a 64-bit one); that of a signed component is [2^(nbits-1) - 1], and 0
    for the placeholder width 0. *)
Theorem max_values_closed_form (nbits : Z) :
  0 <= nbits <= 32 ->
  max_values false nbits = 2 ^ nbits - 1
  /\ max_values true nbits = (if nbits =? 0 then 0 else 2 ^ (nbits - 1) - 1).
Proof.
  intros Hn.
  assert (Hpow : forall k, 0 <= k <= 32 ->
            wrap 32 (wrap 64 (Z.shiftl 1 k) - 1) = 2 ^ k - 1).
  { intros k Hk. rewrite Z.shiftl_1_l.
    assert (0 < 2 ^ k) by (apply Z.pow_pos_nonneg; lia).
    assert (2 ^ k <= 2 ^ 32) by (apply Z.pow_le_mono_r; lia).
    change (2 ^ 32) with 4294967296 in *.
    rewrite (wrap_small 64) by (change (2 ^ 64) with 18446744073709551616; lia).
    apply wrap_small. change (2 ^ 32) with 4294967296. lia. }
  split.
  - unfold max_values. cbn [negb]. apply Hpow, Hn.
  - unfold max_values. cbn [negb].
    destruct (Z.eqb_spec nbits 0) as [->|Hne]; [reflexivity|].
    destruct (Z.ltb_spec 0 nbits); [|lia]. apply Hpow. lia.
Qed.

(** X2. Whatever the width is, wrap-around or not, the row stride is a
    multiple of 4 that fits a [uint32], and the pixel stride is the
    descriptor's. *)
Theorem row_stride_multiple_of_4 (fmt : pxfmt_sized_format) (F : fmt_info)
    (width : Z) :
  pxfmt_per_fmt_info fmt = Some F ->
  exists row_stride,
    get_pxfmt_info width fmt
    = Some (m_bytes_per_pixel F, row_stride, m_needs_fp_intermediate F)
    /\ 0 <= row_stride < 2 ^ 32
    /\ row_stride mod 4 = 0.
Proof.
  intros HF. unfold get_pxfmt_info, pxfmt_case_statements. rewrite HF.
  unfold get_pxfmt_info_F. eexists. split; [reflexivity|].
  set (x := wrap 32 (wrap 32 (m_bytes_per_pixel F * width) + 3)).
  assert (Hx : 0 <= x < 2 ^ 32) by (apply wrap_range; lia).
  rewrite land_FFFFFFFC by exact Hx.
  change (2 ^ 32) with 4294967296 in *.
  split; [|now rewrite Z.mul_comm, Z.mod_mul].
  pose proof (Z.mul_div_le x 4 eq_refl). 
  assert (0 <= x / 4) by (apply Z.div_pos; lia). lia.
Qed.

(** X3. The table as a whole: a format has between one and four components;
    its intermediate type is [double] exactly when it asks for a
    floating-point intermediate, and [uint32] otherwise; a normalized format
    always asks for one; the components of an unpacked format fill the pixel
    exactly (the 24/8 depth-stencil row apart, whose two components share
    one [uint32]); and the slots of the present components are distinct. *)
Theorem descriptor_table_invariants (fmt : pxfmt_sized_format) (F : fmt_info) :
  pxfmt_per_fmt_info fmt = Some F ->
  m_fmt F = fmt
  /\ 1 <= m_num_components F <= 4
  /\ m_intermediate_type F
     = (if m_needs_fp_intermediate F then double else uint32)
  /\ (m_is_normalized F = true -> m_needs_fp_intermediate F = true)
  /\ (m_is_packed F = false -> is_D24_UNORM_S8_UINT fmt = false ->
      m_bytes_per_pixel F
      = m_num_components F * Z.of_nat (sizeof (m_formatted_type F)))
  /\ NoDup (map (elt (m_index F)) (present_components F)).
Proof.
  intros HF. destruct fmt; inversion HF; subst F; clear HF;
    (split; [reflexivity|]);
    (split; [vm_compute; split; discriminate|]);
    (split; [reflexivity|]);
    (split; [intros Hn; try discriminate Hn; reflexivity|]);
    (split; [intros Hp H24; try discriminate Hp; try discriminate H24;
             reflexivity|]);
    apply (bool_decide_unpack _); vm_compute; exact I.
Qed.

(** ** What the decoder reads and what it overwrites *)

Lemma for_loop_ext {St : Type} (f g : nat -> St -> St) (n c0 : nat) (st : St) :
  (forall c s, (c0 <= c < c0 + n)%nat -> f c s = g c s) ->
  for_loop n c0 f st = for_loop n c0 g st.
Proof.
  revert c0 st. induction n as [|n IH]; intros c0 st H; cbn [for_loop].
  - reflexivity.
  - rewrite H by lia. apply IH. intros c s Hc. apply H. lia.
Qed.

Lemma store_le_in_same (n : nat) (m m' : mem) (a : nat) (z : Z) (i : nat) :
  (a <= i < a + n)%nat ->
  (a + n <= length m)%nat -> (a + n <= length m')%nat ->
  store_le m a n z !! i = store_le m' a n z !! i.
Proof.
  revert m m' a z. induction n as [|n IH]; intros m m' a z Hi Hm Hm'; [lia|].
  cbn [store_le]. destruct (Nat.eq_dec i a) as [->|Hne].
  - rewrite !store_le_other by lia.
    now rewrite !list_lookup_insert_eq by lia.
  - apply IH; rewrite ?length_insert; lia.
Qed.

Lemma store_agree_except (t : ctype) (lo hi : nat) (m m' : mem) (v : cvalue) :
  agree_except lo hi m m' ->
  (lo + sizeof t <= hi)%nat -> (hi <= length m)%nat ->
  agree_except (lo + sizeof t) hi (store t m lo v) (store t m' lo v).
Proof.
  intros [Hlen Hag] Hlo Hhi. split.
  - now rewrite !store_length.
  - intros i Hi. unfold store.
    destruct (Nat.lt_ge_cases i lo) as [Hlt|Hge].
    + rewrite !store_le_other by lia. apply Hag. lia.
    + destruct (Nat.lt_ge_cases i (lo + sizeof t)) as [Hin|Hout].
      * apply store_le_in_same; lia.
      * rewrite !store_le_other by lia. apply Hag. lia.
Qed.

Lemma agree_except_eq (k : nat) (m m' : mem) : agree_except k k m m' -> m = m'.
Proof.
  intros [_ Hag]. apply list_eq. intros i. apply Hag. lia.
Qed.

(** [set_intermediate_to_defaults] overwrites the four slots entirely. *)
Lemma set_intermediate_to_defaults_fresh (F : fmt_info) (i1 i2 : mem) :
  agree_except 0 (4 * sizeof (m_intermediate_type F)) i1 i2 ->
  (4 * sizeof (m_intermediate_type F) <= length i1)%nat ->
  set_intermediate_to_defaults F i1 = set_intermediate_to_defaults F i2.
Proof.
  intros Hag Hlen. unfold set_intermediate_to_defaults.
  set (t := m_intermediate_type F) in *.
  apply (agree_except_eq (4 * sizeof t)).
  replace (elem_addr t 0 0) with 0%nat by (unfold elem_addr; cbn; lia).
  replace (elem_addr t 0 1) with (0 + sizeof t)%nat by (unfold elem_addr; cbn; lia).
  replace (elem_addr t 0 2) with (0 + sizeof t + sizeof t)%nat
    by (unfold elem_addr; cbn; lia).
  replace (elem_addr t 0 3) with (0 + sizeof t + sizeof t + sizeof t)%nat
    by (unfold elem_addr; cbn; lia).
  replace (4 * sizeof t)%nat
    with (0 + sizeof t + sizeof t + sizeof t + sizeof t)%nat at 1 by lia.
  repeat (apply store_agree_except; [|lia|rewrite ?store_length; lia]).
  exact Hag.
Qed.

Lemma to_int_comp_src_ext (fmt : pxfmt_sized_format) (F : fmt_info)
    (src src' : mem) (psrc c : nat) (dst : mem) :
  pxfmt_per_fmt_info fmt = Some F ->
  is_D24_UNORM_S8_UINT fmt = false ->
  (forall i, (psrc <= i < psrc + Z.to_nat (m_bytes_per_pixel F))%nat ->
             src !! i = src' !! i) ->
  (c < Z.to_nat (m_num_components F))%nat ->
  to_int_comp F src psrc c dst = to_int_comp F src' psrc c dst.
Proof.
  intros HF H24 Hsrc Hc.
  destruct (pixel_size_table fmt F HF) as [Hsize Hcomps].
  unfold to_int_comp. destruct (0 <=? elt (m_index F) c); [|reflexivity].
  destruct (m_is_packed F) eqn:Ep.
  - unfold to_int_comp_packed.
    rewrite (load_ext (m_formatted_type F) src src' psrc)
      by (intros i Hi; apply Hsrc; lia).
    reflexivity.
  - specialize (Hcomps eq_refl H24).
    assert (Hld : load (m_formatted_type F) src
                    (elem_addr (m_formatted_type F) psrc (Z.of_nat c))
                  = load (m_formatted_type F) src'
                      (elem_addr (m_formatted_type F) psrc (Z.of_nat c))).
    { apply load_ext. intros i Hi. apply Hsrc.
      unfold elem_addr in Hi. rewrite Nat2Z.id in Hi. nia. }
    unfold to_int_comp_norm_unpacked, to_int_comp_copy. rewrite Hld.
    reflexivity.
Qed.

(** X4. Decoding a pixel reads the [m_bytes_per_pixel] bytes of that pixel
    and nothing else: two source buffers that agree on them decode to the
    same intermediate values. *)
Theorem to_intermediate_reads_pixel_only (fmt : pxfmt_sized_format)
    (F : fmt_info) (intermediate src src' : mem) (psrc : nat) :
  pxfmt_per_fmt_info fmt = Some F ->
  (forall i, (psrc <= i < psrc + Z.to_nat (m_bytes_per_pixel F))%nat ->
             src !! i = src' !! i) ->
  to_intermediate intermediate src psrc fmt
  = to_intermediate intermediate src' psrc fmt.
Proof.
  intros HF Hsrc. unfold to_intermediate, pxfmt_case_statements. rewrite HF.
  unfold to_intermediate_F. rewrite (m_fmt_table fmt F HF).
  destruct (is_D24_UNORM_S8_UINT fmt) eqn:E24;
    [|destruct (is_D32_FLOAT_S8_UINT fmt) eqn:E32].
  - destruct fmt; try discriminate E24. inversion HF; subst F.
    unfold to_int_d24_unorm_s8_uint.
    cbn [m_formatted_type m_bytes_per_pixel FMT_INFO] in *.
    rewrite (load_ext uint32 src src' psrc)
      by (intros i Hi; apply Hsrc; cbn [sizeof] in Hi; cbn; lia).
    reflexivity.
  - destruct fmt; try discriminate E32. inversion HF; subst F.
    unfold to_int_d32_float_s8_uint, to_int_comp_copy.
    cbn [m_formatted_type m_bytes_per_pixel FMT_INFO] in *.
    rewrite (load_ext float src src' (elem_addr float psrc (Z.of_nat 0)))
      by (intros i Hi; apply Hsrc; unfold elem_addr in Hi;
          cbn [sizeof] in Hi; cbn in *; lia).
    rewrite (load_ext uint32 src src' (elem_addr float psrc 1))
      by (intros i Hi; apply Hsrc; unfold elem_addr in Hi;
          cbn [sizeof] in Hi; cbn in *; lia).
    reflexivity.
  - apply for_loop_ext. intros c s Hc.
    apply (to_int_comp_src_ext fmt); [exact HF | exact E24 | exact Hsrc | lia].
Qed.

(** X5. Encoding a pixel changes no byte outside the [m_bytes_per_pixel]
    bytes of that pixel. *)
Theorem from_intermediate_writes_pixel_only (fmt : pxfmt_sized_format)
    (F : fmt_info) (dst : mem) (pdst : nat) (intermediate : mem) :
  pxfmt_per_fmt_info fmt = Some F ->
  forall i, (i < pdst \/ pdst + Z.to_nat (m_bytes_per_pixel F) <= i)%nat ->
    from_intermediate dst pdst intermediate fmt !! i = dst !! i.
Proof.
  intros HF i Hi. now apply (from_intermediate_other fmt F).
Qed.

(** ** Each component on its own *)

Lemma for_loop_app {St : Type} (f : nat -> St -> St) (n1 n2 c0 : nat) (st : St) :
  for_loop (n1 + n2) c0 f st = for_loop n2 (c0 + n1) f (for_loop n1 c0 f st).
Proof.
  revert c0 st. induction n1 as [|n1 IH]; intros c0 st; cbn [for_loop Nat.add].
  - now rewrite Nat.add_0_r.
  - rewrite IH. f_equal. lia.
Qed.

Lemma index_injective (fmt : pxfmt_sized_format) (F : fmt_info) (c c' : nat) :
  pxfmt_per_fmt_info fmt = Some F ->
  present F c = true -> present F c' = true ->
  elt (m_index F) c = elt (m_index F) c' -> c = c'.
Proof.
  intros HF Hc Hc'.
  pose proof (present_lt_4 fmt F c HF Hc) as Hlt.
  pose proof (present_lt_4 fmt F c' HF Hc') as Hlt'.
  destruct c as [|[|[|[|c]]]]; [| | | |lia];
    destruct c' as [|[|[|[|c']]]]; try lia; try reflexivity;
    clear Hlt Hlt'; intros He; exfalso;
    destruct fmt; inversion HF; subst F; clear HF;
    try discriminate Hc; try discriminate Hc'; discriminate He.
Qed.

(** What a decoder of one component does to the array is one assignment of
    the decoded value to the component's slot: the clamp of the signed
    normalized formats never changes it. *)
Lemma to_int_comp_store (fmt : pxfmt_sized_format) (F : fmt_info)
    (src : mem) (psrc c : nat) (dst : mem) :
  pxfmt_per_fmt_info fmt = Some F ->
  present F c = true ->
  (4 * sizeof (m_intermediate_type F) <= length dst)%nat ->
  to_int_comp F src psrc c dst
  = store (m_intermediate_type F) dst
      (elem_addr (m_intermediate_type F) 0 (elt (m_index F) c))
      (decoded_value F src psrc c).
Proof.
  intros HF Hc Hlen.
  pose proof (index_range fmt F c HF) as Hr.
  assert (Hpos : 0 <= elt (m_index F) c).
  { unfold present in Hc. apply andb_true_iff in Hc as [_ Hc].
    now apply Z.leb_le. }
  unfold to_int_comp, decoded_value.
  rewrite (proj2 (Z.leb_le _ _) Hpos).
  destruct (m_is_normalized F) eqn:Hn.
  - destruct (normalized_component_facts fmt F c HF Hn Hc)
      as (HT & _ & m & e & Hmax).
    assert (Hclamp : forall raw, 0 <= raw ->
              clamp_to_minus_one (m_intermediate_type F)
                (store (m_intermediate_type F) dst
                   (elem_addr (m_intermediate_type F) 0 (elt (m_index F) c))
                   (Vfp (ddiv (Z_to_double raw) (Z_to_double (elt (m_max F) c)))))
                (elem_addr (m_intermediate_type F) 0 (elt (m_index F) c))
              = store (m_intermediate_type F) dst
                  (elem_addr (m_intermediate_type F) 0 (elt (m_index F) c))
                  (Vfp (ddiv (Z_to_double raw) (Z_to_double (elt (m_max F) c))))).
    { intros raw Hraw. unfold clamp_to_minus_one.
      rewrite load_store
        by (unfold elem_addr; rewrite HT in *; cbn [sizeof] in *; lia).
      rewrite HT. unfold encode, decode, to_double. cbn [convert sizeof].
      rewrite bits_to_SF_not_below_minus_one; [reflexivity|].
      assert (Hq : SF_nonneg (ddiv (Z_to_double raw) (Z_to_double (elt (m_max F) c)))
                   = true)
        by (rewrite Hmax; apply ddiv_nonneg, Z_to_double_nonneg, Hraw).
      pose proof (SF_to_bits_nonneg _ Hq) as Hb.
      rewrite Z.mod_small; [exact Hb|].
      change (256 ^ Z.of_nat 8) with 18446744073709551616.
      change (2 ^ 63) with 9223372036854775808 in Hb. lia. }
    destruct (m_is_packed F).
    + unfold to_int_comp_packed. rewrite Hn, (wrap_small 32 (elt _ _)) by lia.
      destruct (m_is_signed F); [|reflexivity].
      apply Hclamp, Z.shiftr_nonneg, Z.land_nonneg. left. apply to_uint32_nonneg.
    + unfold to_int_comp_norm_unpacked. rewrite (wrap_small 32 (elt _ _)) by lia.
      destruct (m_is_signed F); [|reflexivity].
      apply Hclamp, to_uint32_nonneg.
  - destruct (m_is_packed F).
    + unfold to_int_comp_packed. rewrite Hn, (wrap_small 32 (elt _ _)) by lia.
      reflexivity.
    + unfold to_int_comp_copy. rewrite (wrap_small 32 (elt _ _)) by lia.
      reflexivity.
Qed.

Lemma to_int_loop_length (F : fmt_info) (src : mem) (psrc : nat)
    (n c0 : nat) (d : mem) :
  length (for_loop n c0 (to_int_comp F src psrc) d) = length d.
Proof.
  revert c0 d. induction n as [|n IH]; intros c0 d; cbn [for_loop];
    [reflexivity|].
  rewrite IH. unfold to_int_comp, to_int_comp_packed,
    to_int_comp_norm_unpacked, to_int_comp_copy, clamp_to_minus_one.
  repeat match goal with
  | |- context [if ?b then _ else _] => destruct b
  end; rewrite ?store_length; reflexivity.
Qed.

(** After the component loop of the decoder, the slot of a present
    component holds that component's decoded value (as far as the slot's
    type holds it). *)
Lemma to_int_loop_slot (fmt : pxfmt_sized_format) (F : fmt_info)
    (src : mem) (psrc c : nat) (inter : mem) :
  pxfmt_per_fmt_info fmt = Some F ->
  present F c = true ->
  (4 * sizeof (m_intermediate_type F) <= length inter)%nat ->
  load (m_intermediate_type F)
    (for_loop (Z.to_nat (m_num_components F)) 0 (to_int_comp F src psrc) inter)
    (elem_addr (m_intermediate_type F) 0 (elt (m_index F) c))
  = through_object (m_intermediate_type F) (decoded_value F src psrc c).
Proof.
  intros HF Hc Hlen.
  pose proof (index_range fmt F c HF) as Hr.
  assert (Hcn : (c < Z.to_nat (m_num_components F))%nat).
  { unfold present in Hc. apply andb_true_iff in Hc as [Hc _].
    apply Z.ltb_lt in Hc. lia. }
  assert (Hpos : 0 <= elt (m_index F) c).
  { unfold present in Hc. apply andb_true_iff in Hc as [_ Hc].
    now apply Z.leb_le. }
  replace (Z.to_nat (m_num_components F))
    with (c + (1 + (Z.to_nat (m_num_components F) - c - 1)))%nat by lia.
  rewrite for_loop_app, for_loop_app. cbn [for_loop Nat.add].
  set (before := for_loop c 0 (to_int_comp F src psrc) inter).
  assert (Hbefore : (4 * sizeof (m_intermediate_type F) <= length before)%nat)
    by (subst before; now rewrite to_int_loop_length).
  rewrite (load_ext _ _ (to_int_comp F src psrc c before)).
  - rewrite (to_int_comp_store fmt) by assumption.
    apply load_store. unfold elem_addr.
    destruct (intermediate_type_cases fmt F HF) as [HT | HT]; rewrite HT in *;
      cbn [sizeof] in *; lia.
  - intros i Hi. apply to_int_loop_other. intros c' Hc' Hpos' a.
    assert (Hp' : present F c' = true).
    { unfold present. apply andb_true_iff. split;
        [apply Z.ltb_lt | apply Z.leb_le]; lia. }
    assert (Hne : elt (m_index F) c' <> elt (m_index F) c).
    { intros He. apply (index_injective fmt F c' c HF Hp' Hc) in He. lia. }
    pose proof (index_range fmt F c' HF) as Hr'.
    subst a. unfold elem_addr in *. rewrite wrap_small by lia.
    destruct (intermediate_type_cases fmt F HF) as [HT | HT]; rewrite HT in *;
      cbn [sizeof] in *; lia.
Qed.

Lemma from_int_loop_length (F : fmt_info) (pdst : nat) (src : mem)
    (n c0 : nat) (d : mem) :
  length (for_loop n c0 (from_int_comp F pdst src) d) = length d.
Proof.
  revert c0 d. induction n as [|n IH]; intros c0 d; cbn [for_loop];
    [reflexivity|].
  rewrite IH. unfold from_int_comp, from_int_comp_norm_unpacked,
    from_int_comp_copy.
  repeat match goal with
  | |- context [if ?b then _ else _] => destruct b
  end; rewrite ?store_length; reflexivity.
Qed.

Lemma from_int_loop_below (F : fmt_info) (pdst : nat) (src : mem) (i : nat)
    (n c0 : nat) (dst : mem) :
  (i < elem_addr (m_formatted_type F) pdst (Z.of_nat c0))%nat ->
  for_loop n c0 (from_int_comp F pdst src) dst !! i = dst !! i.
Proof.
  revert c0 dst. induction n as [|n IH]; intros c0 dst H; cbn [for_loop].
  - reflexivity.
  - rewrite IH by (unfold elem_addr in *; rewrite Nat2Z.id in *; lia).
    apply from_int_comp_other. left. exact H.
Qed.

(** After the component loop of the encoder, a present component of the
    destination pixel holds the value encoded from its intermediate
    slot. *)
Lemma from_int_loop_slot (fmt : pxfmt_sized_format) (F : fmt_info)
    (pdst : nat) (inter : mem) (c : nat) (dst : mem) :
  pxfmt_per_fmt_info fmt = Some F ->
  present F c = true ->
  (elem_addr (m_formatted_type F) pdst (Z.of_nat c)
   + sizeof (m_formatted_type F) <= length dst)%nat ->
  load (m_formatted_type F)
    (for_loop (Z.to_nat (m_num_components F)) 0 (from_int_comp F pdst inter) dst)
    (elem_addr (m_formatted_type F) pdst (Z.of_nat c))
  = through_object (m_formatted_type F)
      (encoded_value F
         (load (m_intermediate_type F) inter
            (elem_addr (m_intermediate_type F) 0 (elt (m_index F) c))) c).
Proof.
  intros HF Hc Hlen.
  pose proof (index_range fmt F c HF) as Hr.
  assert (Hcn : (c < Z.to_nat (m_num_components F))%nat).
  { unfold present in Hc. apply andb_true_iff in Hc as [Hc _].
    apply Z.ltb_lt in Hc. lia. }
  assert (Hpos : 0 <= elt (m_index F) c).
  { unfold present in Hc. apply andb_true_iff in Hc as [_ Hc].
    now apply Z.leb_le. }
  replace (Z.to_nat (m_num_components F))
    with (c + (1 + (Z.to_nat (m_num_components F) - c - 1)))%nat by lia.
  rewrite for_loop_app, for_loop_app. cbn [for_loop Nat.add].
  set (before := for_loop c 0 (from_int_comp F pdst inter) dst).
  assert (Hbefore : length before = length dst)
    by (subst before; apply from_int_loop_length).
  rewrite (load_ext _ _ (from_int_comp F pdst inter c before)).
  - unfold from_int_comp, encoded_value.
    rewrite (proj2 (Z.leb_le _ _) Hpos).
    destruct (m_is_normalized F);
      [unfold from_int_comp_norm_unpacked | unfold from_int_comp_copy];
      rewrite (wrap_small 32 (elt _ _)) by lia;
      apply load_store; lia.
  - intros i Hi. apply from_int_loop_below.
    unfold elem_addr in *. rewrite Nat2Z.id in *. lia.
Qed.

(** ** A pixel decoded and encoded again *)

Lemma int_copy_there_and_back (t : ctype) (b : Z) :
  t <> float -> t <> double ->
  through_object t (convert uint32 (through_object uint32 (decode t b)))
  = decode t b.
Proof.
  intros Hf Hd. unfold through_object, encode, decode.
  destruct t; try contradiction; cbn [convert sizeof]; f_equal;
    unfold int_repr, sext, wrap, bitsof; cbn [is_signed_int sizeof];
    repeat match goal with
    | |- context [2 ^ ?k] =>
        let r := eval vm_compute in (2 ^ k) in change (2 ^ k) with r
    | |- context [256 ^ ?k] =>
        let r := eval vm_compute in (256 ^ k) in change (256 ^ k) with r
    end;
    repeat match goal with
    | |- context [if ?x <? ?y then _ else _] => destruct (Z.ltb_spec x y)
    end;
    Z.div_mod_to_equations; lia.
Qed.

Lemma unpacked_exact_facts (fmt : pxfmt_sized_format) (F : fmt_info) :
  pxfmt_per_fmt_info fmt = Some F ->
  unpacked_exact F = true ->
  is_D24_UNORM_S8_UINT fmt = false /\ is_D32_FLOAT_S8_UINT fmt = false
  /\ m_is_packed F = false
  /\ (unorm8_unpacked F = true
      \/ m_is_normalized F = false /\ m_intermediate_type F = uint32
         /\ m_formatted_type F <> float /\ m_formatted_type F <> double).
Proof.
  intros HF. destruct fmt; inversion HF; subst F; clear HF;
    intros Hu; try discriminate Hu;
    (split; [reflexivity|]); (split; [reflexivity|]); (split; [reflexivity|]);
    first [ left; reflexivity
          | right; repeat split; first [reflexivity | discriminate] ].
Qed.

(** One component of such a format, from the stored scalar through the
    intermediate slot and back. *)
Lemma unpacked_component_there_and_back (fmt : pxfmt_sized_format)
    (F : fmt_info) (src : mem) (psrc c : nat) :
  pxfmt_per_fmt_info fmt = Some F ->
  unpacked_exact F = true ->
  present F c = true ->
  through_object (m_formatted_type F)
    (encoded_value F
       (through_object (m_intermediate_type F) (decoded_value F src psrc c)) c)
  = load (m_formatted_type F) src
      (elem_addr (m_formatted_type F) psrc (Z.of_nat c)).
Proof.
  intros HF Hu Hc.
  destruct (unpacked_exact_facts fmt F HF Hu) as (_ & _ & Hp & [H8 | Hint]).
  - destruct (unorm8_component_facts fmt F c HF H8 Hc)
      as (HT & HTi & _ & Hmax & _).
    assert (Hn : m_is_normalized F = true).
    { unfold unorm8_unpacked in H8. rewrite !andb_true_iff in H8. tauto. }
    unfold decoded_value, encoded_value, load. rewrite Hp, Hn, HT, HTi, Hmax.
    set (b := load_le src (elem_addr uint8 psrc (Z.of_nat c)) (sizeof uint8)).
    assert (Hv : 0 <= b mod 256 < 256) by (apply Z.mod_pos_bound; lia).
    pose proof (unorm8_there_and_back_id (b mod 256) Hv) as Hid.
    unfold unorm8_there_and_back in Hid.
    assert (Hraw : to_uint32 (decode uint8 b) = b mod 256).
    { unfold to_uint32, decode, convert, int_repr, wrap. cbn [is_signed_int].
      change (2 ^ bitsof uint8) with 256. change (2 ^ bitsof uint32) with (2 ^ 32).
      apply Z.mod_small. change (2 ^ 32) with 4294967296. lia. }
    rewrite Hraw.
    unfold through_object, encode, decode, to_double. cbn [convert sizeof].
    f_equal. unfold int_repr, wrap. cbn [is_signed_int].
    change (2 ^ bitsof uint8) with 256. change (256 ^ Z.of_nat 1) with 256.
    unfold wrap in Hid. change (2 ^ 8) with 256 in Hid.
    change (256 ^ Z.of_nat 8) with (256 ^ 8).
    rewrite Hid. now rewrite !Z.mod_mod by lia.
  - destruct Hint as (Hn & HTi & Hf & Hd).
    unfold decoded_value, encoded_value, load. rewrite Hp, Hn, HTi.
    apply int_copy_there_and_back; assumption.
Qed.

(** The two component loops of an exact unpacked format, one after the
    other. *)
Lemma unpacked_pixel_there_and_back (fmt : pxfmt_sized_format) (F : fmt_info)
    (intermediate src dst : mem) (psrc pdst c : nat) :
  pxfmt_per_fmt_info fmt = Some F ->
  unpacked_exact F = true ->
  present F c = true ->
  length intermediate = (4 * sizeof (m_intermediate_type F))%nat ->
  (pdst + Z.to_nat (m_bytes_per_pixel F) <= length dst)%nat ->
  load (m_formatted_type F)
    (from_intermediate dst pdst (to_intermediate intermediate src psrc fmt) fmt)
    (elem_addr (m_formatted_type F) pdst (Z.of_nat c))
  = load (m_formatted_type F) src
      (elem_addr (m_formatted_type F) psrc (Z.of_nat c)).
Proof.
  intros HF Hu Hc Hlen Hdst.
  destruct (unpacked_exact_facts fmt F HF Hu) as (H24 & H32 & Hp & _).
  destruct (pixel_size_table fmt F HF) as [_ Hcomps].
  specialize (Hcomps Hp H24).
  assert (Hcn : (c < Z.to_nat (m_num_components F))%nat).
  { unfold present in Hc. apply andb_true_iff in Hc as [Hc _].
    apply Z.ltb_lt in Hc. lia. }
  unfold from_intermediate, to_intermediate, pxfmt_case_statements.
  rewrite HF. unfold from_intermediate_F, to_intermediate_F.
  rewrite (m_fmt_table fmt F HF), H24, H32, Hp.
  rewrite (from_int_loop_slot fmt) by
    (try assumption; unfold elem_addr; rewrite Nat2Z.id; nia).
  rewrite (to_int_loop_slot fmt) by
    (try assumption; unfold set_intermediate_to_defaults;
     rewrite !store_length; lia).
  now apply (unpacked_component_there_and_back fmt).
Qed.

(** X6. A pixel of an integer or 8-bit unsigned normalized unpacked format,
    decoded to the intermediate values and encoded again in the same format,
    gives each present component of the destination pixel the value the
    source pixel has there. *)
Theorem unpacked_pixel_round_trip (fmt : pxfmt_sized_format) (F : fmt_info)
    (intermediate src dst : mem) (psrc pdst c : nat) :
  pxfmt_per_fmt_info fmt = Some F ->
  unpacked_exact F = true ->
  present F c = true ->
  length intermediate = (4 * sizeof (m_intermediate_type F))%nat ->
  (pdst + Z.to_nat (m_bytes_per_pixel F) <= length dst)%nat ->
  load (m_formatted_type F)
    (from_intermediate dst pdst (to_intermediate intermediate src psrc fmt) fmt)
    (elem_addr (m_formatted_type F) pdst (Z.of_nat c))
  = load (m_formatted_type F) src
      (elem_addr (m_formatted_type F) psrc (Z.of_nat c)).
Proof.
  exact (unpacked_pixel_there_and_back fmt F intermediate src dst psrc pdst c).
Qed.

(** ** A packed pixel decoded and encoded again *)

Lemma packed_component_facts (fmt : pxfmt_sized_format) (F : fmt_info)
    (c : nat) :
  pxfmt_per_fmt_info fmt = Some F ->
  m_is_packed F = true ->
  (c < 4)%nat ->
  elt (m_mask F) c = Z.shiftl (elt (m_max F) c) (elt (m_shift F) c)
  /\ 0 <= elt (m_shift F) c
  /\ 0 <= elt (m_mask F) c < 2 ^ 32
  /\ m_intermediate_type F = (if m_is_normalized F then double else uint32)
  /\ (if present F c
      then elt (m_index F) c = Z.of_nat c
           /\ mem_Z (elt (m_max F) c) packed_maxima = true
      else elt (m_mask F) c = 0).
Proof.
  intros HF Hp Hc.
  destruct c as [|[|[|[|c]]]]; [| | | |lia]; clear Hc;
    destruct fmt; inversion HF; subst F; clear HF;
    try discriminate Hp; vm_compute; intuition discriminate.
Qed.

Lemma below_by_computation (P : Z -> bool) (mx : Z) :
  forallb P (map Z.of_nat (seq 0 (S (Z.to_nat mx)))) = true ->
  forall v, 0 <= v <= mx -> P v = true.
Proof.
  intros H v Hv. rewrite forallb_forall in H. apply H.
  apply in_map_iff. exists (Z.to_nat v). split; [lia|].
  apply in_seq. lia.
Qed.

Lemma packed_maxima_cases (mx : Z) :
  mem_Z mx packed_maxima = true ->
  exists k, 0 < k <= 10 /\ mx = Z.ones k.
Proof.
  unfold mem_Z, packed_maxima. cbn [existsb].
  rewrite !orb_true_iff, !Z.eqb_eq.
  intros [-> | [-> | [-> | [-> | [-> | [-> | [-> | [-> | [-> | H]]]]]]]]];
    [exists 1|exists 2|exists 3|exists 4|exists 5|exists 6|exists 7|exists 8
    |exists 10|discriminate H]; (split; [lia|reflexivity]).
Qed.

(** A field of up to 10 bits divided by its maximum, kept in a [double],
    multiplied by the maximum and truncated is the field again. *)
Lemma norm_there_and_back_id (mx v : Z) :
  mem_Z mx packed_maxima = true -> 0 <= v <= mx ->
  norm_there_and_back mx v = v.
Proof.
  intros Hmx Hv. apply Z.eqb_eq. revert v Hv.
  assert (Hall : forallb
            (fun mx =>
               forallb (fun v => norm_there_and_back mx v =? v)
                 (map Z.of_nat (seq 0 (S (Z.to_nat mx)))))
            packed_maxima = true) by (vm_compute; reflexivity).
  rewrite forallb_forall in Hall.
  apply (below_by_computation (fun v => norm_there_and_back mx v =? v)).
  apply Hall. unfold mem_Z in Hmx. apply existsb_exists in Hmx.
  destruct Hmx as (y & Hy & Heq). apply Z.eqb_eq in Heq. now subst y.
Qed.

Lemma field_range (raw mx s : Z) :
  mem_Z mx packed_maxima = true -> 0 <= s ->
  0 <= Z.shiftr (Z.land raw (Z.shiftl mx s)) s <= mx.
Proof.
  intros Hmx Hs.
  rewrite Z.shiftr_land, Z.shiftr_shiftl_l, Z.sub_diag, Z.shiftl_0_r by exact Hs.
  destruct (packed_maxima_cases mx Hmx) as (k & Hk & ->).
  rewrite Z.land_ones by lia. rewrite Z.ones_equiv.
  pose proof (Z.mod_pos_bound (Z.shiftr raw s) (2 ^ k)
                ltac:(apply Z.pow_pos_nonneg; lia)).
  lia.
Qed.

(** A field taken out of a scalar with mask and shift, shifted back and
    masked, is the masked scalar. *)
Lemma field_put_back (raw mask s : Z) (mx : Z) :
  mask = Z.shiftl mx s -> 0 <= s -> 0 <= mask < 2 ^ 32 ->
  Z.land (wrap 32 (Z.shiftl (Z.shiftr (Z.land raw mask) s) s)) mask
  = Z.land raw mask.
Proof.
  intros Hmask Hs Hrange. apply Z.bits_inj'. intros n Hn.
  rewrite !Z.land_spec.
  destruct (Z.testbit mask n) eqn:Hbit; [|now rewrite !andb_false_r].
  rewrite !andb_true_r.
  assert (Hn32 : n < 32).
  { destruct (Z.lt_ge_cases n 32) as [|Hge]; [assumption|].
    rewrite (testbit_above 32 mask n) in Hbit by lia. discriminate. }
  assert (Hns : s <= n).
  { destruct (Z.le_gt_cases s n) as [|Hlt]; [assumption|].
    rewrite Hmask, Z.shiftl_spec, Z.testbit_neg_r in Hbit by lia.
    discriminate. }
  unfold wrap. rewrite Z.mod_pow2_bits_low by lia.
  rewrite Z.shiftl_spec, Z.shiftr_spec by lia.
  replace (n - s + s) with n by lia.
  now rewrite Z.land_spec, Hbit, andb_true_r.
Qed.

Lemma packed_raw_fits (fmt : pxfmt_sized_format) (F : fmt_info)
    (src : mem) (psrc : nat) :
  pxfmt_per_fmt_info fmt = Some F ->
  m_is_packed F = true ->
  load (m_formatted_type F) src psrc = Vint (packed_raw F src psrc)
  /\ 0 <= packed_raw F src psrc < 2 ^ bitsof (m_formatted_type F).
Proof.
  intros HF Hp. unfold packed_raw, load.
  set (b := load_le src psrc (sizeof (m_formatted_type F))). clearbody b.
  destruct (packed_formats_unsigned_storage fmt F HF Hp) as [HT | [HT | HT]];
    rewrite HT; unfold to_uint32, decode, convert, int_repr, wrap;
    cbn [is_signed_int];
    [ change (2 ^ bitsof uint8) with 256
    | change (2 ^ bitsof uint16) with 65536
    | idtac ];
    change (2 ^ bitsof uint32) with 4294967296;
    rewrite ?Z.mod_mod by lia;
    [ pose proof (Z.mod_pos_bound b 256 eq_refl)
    | pose proof (Z.mod_pos_bound b 65536 eq_refl)
    | pose proof (Z.mod_pos_bound b 4294967296 eq_refl) ];
    rewrite ?(Z.mod_small (b mod _) 4294967296) by lia;
    (split; [reflexivity | lia]).
Qed.

(** What each of the four terms of the packed encoder is, when the
    intermediate array comes from the decoder of the same format. *)
Lemma packed_term_there_and_back (fmt : pxfmt_sized_format) (F : fmt_info)
    (intermediate src : mem) (psrc c : nat) :
  pxfmt_per_fmt_info fmt = Some F ->
  m_is_packed F = true ->
  (c < 4)%nat ->
  length intermediate = (4 * sizeof (m_intermediate_type F))%nat ->
  packed_term F (to_intermediate_F F intermediate src psrc) c
  = Z.land (packed_raw F src psrc) (elt (m_mask F) c).
Proof.
  intros HF Hp Hc Hlen.
  destruct (packed_component_facts fmt F c HF Hp Hc)
    as (Hmask & Hs & Hrange & HTi & Hpres).
  destruct (present F c) eqn:Hc'.
  2:{ unfold packed_term. now rewrite Hpres, !Z.land_0_r. }
  destruct Hpres as [Hidx Hmx].
  destruct (packed_formats_not_depth_stencil fmt F HF Hp) as [H24 H32].
  pose proof (field_range (packed_raw F src psrc) _ _ Hmx Hs) as Hfield.
  rewrite <- Hmask in Hfield.
  assert (Hmx_lt : elt (m_max F) c < 2 ^ 32).
  { destruct (packed_maxima_cases _ Hmx) as (k & Hk & ->).
    rewrite Z.ones_equiv.
    assert (2 ^ k <= 2 ^ 32) by (apply Z.pow_le_mono_r; lia). lia. }
  unfold packed_term, scaled_component, to_intermediate_F.
  rewrite H24, H32, <- Hidx.
  rewrite (to_int_loop_slot fmt) by
    (try assumption; unfold set_intermediate_to_defaults;
     rewrite !store_length; lia).
  unfold decoded_value. rewrite Hp. fold (packed_raw F src psrc).
  set (field := Z.shiftr (Z.land (packed_raw F src psrc) (elt (m_mask F) c))
                  (elt (m_shift F) c)) in *.
  assert (Hvalue :
    to_uint32
      (if m_is_normalized F
       then
         match through_object (m_intermediate_type F)
                 (Vfp (ddiv (Z_to_double field) (Z_to_double (elt (m_max F) c))))
         with
         | Vfp x =>
             convert (m_intermediate_type F)
               (Vfp (dmul x (Z_to_double (elt (m_max F) c))))
         | Vint n =>
             convert (m_intermediate_type F) (Vint (n * elt (m_max F) c))
         end
       else through_object (m_intermediate_type F) (Vint field))
    = field).
  { rewrite HTi. destruct (m_is_normalized F).
    - unfold through_object, encode, decode. cbn [convert sizeof].
      change (256 ^ Z.of_nat 8) with (256 ^ 8).
      apply (norm_there_and_back_id _ _ Hmx Hfield).
    - unfold through_object, encode, decode, to_uint32, int_repr, wrap.
      cbn [convert is_signed_int sizeof]. unfold int_repr, wrap.
      cbn [is_signed_int].
      change (256 ^ Z.of_nat 4) with 4294967296.
      change (2 ^ bitsof uint32) with 4294967296.
      change (2 ^ 32) with 4294967296 in Hmx_lt.
      rewrite !Z.mod_mod by lia. apply Z.mod_small. lia. }
  destruct (m_is_normalized F); rewrite Hvalue;
    apply (field_put_back _ _ _ (elt (m_max F) c)); assumption.
Qed.

Lemma unsigned_packed_masks_cover (fmt : pxfmt_sized_format) (F : fmt_info) :
  pxfmt_per_fmt_info fmt = Some F ->
  m_is_packed F = true -> m_is_signed F = false ->
  Z.land (Z.ones (bitsof (m_formatted_type F))) (all_masks F)
  = Z.ones (bitsof (m_formatted_type F)).
Proof.
  intros HF. destruct fmt; inversion HF; subst F; clear HF;
    intros Hp Hs; try discriminate Hp; try discriminate Hs;
    vm_compute; reflexivity.
Qed.

(** The decoder and the encoder of a packed format, one after the other. *)
Lemma packed_pixel_there_and_back (fmt : pxfmt_sized_format) (F : fmt_info)
    (intermediate src dst : mem) (psrc pdst : nat) :
  pxfmt_per_fmt_info fmt = Some F ->
  m_is_packed F = true ->
  length intermediate = (4 * sizeof (m_intermediate_type F))%nat ->
  (pdst + Z.to_nat (m_bytes_per_pixel F) <= length dst)%nat ->
  load (m_formatted_type F)
    (from_intermediate dst pdst (to_intermediate intermediate src psrc fmt) fmt)
    pdst
  = Vint (Z.land (packed_raw F src psrc) (all_masks F))
  /\ (m_is_signed F = false ->
      load (m_formatted_type F)
        (from_intermediate dst pdst
           (to_intermediate intermediate src psrc fmt) fmt)
        pdst
      = load (m_formatted_type F) src psrc).
Proof.
  intros HF Hp Hlen Hdst.
  destruct (packed_formats_not_depth_stencil fmt F HF Hp) as [H24 H32].
  destruct (pixel_size_table fmt F HF) as [Hsize _].
  destruct (packed_raw_fits fmt F src psrc HF Hp) as [Hload Hraw].
  set (raw := packed_raw F src psrc) in *.
  assert (Hbits : 0 <= bitsof (m_formatted_type F))
    by (unfold bitsof; lia).
  assert (Hfit : Z.land raw (Z.ones (bitsof (m_formatted_type F))) = raw).
  { rewrite Z.land_ones by exact Hbits. apply Z.mod_small. exact Hraw. }
  assert (Hwritten :
    load (m_formatted_type F)
      (from_intermediate dst pdst (to_intermediate intermediate src psrc fmt) fmt)
      pdst
    = Vint (Z.land raw (all_masks F))).
  { unfold from_intermediate, to_intermediate, pxfmt_case_statements.
    rewrite HF. unfold from_intermediate_F. rewrite H24, H32, Hp.
    unfold from_int_comp_packed.
    rewrite load_store_unsigned
      by (try lia; apply (packed_formats_unsigned_storage fmt F HF Hp)).
    rewrite !(packed_term_there_and_back fmt) by (try assumption; lia).
    fold raw. f_equal. unfold all_masks.
    rewrite <- !Z.land_lor_distr_r.
    unfold wrap. rewrite <- Z.land_ones by exact Hbits.
    rewrite <- Hfit at 2.
    rewrite <- !Z.land_assoc. f_equal. apply Z.land_comm. }
  split; [exact Hwritten|].
  intros Hs. rewrite Hwritten, Hload. f_equal. fold raw.
  rewrite <- Hfit at 1. rewrite <- Z.land_assoc.
  rewrite (unsigned_packed_masks_cover fmt F HF Hp Hs). exact Hfit.
Qed.

(** X7. A pixel of a packed format, decoded to the intermediate values and
    encoded again in the same format: the scalar written is the source
    scalar under the union of the format's masks. For an unsigned format
    that is the source scalar itself; a signed one (whose fields are a bit
    narrower than their places) loses the top bit of each field. *)
Theorem packed_pixel_round_trip (fmt : pxfmt_sized_format) (F : fmt_info)
    (intermediate src dst : mem) (psrc pdst : nat) :
  pxfmt_per_fmt_info fmt = Some F ->
  m_is_packed F = true ->
  length intermediate = (4 * sizeof (m_intermediate_type F))%nat ->
  (pdst + Z.to_nat (m_bytes_per_pixel F) <= length dst)%nat ->
  load (m_formatted_type F)
    (from_intermediate dst pdst (to_intermediate intermediate src psrc fmt) fmt)
    pdst
  = Vint (Z.land (packed_raw F src psrc) (all_masks F))
  /\ (m_is_signed F = false ->
      load (m_formatted_type F)
        (from_intermediate dst pdst
           (to_intermediate intermediate src psrc fmt) fmt)
        pdst
      = load (m_formatted_type F) src psrc).
Proof.
  exact (packed_pixel_there_and_back fmt F intermediate src dst psrc pdst).
Qed.

(** ** The loops of the converter *)

Lemma to_intermediate_fresh (fmt : pxfmt_sized_format) (F : fmt_info)
    (i1 i2 src : mem) (psrc : nat) :
  pxfmt_per_fmt_info fmt = Some F ->
  length i1 = (4 * sizeof (m_intermediate_type F))%nat ->
  length i2 = (4 * sizeof (m_intermediate_type F))%nat ->
  to_intermediate i1 src psrc fmt = to_intermediate i2 src psrc fmt
  /\ length (to_intermediate i1 src psrc fmt)
     = (4 * sizeof (m_intermediate_type F))%nat.
Proof.
  intros HF H1 H2. unfold to_intermediate, pxfmt_case_statements. rewrite HF.
  unfold to_intermediate_F.
  rewrite (set_intermediate_to_defaults_fresh F i1 i2);
    [|split; [congruence | intros i Hi; rewrite !lookup_ge_None_2 by lia;
                           reflexivity] | lia].
  split; [reflexivity|].
  assert (Hdef : length (set_intermediate_to_defaults F i2)
                 = (4 * sizeof (m_intermediate_type F))%nat).
  { unfold set_intermediate_to_defaults. now rewrite !store_length. }
  destruct (is_D24_UNORM_S8_UINT (m_fmt F));
    [|destruct (is_D32_FLOAT_S8_UINT (m_fmt F))].
  - unfold to_int_d24_unorm_s8_uint. now rewrite !store_length.
  - unfold to_int_d32_float_s8_uint, to_int_comp_copy. now rewrite !store_length.
  - now rewrite to_int_loop_length.
Qed.

(** X8. The decoder of a format makes the intermediate array anew: what the
    array held before (the previous pixel's values, when the converter
    reuses it) has no influence on what it holds afterwards. *)
Theorem to_intermediate_forgets_buffer (fmt : pxfmt_sized_format) (F : fmt_info)
    (i1 i2 src : mem) (psrc : nat) :
  pxfmt_per_fmt_info fmt = Some F ->
  length i1 = (4 * sizeof (m_intermediate_type F))%nat ->
  length i2 = (4 * sizeof (m_intermediate_type F))%nat ->
  to_intermediate i1 src psrc fmt = to_intermediate i2 src psrc fmt
  /\ length (to_intermediate i1 src psrc fmt)
     = (4 * sizeof (m_intermediate_type F))%nat.
Proof.
  exact (to_intermediate_fresh fmt F i1 i2 src psrc).
Qed.

Lemma for_loop_S_end {St : Type} (f : nat -> St -> St) (n c0 : nat) (st : St) :
  for_loop (Datatypes.S n) c0 f st = f (c0 + n)%nat (for_loop n c0 f st).
Proof.
  replace (Datatypes.S n) with (n + 1)%nat by lia. now rewrite for_loop_app.
Qed.

Lemma pixel_grid_S (rows cols : nat) :
  pixel_grid (S rows) cols
  = pixel_grid rows cols ++ map (pair rows) (seq 0 cols).
Proof.
  unfold pixel_grid. rewrite seq_S, flat_map_app. cbn [flat_map Nat.add].
  now rewrite app_nil_r.
Qed.

Section Loops.

Variables (pSrc : mem) (src_fmt dst_fmt : pxfmt_sized_format) (S : fmt_info).
Variables (sps srs dps drs : Z) (buffer : mem).
Hypothesis HS : pxfmt_per_fmt_info src_fmt = Some S.
Hypothesis Hbuffer : length buffer = (4 * sizeof (m_intermediate_type S))%nat.

Let one := convert_one pSrc src_fmt dst_fmt buffer
             (Z.to_nat sps) (Z.to_nat srs) (Z.to_nat dps) (Z.to_nat drs).

(** The inner loop, started at the beginning of row [y]. *)
Lemma convert_pixels_inner_loop (n y x0 : nat) (st : conv_state) :
  length (intermediate st) = (4 * sizeof (m_intermediate_type S))%nat ->
  src st = (y * Z.to_nat srs)%nat -> dst st = (y * Z.to_nat drs)%nat ->
  let st' := for_loop n x0 (convert_pixel pSrc src_fmt dst_fmt sps dps) st in
  length (intermediate st') = (4 * sizeof (m_intermediate_type S))%nat
  /\ src st' = (y * Z.to_nat srs + n * Z.to_nat sps)%nat
  /\ dst st' = (y * Z.to_nat drs + n * Z.to_nat dps)%nat
  /\ src_row st' = src_row st /\ dst_row st' = dst_row st
  /\ dst_mem st' = fold_left one (map (pair y) (seq 0 n)) (dst_mem st).
Proof.
  intros Hlen Hsrc Hdst. induction n as [|n IH].
  - cbn. repeat split; try assumption; lia.
  - rewrite for_loop_S_end, seq_S, map_app, fold_left_app.
    cbn [map fold_left Nat.add].
    set (stn := for_loop n x0 (convert_pixel pSrc src_fmt dst_fmt sps dps) st)
      in *.
    cbv zeta in IH. destruct IH as (Hl & Hs & Hd & Hsr & Hdr & Hm).
    unfold convert_pixel. cbn [src dst src_row dst_row intermediate dst_mem].
    destruct (to_intermediate_fresh src_fmt S (intermediate stn) buffer pSrc
                (src stn) HS Hl Hbuffer) as [Heq Hlen'].
    repeat split; try assumption; try lia.
    rewrite Hm, Heq, Hs, Hd. reflexivity.
Qed.

(** The outer loop. *)
Lemma convert_pixels_outer_loop (height : Z) (n y0 : nat) (st : conv_state) :
  length (intermediate st) = (4 * sizeof (m_intermediate_type S))%nat ->
  src st = 0%nat -> dst st = 0%nat -> src_row st = 0%nat -> dst_row st = 0%nat ->
  let st' :=
    for_loop n y0 (convert_row pSrc src_fmt dst_fmt height sps srs dps drs) st in
  length (intermediate st') = (4 * sizeof (m_intermediate_type S))%nat
  /\ src st' = (n * Z.to_nat srs)%nat /\ src_row st' = (n * Z.to_nat srs)%nat
  /\ dst st' = (n * Z.to_nat drs)%nat /\ dst_row st' = (n * Z.to_nat drs)%nat
  /\ dst_mem st' = fold_left one (pixel_grid n (Z.to_nat height)) (dst_mem st).
Proof.
  intros Hlen Hsrc Hdst Hsr Hdr. induction n as [|n IH].
  - cbn. repeat split; assumption.
  - rewrite for_loop_S_end, pixel_grid_S, fold_left_app.
    set (stn := for_loop n y0
                  (convert_row pSrc src_fmt dst_fmt height sps srs dps drs) st)
      in *.
    cbv zeta in IH. destruct IH as (Hl & Hs & Hsr' & Hd & Hdr' & Hm).
    unfold convert_row.
    destruct (convert_pixels_inner_loop (Z.to_nat height) n 0 stn Hl Hs Hd)
      as (Hl1 & _ & _ & Hsr1 & Hdr1 & Hm1).
    cbn [src dst src_row dst_row intermediate dst_mem].
    rewrite Hsr1, Hdr1, Hsr', Hdr', Hm1, Hm.
    repeat split; try assumption; lia.
Qed.

End Loops.

Lemma bytes_per_pixel_positive (fmt : pxfmt_sized_format) (F : fmt_info) :
  pxfmt_per_fmt_info fmt = Some F -> 0 < m_bytes_per_pixel F.
Proof.
  intros HF. destruct (pixel_size_table fmt F HF) as [Hsize _].
  destruct (m_formatted_type F); cbn in Hsize; lia.
Qed.

(** The intermediate type of a format is [double] or [uint32], by its
    flag. *)
Lemma intermediate_type_by_flag (fmt : pxfmt_sized_format) (F : fmt_info) :
  pxfmt_per_fmt_info fmt = Some F ->
  m_intermediate_type F = if m_needs_fp_intermediate F then double else uint32.
Proof.
  intros HF. destruct fmt; inversion HF; subst F; reflexivity.
Qed.

(** The encoder reads inside the intermediate array of the source format
    unless that array is [uint32[4]] and the destination format has a
    [double] intermediate. *)
Lemma reads_inside_unless_int_to_fp (src_fmt dst_fmt : pxfmt_sized_format)
    (S D : fmt_info) :
  pxfmt_per_fmt_info src_fmt = Some S ->
  pxfmt_per_fmt_info dst_fmt = Some D ->
  m_needs_fp_intermediate S = true \/ m_needs_fp_intermediate D = false ->
  from_intermediate_reads_inside D (4 * sizeof (m_intermediate_type S)) = true.
Proof.
  intros HS HD Hk. rewrite (intermediate_type_by_flag src_fmt S HS).
  destruct (m_needs_fp_intermediate S).
  - clear Hk HS. destruct dst_fmt; inversion HD; subst D; vm_compute; reflexivity.
  - destruct Hk as [Hk | Hk]; [discriminate Hk|]. clear HS.
    destruct dst_fmt; inversion HD; subst D; clear HD;
      first [discriminate Hk | vm_compute; reflexivity].
Qed.

(** The assertions and the two loops of [pxfmt_convert_pixels]. *)
Lemma convert_pixels_loops (ndebug : bool) (pDst pSrc : mem)
    (width height : Z) (src_fmt dst_fmt : pxfmt_sized_format)
    (S D : fmt_info) :
  pxfmt_per_fmt_info src_fmt = Some S ->
  pxfmt_per_fmt_info dst_fmt = Some D ->
  exists src_row_stride dst_row_stride,
    get_pxfmt_info (wrap 32 width) src_fmt
    = Some (m_bytes_per_pixel S, src_row_stride, m_needs_fp_intermediate S)
    /\ get_pxfmt_info (wrap 32 width) dst_fmt
       = Some (m_bytes_per_pixel D, dst_row_stride, m_needs_fp_intermediate D)
    /\ pxfmt_convert_pixels ndebug pDst pSrc width height src_fmt dst_fmt
       = if ndebug
            || (0 <? src_row_stride) && (0 <? dst_row_stride)
               && eqb (m_needs_fp_intermediate S) (m_needs_fp_intermediate D)
         then
           if (0 <? height)
              && negb (from_intermediate_reads_inside D
                         (4 * sizeof (m_intermediate_type S)))
           then Undefined
           else
             Returned
               (fold_left
                  (convert_one pSrc src_fmt dst_fmt
                     (replicate (4 * sizeof (m_intermediate_type S)) 0)
                     (Z.to_nat (m_bytes_per_pixel S)) (Z.to_nat src_row_stride)
                     (Z.to_nat (m_bytes_per_pixel D)) (Z.to_nat dst_row_stride))
                  (pixel_grid (Z.to_nat height) (Z.to_nat height)) pDst)
         else Aborted pDst.
Proof.
  intros HS HD.
  unfold pxfmt_convert_pixels, get_pxfmt_info, pxfmt_case_statements.
  rewrite HS, HD. unfold get_pxfmt_info_F.
  set (srs := Z.land (wrap 32 (wrap 32 (m_bytes_per_pixel S * wrap 32 width) + 3))
                0xFFFFFFFC).
  set (drs := Z.land (wrap 32 (wrap 32 (m_bytes_per_pixel D * wrap 32 width) + 3))
                0xFFFFFFFC).
  exists srs, drs. split; [reflexivity|]. split; [reflexivity|].
  pose proof (bytes_per_pixel_positive src_fmt S HS) as HbS.
  pose proof (bytes_per_pixel_positive dst_fmt D HD) as HbD.
  unfold assert.
  rewrite (proj2 (Z.ltb_lt 0 (m_bytes_per_pixel S)) HbS).
  rewrite (proj2 (Z.ltb_lt 0 (m_bytes_per_pixel D)) HbD).
  rewrite !orb_true_r.
  assert (HT : (if m_needs_fp_intermediate S
                then replicate (4 * sizeof double) 0
                else replicate (4 * sizeof uint32) 0)
               = replicate (4 * sizeof (m_intermediate_type S)) 0).
  { destruct src_fmt; inversion HS; subst S; reflexivity. }
  rewrite HT. cbv zeta. rewrite length_replicate.
  match goal with
  | |- context [for_loop ?n ?y0 ?f ?st] =>
      destruct (convert_pixels_outer_loop pSrc src_fmt dst_fmt S
                  (m_bytes_per_pixel S) srs (m_bytes_per_pixel D) drs
                  (replicate (4 * sizeof (m_intermediate_type S)) 0) HS
                  (length_replicate _ _) height n y0 st
                  (length_replicate _ _) eq_refl eq_refl eq_refl eq_refl)
        as (_ & _ & _ & _ & _ & Hm)
  end.
  cbv zeta in Hm. rewrite Hm. cbn [dst_mem].
  destruct ndebug; cbn [orb]; [reflexivity|].
  destruct (0 <? srs); cbn [andb]; [|reflexivity].
  destruct (0 <? drs); cbn [andb]; [|reflexivity].
  destruct (eqb (m_needs_fp_intermediate S) (m_needs_fp_intermediate D));
    reflexivity.
Qed.


(** ** A block converted to its own format *)

Lemma present_components_spec (F : fmt_info) (c : nat) :
  In c (present_components F) -> present F c = true.
Proof.
  unfold present_components. intros H. apply list_elem_of_In in H.
  apply list_elem_of_filter in H. tauto.
Qed.

Lemma pixel_exact_not_depth_stencil (fmt : pxfmt_sized_format) (F : fmt_info) :
  pxfmt_per_fmt_info fmt = Some F -> pixel_exact F = true ->
  is_D24_UNORM_S8_UINT fmt = false.
Proof.
  intros HF. destruct fmt; inversion HF; subst F; clear HF;
    intros Hu; try discriminate Hu; reflexivity.
Qed.

(** The exact formats in the table: they store integers; the scalar of a
    packed one is its pixel; the components of an unpacked one are all
    present and fill its pixel. *)
Lemma pixel_exact_facts (fmt : pxfmt_sized_format) (F : fmt_info) :
  pxfmt_per_fmt_info fmt = Some F -> pixel_exact F = true ->
  is_integer_type (m_formatted_type F) = true
  /\ if m_is_packed F
     then m_is_signed F = false
          /\ Z.of_nat (sizeof (m_formatted_type F)) = m_bytes_per_pixel F
     else unpacked_exact F = true
          /\ m_bytes_per_pixel F
             = m_num_components F * Z.of_nat (sizeof (m_formatted_type F))
          /\ forall c, Z.of_nat c < m_num_components F -> present F c = true.
Proof.
  intros HF. destruct fmt; inversion HF; subst F; clear HF; intros He;
    first
      [ discriminate He
      | split; [reflexivity|]; cbn;
        first
          [ split; reflexivity
          | split; [reflexivity|]; split; [reflexivity|];
            intros [|[|[|[|c]]]] Hc; first [reflexivity | lia] ] ].
Qed.

Lemma scalar_offsets_inside (fmt : pxfmt_sized_format) (F : fmt_info)
    (off : nat) :
  pxfmt_per_fmt_info fmt = Some F -> pixel_exact F = true ->
  In off (scalar_offsets F) ->
  (off + sizeof (m_formatted_type F) <= Z.to_nat (m_bytes_per_pixel F))%nat.
Proof.
  intros HF He Hoff.
  pose proof (pixel_exact_not_depth_stencil fmt F HF He) as H24.
  destruct (pixel_size_table fmt F HF) as [Hsize Hcomps].
  unfold scalar_offsets in Hoff. destruct (m_is_packed F) eqn:Hp.
  - destruct Hoff as [<- | []]. lia.
  - apply in_map_iff in Hoff as (c & <- & Hc).
    apply present_components_spec in Hc.
    specialize (Hcomps eq_refl H24).
    unfold present in Hc. apply andb_true_iff in Hc as [Hc _].
    apply Z.ltb_lt in Hc. nia.
Qed.

(** Every byte of a pixel of an exact format lies in one of its scalars. *)
Lemma exact_scalars_tile (fmt : pxfmt_sized_format) (F : fmt_info) (k : nat) :
  pxfmt_per_fmt_info fmt = Some F -> pixel_exact F = true ->
  (k < Z.to_nat (m_bytes_per_pixel F))%nat ->
  exists off,
    In off (scalar_offsets F)
    /\ (off <= k < off + sizeof (m_formatted_type F))%nat.
Proof.
  intros HF He Hk.
  destruct (pixel_exact_facts fmt F HF He) as [_ Hfacts].
  unfold scalar_offsets. destruct (m_is_packed F).
  - exists 0%nat. split; [now left | lia].
  - destruct Hfacts as (_ & Hbpp & Hall).
    set (n := sizeof (m_formatted_type F)) in *.
    assert (Hn : (0 < n)%nat)
      by (subst n; destruct (m_formatted_type F); cbn [sizeof]; lia).
    pose proof (Nat.div_mod_eq k n) as Hdiv.
    pose proof (Nat.mod_upper_bound k n ltac:(lia)) as Hmod.
    assert (Hc : Z.of_nat (k / n) < m_num_components F) by nia.
    specialize (Hall _ Hc).
    pose proof (present_lt_4 fmt F _ HF Hall) as H4.
    exists (k / n * n)%nat. split; [|lia].
    apply in_map_iff. exists (k / n)%nat. split; [reflexivity|].
    unfold present_components.
    apply list_elem_of_In, list_elem_of_filter. split; [exact Hall|].
    apply list_elem_of_In. cbn [In]. lia.
Qed.

(** The scalars of one pixel of an exact format, decoded and encoded
    again. *)
Lemma pixel_there_and_back (fmt : pxfmt_sized_format) (F : fmt_info)
    (intermediate src dst : mem) (psrc pdst : nat) :
  pxfmt_per_fmt_info fmt = Some F ->
  pixel_exact F = true ->
  length intermediate = (4 * sizeof (m_intermediate_type F))%nat ->
  (pdst + Z.to_nat (m_bytes_per_pixel F) <= length dst)%nat ->
  same_pixel F
    (from_intermediate dst pdst (to_intermediate intermediate src psrc fmt) fmt)
    pdst src psrc.
Proof.
  intros HF He Hlen Hdst off Hoff.
  destruct (pixel_exact_facts fmt F HF He) as [_ Hfacts].
  unfold scalar_offsets in Hoff.
  destruct (m_is_packed F) eqn:Hp.
  - destruct Hoff as [<- | []]. rewrite !Nat.add_0_r.
    destruct Hfacts as [Hs _].
    now apply (packed_pixel_there_and_back fmt F intermediate src dst psrc pdst).
  - destruct Hfacts as [Hu _].
    apply in_map_iff in Hoff as (c & <- & Hc).
    apply present_components_spec in Hc.
    pose proof (unpacked_pixel_there_and_back fmt F intermediate src dst
                  psrc pdst c HF Hu Hc Hlen Hdst) as H.
    unfold elem_addr in H. now rewrite Nat2Z.id in H.
Qed.

Lemma from_intermediate_length (dst : mem) (pdst : nat) (intermediate : mem)
    (fmt : pxfmt_sized_format) :
  length (from_intermediate dst pdst intermediate fmt) = length dst.
Proof.
  unfold from_intermediate.
  destruct (pxfmt_case_statements fmt) as [F|]; [|reflexivity].
  unfold from_intermediate_F.
  destruct (is_D24_UNORM_S8_UINT (m_fmt F));
    [|destruct (is_D32_FLOAT_S8_UINT (m_fmt F)); [|destruct (m_is_packed F)]].
  - unfold from_int_d24_unorm_s8_uint. apply store_length.
  - unfold from_int_d32_float_s8_uint, from_int_comp_copy.
    now rewrite !store_length.
  - unfold from_int_comp_packed. apply store_length.
  - apply from_int_loop_length.
Qed.

(** *** From equal scalars to equal bytes *)

Lemma load_byte_range (m : mem) (a : nat) :
  byte_buffer m -> 0 <= load_byte m a < 256.
Proof.
  intros Hm. unfold load_byte.
  destruct (m !! a) as [b|] eqn:Hb; cbn [default]; [|lia].
  exact (Forall_lookup_1 _ _ _ _ Hm Hb).
Qed.

Lemma load_le_range (n : nat) (m : mem) (a : nat) :
  byte_buffer m -> 0 <= load_le m a n < 256 ^ Z.of_nat n.
Proof.
  intros Hm. revert a. induction n as [|n IH]; intros a.
  - cbn. lia.
  - cbn [load_le]. rewrite Nat2Z.inj_succ, Z.pow_succ_r by lia.
    pose proof (load_byte_range m a Hm).
    specialize (IH (Datatypes.S a)). lia.
Qed.

(** An integer type gives different values to different contents of its
    object. *)
Lemma decode_integer_inj (t : ctype) (x y : Z) :
  is_integer_type t = true ->
  0 <= x < 256 ^ Z.of_nat (sizeof t) ->
  0 <= y < 256 ^ Z.of_nat (sizeof t) ->
  decode t x = decode t y -> x = y.
Proof.
  intros Ht Hx Hy H.
  destruct t; try discriminate Ht;
    unfold decode, int_repr, sext, wrap, bitsof in H;
    cbn [is_signed_int sizeof] in H, Hx, Hy;
    injection H as H;
    change (Z.of_nat 1) with 1 in *; change (Z.of_nat 2) with 2 in *;
    change (Z.of_nat 4) with 4 in *;
    rewrite (Z.mod_small x), (Z.mod_small y) in H by lia;
    repeat match type of H with
    | context [if ?b then _ else _] => destruct b
    end; lia.
Qed.

(** A store whose content is the content of [n] bytes of a buffer writes
    these bytes. *)
Lemma store_le_copies (n : nat) (m src : mem) (a a' : nat) (z : Z) (k : nat) :
  byte_buffer src ->
  (a + n <= length m)%nat -> (a' + n <= length src)%nat ->
  z mod 256 ^ Z.of_nat n = load_le src a' n ->
  (k < n)%nat ->
  store_le m a n z !! (a + k)%nat = src !! (a' + k)%nat.
Proof.
  intros Hsrc. revert m a a' z k.
  induction n as [|n IH]; intros m a a' z k Hm Hs Hz Hk; [lia|].
  cbn [store_le load_le] in *.
  rewrite Nat2Z.inj_succ, Z.pow_succ_r in Hz by lia.
  rewrite (Z.rem_mul_r z 256 (256 ^ Z.of_nat n)) in Hz by lia.
  pose proof (load_byte_range src a' Hsrc) as Hb.
  pose proof (Z.mod_pos_bound z 256 eq_refl) as Hz0.
  assert (Hlow : z mod 256 = load_byte src a') by lia.
  assert (Hhigh : (z / 256) mod 256 ^ Z.of_nat n
                  = load_le src (Datatypes.S a') n) by lia.
  destruct k as [|k].
  - rewrite !Nat.add_0_r. rewrite store_le_other by lia.
    rewrite list_lookup_insert_eq by lia. rewrite Hlow. unfold load_byte.
    destruct (lookup_lt_is_Some_2 src a' ltac:(lia)) as [b Hb'].
    now rewrite Hb'.
  - replace (a + Datatypes.S k)%nat with (Datatypes.S a + k)%nat by lia.
    replace (a' + Datatypes.S k)%nat with (Datatypes.S a' + k)%nat by lia.
    apply IH; [rewrite length_insert; lia | lia | exact Hhigh | lia].
Qed.

Lemma store_copies (t : ctype) (m src : mem) (a a' : nat) (v : cvalue)
    (k : nat) :
  is_integer_type t = true -> byte_buffer src ->
  (a + sizeof t <= length m)%nat -> (a' + sizeof t <= length src)%nat ->
  load t (store t m a v) a = load t src a' ->
  (k < sizeof t)%nat ->
  store t m a v !! (a + k)%nat = src !! (a' + k)%nat.
Proof.
  intros Ht Hsrc Hm Hs H Hk. unfold load, store in *.
  rewrite load_le_store_le in H by exact Hm.
  apply decode_integer_inj in H;
    [ now apply store_le_copies
    | exact Ht
    | apply Z.mod_pos_bound, Z.pow_pos_nonneg; lia
    | now apply load_le_range ].
Qed.

(** After the component loop of the encoder, the bytes of a present
    component are those of one store. *)
Lemma from_int_loop_scalar (fmt : pxfmt_sized_format) (F : fmt_info)
    (pdst : nat) (inter : mem) (c : nat) (dst : mem) :
  pxfmt_per_fmt_info fmt = Some F ->
  present F c = true ->
  exists m v,
    length m = length dst
    /\ forall i, (i < pdst + c * sizeof (m_formatted_type F)
                      + sizeof (m_formatted_type F))%nat ->
         for_loop (Z.to_nat (m_num_components F)) 0
           (from_int_comp F pdst inter) dst !! i
         = store (m_formatted_type F) m
             (pdst + c * sizeof (m_formatted_type F)) v !! i.
Proof.
  intros HF Hc.
  assert (Hcn : (c < Z.to_nat (m_num_components F))%nat).
  { unfold present in Hc. apply andb_true_iff in Hc as [Hc _].
    apply Z.ltb_lt in Hc. lia. }
  assert (Hpos : 0 <= elt (m_index F) c).
  { unfold present in Hc. apply andb_true_iff in Hc as [_ Hc].
    now apply Z.leb_le. }
  replace (Z.to_nat (m_num_components F))
    with (c + (1 + (Z.to_nat (m_num_components F) - c - 1)))%nat by lia.
  rewrite for_loop_app, for_loop_app. cbn [for_loop Nat.add].
  set (before := for_loop c 0 (from_int_comp F pdst inter) dst).
  assert (Hst : exists v,
             from_int_comp F pdst inter c before
             = store (m_formatted_type F) before
                 (pdst + c * sizeof (m_formatted_type F)) v).
  { unfold from_int_comp. rewrite (proj2 (Z.leb_le _ _) Hpos).
    destruct (m_is_normalized F);
      [unfold from_int_comp_norm_unpacked | unfold from_int_comp_copy];
      unfold elem_addr; rewrite Nat2Z.id; eexists; reflexivity. }
  destruct Hst as [v Hv]. exists before, v.
  split; [subst before; apply from_int_loop_length|].
  intros i Hi. rewrite <- Hv. apply from_int_loop_below.
  unfold elem_addr. rewrite Nat2Z.id. lia.
Qed.

(** The bytes of a scalar of a pixel of an exact format, encoded: those of
    one store. *)
Lemma exact_scalar_written (fmt : pxfmt_sized_format) (F : fmt_info)
    (dst : mem) (pdst : nat) (inter : mem) (off : nat) :
  pxfmt_per_fmt_info fmt = Some F -> pixel_exact F = true ->
  In off (scalar_offsets F) ->
  exists m v,
    length m = length dst
    /\ forall i, (i < pdst + off + sizeof (m_formatted_type F))%nat ->
         from_intermediate dst pdst inter fmt !! i
         = store (m_formatted_type F) m (pdst + off) v !! i.
Proof.
  intros HF He Hoff.
  destruct (pixel_exact_facts fmt F HF He) as [_ Hfacts].
  unfold from_intermediate, pxfmt_case_statements. rewrite HF.
  unfold from_intermediate_F. rewrite (m_fmt_table fmt F HF).
  unfold scalar_offsets in Hoff. destruct (m_is_packed F) eqn:Hp.
  - destruct (packed_formats_not_depth_stencil fmt F HF Hp) as [H24 H32].
    rewrite (m_fmt_table fmt F HF) in H24, H32. rewrite H24, H32.
    destruct Hoff as [<- | []]. rewrite Nat.add_0_r.
    unfold from_int_comp_packed. eexists dst, _.
    split; [reflexivity|]. intros i _. reflexivity.
  - destruct Hfacts as [Hu _].
    destruct (unpacked_exact_facts fmt F HF Hu) as (H24 & H32 & _).
    rewrite H24, H32.
    apply in_map_iff in Hoff as (c & <- & Hc).
    apply present_components_spec in Hc.
    destruct (from_int_loop_scalar fmt F pdst inter c dst HF Hc)
      as (m & v & Hlen & Hw).
    exists m, v. split; [exact Hlen|]. intros i Hi. apply Hw. lia.
Qed.

(** One pixel of an exact format, decoded and encoded again: the
    destination pixel holds the bytes of the source pixel. *)
Lemma pixel_bytes_there_and_back (fmt : pxfmt_sized_format) (F : fmt_info)
    (intermediate src dst : mem) (psrc pdst k : nat) :
  pxfmt_per_fmt_info fmt = Some F ->
  pixel_exact F = true ->
  byte_buffer src ->
  length intermediate = (4 * sizeof (m_intermediate_type F))%nat ->
  (pdst + Z.to_nat (m_bytes_per_pixel F) <= length dst)%nat ->
  (psrc + Z.to_nat (m_bytes_per_pixel F) <= length src)%nat ->
  (k < Z.to_nat (m_bytes_per_pixel F))%nat ->
  from_intermediate dst pdst (to_intermediate intermediate src psrc fmt) fmt
    !! (pdst + k)%nat
  = src !! (psrc + k)%nat.
Proof.
  intros HF He Hsrc Hlen Hdst Hs Hk.
  destruct (exact_scalars_tile fmt F k HF He Hk) as (off & Hoff & Hin).
  pose proof (scalar_offsets_inside fmt F off HF He Hoff) as Hfit.
  pose proof (pixel_there_and_back fmt F intermediate src dst psrc pdst
                HF He Hlen Hdst off Hoff) as Hty.
  destruct (exact_scalar_written fmt F dst pdst
              (to_intermediate intermediate src psrc fmt) off HF He Hoff)
    as (m & v & Hm & Hw).
  rewrite (load_ext _ _ (store (m_formatted_type F) m (pdst + off) v)) in Hty
    by (intros i Hi; apply Hw; lia).
  rewrite Hw by lia.
  replace (pdst + k)%nat with (pdst + off + (k - off))%nat by lia.
  replace (psrc + k)%nat with (psrc + off + (k - off))%nat by lia.
  apply store_copies; try assumption; try lia.
  apply (pixel_exact_facts fmt F HF He).
Qed.

Lemma pixel_grid_spec (rows cols y x : nat) :
  In (y, x) (pixel_grid rows cols) <-> (y < rows /\ x < cols)%nat.
Proof.
  unfold pixel_grid. rewrite in_flat_map. split.
  - intros (y' & Hy & Hx). apply in_map_iff in Hx as (x' & Heq & Hx').
    inversion Heq; subst. apply in_seq in Hy, Hx'. lia.
  - intros [Hy Hx]. exists y. split; [apply in_seq; lia|].
    apply in_map_iff. exists x. split; [reflexivity|apply in_seq; lia].
Qed.

Section SameFormat.

Variables (pSrc : mem) (fmt : pxfmt_sized_format) (F : fmt_info).
Variables (buffer : mem) (cols row_stride : nat).
Hypothesis HF : pxfmt_per_fmt_info fmt = Some F.
Hypothesis Hexact : pixel_exact F = true.
Hypothesis Hsrc : byte_buffer pSrc.
Hypothesis Hbuffer : length buffer = (4 * sizeof (m_intermediate_type F))%nat.
Hypothesis Hrow : (cols * Z.to_nat (m_bytes_per_pixel F) <= row_stride)%nat.

Let bpp := Z.to_nat (m_bytes_per_pixel F).
Let at_ (yx : nat * nat) : nat := (fst yx * row_stride + snd yx * bpp)%nat.
Let one := convert_one pSrc fmt fmt buffer bpp row_stride bpp row_stride.

(** The pixels of a block whose rows do not overlap are apart. *)
Lemma pixels_apart (p q : nat * nat) :
  (snd p < cols)%nat -> (snd q < cols)%nat -> p <> q ->
  (at_ p + bpp <= at_ q \/ at_ q + bpp <= at_ p)%nat.
Proof.
  destruct p as [y x], q as [y' x']. unfold at_. cbn [fst snd].
  intros Hx Hx' Hne. fold bpp in Hrow.
  destruct (Nat.lt_trichotomy y y') as [Hy | [-> | Hy]].
  - left. nia.
  - destruct (Nat.lt_trichotomy x x') as [Hlt | [-> | Hlt]];
      [left; nia | congruence | right; nia].
  - right. nia.
Qed.

(** Pixels converted one after the other, none twice: each destination
    pixel ends up holding the bytes of its source pixel. *)
Lemma same_format_fold (l : list (nat * nat)) (d0 : mem) :
  List.NoDup l ->
  (forall p, In p l ->
     (snd p < cols)%nat /\ (at_ p + bpp <= length d0)%nat
     /\ (at_ p + bpp <= length pSrc)%nat) ->
  length (fold_left one l d0) = length d0
  /\ forall p k, In p l -> (k < bpp)%nat ->
       fold_left one l d0 !! (at_ p + k)%nat = pSrc !! (at_ p + k)%nat.
Proof.
  induction l as [|q l IH] using rev_ind; intros Hnd Hin.
  - split; [reflexivity | intros p k []].
  - apply List.NoDup_remove in Hnd. rewrite app_nil_r in Hnd.
    destruct Hnd as [Hnd Hq].
    destruct IH as [IHlen IHsame];
      [exact Hnd | intros p Hp; apply Hin, in_or_app; now left |].
    rewrite fold_left_app. cbn [fold_left].
    set (d := fold_left one l d0) in *.
    destruct (Hin q) as (Hqc & Hqd & Hqs); [apply in_or_app; right; now left|].
    assert (Hone : one d q
                   = from_intermediate d (at_ q)
                       (to_intermediate buffer pSrc (at_ q) fmt) fmt)
      by reflexivity.
    rewrite Hone.
    split; [now rewrite from_intermediate_length|].
    intros p k Hp Hk. apply in_app_or in Hp as [Hp | [<- | []]].
    + rewrite <- (IHsame p k Hp Hk).
      apply (from_intermediate_other fmt F); [exact HF|].
      destruct (Hin p) as [Hpc _]; [apply in_or_app; now left|].
      assert (Hne : p <> q) by (intros ->; contradiction).
      destruct (pixels_apart p q Hpc Hqc Hne); fold bpp; lia.
    + apply (pixel_bytes_there_and_back fmt F); try assumption;
        fold bpp; lia.
Qed.

End SameFormat.

Lemma pixel_grid_NoDup (rows cols : nat) : List.NoDup (pixel_grid rows cols).
Proof.
  induction rows as [|rows IH].
  - constructor.
  - rewrite pixel_grid_S. apply List.NoDup_app.
    + exact IH.
    + apply List.NoDup_map_inv with (f := snd).
      rewrite map_map. cbn [snd]. rewrite map_id. apply List.seq_NoDup.
    + intros [y x] Hin Hin'. apply pixel_grid_spec in Hin.
      apply in_map_iff in Hin' as (x' & Heq & _). inversion Heq. lia.
Qed.

Lemma row_stride_no_wrap (fmt : pxfmt_sized_format) (F : fmt_info) (width : Z) :
  pxfmt_per_fmt_info fmt = Some F ->
  0 <= width ->
  m_bytes_per_pixel F * width + 3 < 2 ^ 32 ->
  get_pxfmt_info (wrap 32 width) fmt
  = Some (m_bytes_per_pixel F, round_up_4 (m_bytes_per_pixel F * width),
          m_needs_fp_intermediate F).
Proof.
  intros HF Hw Hfit.
  pose proof (bytes_per_pixel_positive fmt F HF) as Hbpp.
  assert (Hwidth : width < 2 ^ 32) by nia.
  assert (Hprod : 0 <= m_bytes_per_pixel F * width) by nia.
  unfold round_up_4. rewrite <- land_FFFFFFFC by lia.
  unfold get_pxfmt_info, pxfmt_case_statements. rewrite HF.
  unfold get_pxfmt_info_F.
  rewrite (wrap_small 32 width) by lia.
  rewrite (wrap_small 32 (m_bytes_per_pixel F * width)) by lia.
  rewrite (wrap_small 32 (m_bytes_per_pixel F * width + 3)) by lia.
  reflexivity.
Qed.

(** X10. A block converted to its own format is copied. For an exact
    format (an unsigned packed format whose scalar is the whole pixel, an
    integer format, or an 8-bit unsigned normalized one), a width from 1 on
    that does not wrap the stride, a height of at most the width (the inner
    loop runs to [height]; beyond the width its pixels would run into the
    next row), and a source and a destination buffer of [height] rows, the
    call returns with or without assertions, and every byte of every pixel
    of the first [height] columns of the [height] rows of the destination
    is the source byte at the same place. *)
Theorem convert_pixels_same_format (ndebug : bool) (pDst pSrc : mem)
    (width height : Z) (fmt : pxfmt_sized_format) (F : fmt_info) :
  pxfmt_per_fmt_info fmt = Some F ->
  pixel_exact F = true ->
  0 < width -> height <= width ->
  m_bytes_per_pixel F * width + 3 < 2 ^ 32 ->
  height * round_up_4 (m_bytes_per_pixel F * width) <= Z.of_nat (length pDst) ->
  height * round_up_4 (m_bytes_per_pixel F * width) <= Z.of_nat (length pSrc) ->
  byte_buffer pSrc ->
  exists d,
    pxfmt_convert_pixels ndebug pDst pSrc width height fmt fmt = Returned d
    /\ length d = length pDst
    /\ forall y x k,
         0 <= y < height -> 0 <= x < height -> 0 <= k < m_bytes_per_pixel F ->
         let a := Z.to_nat (y * round_up_4 (m_bytes_per_pixel F * width)
                            + x * m_bytes_per_pixel F + k) in
         d !! a = pSrc !! a.
Proof.
  intros HF He Hw Hh Hfit Hdst Hsrc Hbytes.
  pose proof (bytes_per_pixel_positive fmt F HF) as Hbpp.
  set (rs := round_up_4 (m_bytes_per_pixel F * width)) in *.
  assert (Hrs : m_bytes_per_pixel F * width <= rs).
  { unfold rs, round_up_4.
    pose proof (Z.mod_pos_bound (m_bytes_per_pixel F * width + 3) 4 eq_refl).
    pose proof (Z.div_mod (m_bytes_per_pixel F * width + 3) 4). lia. }
  assert (Hrs_pos : 0 < rs) by nia.
  destruct (convert_pixels_loops ndebug pDst pSrc width height fmt fmt F F HF HF)
    as (srs & drs & Hs & Hd & Hcall).
  rewrite (row_stride_no_wrap fmt F width HF) in Hs, Hd by lia.
  fold rs in Hs, Hd.
  assert (srs = rs) by congruence. assert (drs = rs) by congruence.
  subst srs drs. clear Hs Hd.
  rewrite (proj2 (Z.ltb_lt 0 rs) Hrs_pos), eqb_reflx, orb_true_r in Hcall.
  rewrite (reads_inside_unless_int_to_fp fmt fmt F F HF HF) in Hcall
    by (destruct (m_needs_fp_intermediate F); [left | right]; reflexivity).
  cbn [negb] in Hcall. rewrite andb_false_r in Hcall.
  eexists. split; [exact Hcall|].
  destruct (same_format_fold pSrc fmt F
              (replicate (4 * sizeof (m_intermediate_type F)) 0)
              (Z.to_nat height) (Z.to_nat rs) HF He Hbytes
              (length_replicate _ _) ltac:(nia)
              (pixel_grid (Z.to_nat height) (Z.to_nat height)) pDst
              (pixel_grid_NoDup _ _)) as [Hlen Hsame].
  { intros [y x] Hp. apply pixel_grid_spec in Hp. cbn [fst snd].
    split; [lia | split; nia]. }
  split; [exact Hlen|].
  intros y x k Hy Hx Hk a.
  specialize (Hsame (Z.to_nat y, Z.to_nat x) (Z.to_nat k)).
  cbn [fst snd] in Hsame.
  replace (Z.to_nat y * Z.to_nat rs
           + Z.to_nat x * Z.to_nat (m_bytes_per_pixel F) + Z.to_nat k)%nat
    with a in Hsame by (subst a; nia).
  apply Hsame; [apply pixel_grid_spec|]; lia.
Qed.

(** ** The two depth-stencil formats *)

Lemma below_2_24 (a b : Z) :
  let v := Z.lor (Z.land a (Z.ones 24)) (Z.land b (Z.ones 8)) in
  0 <= v < 2 ^ 24.
Proof.
  intros v.
  assert (Hv : v mod 2 ^ 24 = v).
  { apply Z.bits_inj'. intros n Hn. subst v.
    destruct (Z.ltb_spec n 24) as [Hlt | Hge].
    - now rewrite Z.mod_pow2_bits_low by lia.
    - rewrite Z.mod_pow2_bits_high by lia.
      rewrite Z.lor_spec, !Z.land_spec, !Z.ones_spec_high by lia.
      now rewrite !andb_false_r. }
  rewrite <- Hv. apply Z.mod_pos_bound. reflexivity.
Qed.

(** X11. [PXFMT_D24_UNORM_S8_UINT] takes both of its fields from the low end
    of the 32-bit scalar (both shifts of its descriptor are 0): the depth
    from the low 24 bits and the stencil from the low 8 of these. The top
    byte of the scalar plays no part: the decoder gives the same
    intermediate values for two scalars that agree on their low 24 bits, and
    the scalar the encoder writes is always below [2^24]. *)
Theorem d24_unorm_s8_uint_top_byte_unused
    (intermediate src src' dst : mem) (psrc pdst : nat) :
  to_uint32 (load uint32 src psrc) mod 2 ^ 24
  = to_uint32 (load uint32 src' psrc) mod 2 ^ 24 ->
  (pdst + 4 <= length dst)%nat ->
  to_intermediate intermediate src psrc PXFMT_D24_UNORM_S8_UINT
  = to_intermediate intermediate src' psrc PXFMT_D24_UNORM_S8_UINT
  /\ exists v,
       load uint32
         (from_intermediate dst pdst intermediate PXFMT_D24_UNORM_S8_UINT) pdst
       = Vint v
       /\ 0 <= v < 2 ^ 24.
Proof.
  intros Hlow Hdst. split.
  - unfold to_intermediate, pxfmt_case_statements. cbn [pxfmt_per_fmt_info].
    unfold to_intermediate_F. cbn [m_fmt FMT_INFO is_D24_UNORM_S8_UINT].
    unfold to_int_d24_unorm_s8_uint.
    cbn [m_formatted_type m_intermediate_type FMT_INFO].
    set (raw := to_uint32 (load uint32 src psrc)) in *.
    set (raw' := to_uint32 (load uint32 src' psrc)) in *.
    repeat match goal with
    | |- context [elt ?a ?c] =>
        let r := eval vm_compute in (elt a c) in change (elt a c) with r
    end.
    change 16777215 with (Z.ones 24). change 255 with (Z.ones 8).
    assert (H24 : Z.land raw (Z.ones 24) = Z.land raw' (Z.ones 24))
      by (rewrite !Z.land_ones by lia; exact Hlow).
    assert (H8 : Z.land raw (Z.ones 8) = Z.land raw' (Z.ones 8)).
    { change (Z.ones 8) with (Z.land (Z.ones 24) (Z.ones 8)).
      now rewrite !Z.land_assoc, H24. }
    now rewrite H24, H8.
  - unfold from_intermediate, pxfmt_case_statements. cbn [pxfmt_per_fmt_info].
    unfold from_intermediate_F. cbn [m_fmt FMT_INFO is_D24_UNORM_S8_UINT].
    unfold from_int_d24_unorm_s8_uint.
    cbn [m_formatted_type m_intermediate_type FMT_INFO].
    rewrite load_store_unsigned by (cbn [sizeof]; auto; lia).
    repeat match goal with
    | |- context [elt ?a ?c] =>
        let r := eval vm_compute in (elt a c) in change (elt a c) with r
    end.
    change 16777215 with (Z.ones 24). change 255 with (Z.ones 8).
    eexists. split; [reflexivity|].
    match goal with
    | |- 0 <= wrap _ (Z.lor (Z.land ?a _) (Z.land ?b _)) < _ =>
        pose proof (below_2_24 a b) as Hv
    end.
    cbv zeta in Hv. rewrite wrap_small; [exact Hv|].
    change (2 ^ bitsof uint32) with 4294967296.
    change (2 ^ 24) with 16777216 in Hv. lia.
Qed.

(** X12. The stencil of [PXFMT_D32_FLOAT_S8_UINT], the second 32-bit word of
    the pixel, decoded and encoded again: its low 8 bits come back, the
    other 24 come back as zeros. *)
Theorem d32_float_s8_uint_stencil_round_trip
    (intermediate src dst : mem) (psrc pdst : nat) :
  length intermediate = (4 * sizeof double)%nat ->
  (pdst + 8 <= length dst)%nat ->
  load uint32
    (from_intermediate dst pdst
       (to_intermediate intermediate src psrc PXFMT_D32_FLOAT_S8_UINT)
       PXFMT_D32_FLOAT_S8_UINT)
    (pdst + 4)
  = Vint (Z.land (to_uint32 (load uint32 src (psrc + 4))) 0xFF).
Proof.
  intros Hlen Hdst.
  unfold from_intermediate, to_intermediate, pxfmt_case_statements.
  cbn [pxfmt_per_fmt_info].
  unfold from_intermediate_F, to_intermediate_F.
  cbn [m_fmt FMT_INFO is_D24_UNORM_S8_UINT is_D32_FLOAT_S8_UINT].
  unfold from_int_d32_float_s8_uint, to_int_d32_float_s8_uint,
    from_int_comp_copy, to_int_comp_copy.
  cbn [m_formatted_type m_intermediate_type FMT_INFO].
  repeat match goal with
  | |- context [elt ?a ?c] =>
      let r := eval vm_compute in (elt a c) in change (elt a c) with r
  end.
  change (wrap 32 0) with 0. change (Z.of_nat 0) with 0.
  unfold elem_addr.
  cbn [sizeof Z.to_nat Pos.to_nat Pos.iter_op Nat.mul Nat.add].
  rewrite !Nat.add_0_r.
  set (inter0 := set_intermediate_to_defaults _ intermediate).
  assert (Hlen0 : length inter0 = 32%nat).
  { subst inter0. unfold set_intermediate_to_defaults.
    rewrite !store_length. exact Hlen. }
  rewrite load_store_unsigned
    by (rewrite ?store_length; cbn [sizeof]; auto; lia).
  rewrite load_store_unsigned
    by (rewrite ?store_length; cbn [sizeof]; auto; lia).
  change (Z.to_nat 1 * 4)%nat with 4%nat.
  set (st := to_uint32 (load uint32 src (psrc + 4))).
  assert (Hst : 0 <= Z.land st 255 < 256).
  { change 255 with (Z.ones 8). rewrite Z.land_ones by lia.
    apply Z.mod_pos_bound. reflexivity. }
  f_equal. rewrite Z.shiftr_0_r, Z.shiftl_0_r.
  change (bitsof uint32) with 32.
  assert (Hw : wrap 32 (Z.land st 255) = Z.land st 255)
    by (apply wrap_small; change (2 ^ 32) with 4294967296; lia).
  rewrite Hw.
  assert (Hu : to_uint32 (Vint (Z.land st 255)) = Z.land st 255).
  { unfold to_uint32, convert, int_repr. cbn [is_signed_int]. exact Hw. }
  rewrite Hu, Hw, <- Z.land_assoc, Z.land_diag. exact Hw.
Qed.

(** ** What the layout alone decides *)

Lemma switch_type_In (type : Z) (cases : list (Z * pxfmt_sized_format))
    (r : pxfmt_sized_format) :
  switch_type type cases = Some r -> In r (map snd cases).
Proof.
  induction cases as [|[label r'] rest IH]; simpl; [discriminate|].
  destruct (type =? label); [intros [= ->]; now left | intros H; right; auto].
Qed.

Lemma default_switch_type_In (type : Z) (cases : list (Z * pxfmt_sized_format)) :
  default PXFMT_INVALID (switch_type type cases) = PXFMT_INVALID
  \/ In (default PXFMT_INVALID (switch_type type cases)) (map snd cases).
Proof.
  destruct (switch_type type cases) as [r|] eqn:E; [|now left].
  right. now apply switch_type_In in E.
Qed.

Lemma validate_format_type_combo_In (format type : Z) :
  validate_format_type_combo format type = PXFMT_INVALID
  \/ In (validate_format_type_combo format type) (layout_results format).
Proof.
  unfold validate_format_type_combo, layout_results.
  repeat match goal with
  | |- context [if ?a =? ?b then _ else _] =>
      destruct (a =? b); [try apply default_switch_type_In|]
  end; [|now left].
  destruct (switch_type type cases_GL_RGBA_INTEGER) as [r|] eqn:E.
  - right. rewrite map_app. apply in_or_app. left.
    now apply switch_type_In in E.
  - destruct (default_switch_type_In type cases_GL_BGRA_INTEGER) as [H|H];
      [now left|]. right. rewrite map_app. apply in_or_app. now right.
Qed.

Lemma layout_results_same_components (format : Z) (r1 r2 : pxfmt_sized_format) :
  In r1 (layout_results format) -> In r2 (layout_results format) ->
  same_components_fmt r1 r2 = true.
Proof.
  intros H1 H2.
  assert (Hall : forallb
            (fun r1 => forallb (same_components_fmt r1) (layout_results format))
            (layout_results format) = true).
  { unfold layout_results.
    repeat match goal with
    | |- context [if ?a =? ?b then _ else _] =>
        destruct (a =? b); [vm_compute; reflexivity|]
    end. reflexivity. }
  rewrite forallb_forall in Hall. specialize (Hall r1 H1).
  rewrite forallb_forall in Hall. exact (Hall r2 H2).
Qed.

Lemma slot_present_range (fmt : pxfmt_sized_format) (F : fmt_info) (s : Z) :
  pxfmt_per_fmt_info fmt = Some F -> slot_present F s = true -> 0 <= s <= 3.
Proof.
  intros HF H. unfold slot_present in H.
  apply existsb_exists in H as (c & Hin & Hc). apply Z.eqb_eq in Hc.
  apply present_components_spec in Hin.
  pose proof (index_range fmt F c HF).
  unfold present in Hin. apply andb_true_iff in Hin as [_ Hpos].
  apply Z.leb_le in Hpos. lia.
Qed.

(** X13. What a pixel provides depends on the layout alone, not on the
    datatype: two formats the identifier returns for one layout (with two
    datatypes) have the same number of components, ask for the same kind of
    intermediate (so that they can be converted into each other), and fill
    the same slots of the intermediate array. *)
Theorem identifier_layout_decides_components (format type1 type2 : Z)
    (F1 F2 : fmt_info) :
  pxfmt_per_fmt_info (validate_format_type_combo format type1) = Some F1 ->
  pxfmt_per_fmt_info (validate_format_type_combo format type2) = Some F2 ->
  m_num_components F1 = m_num_components F2
  /\ m_needs_fp_intermediate F1 = m_needs_fp_intermediate F2
  /\ forall s, slot_present F1 s = slot_present F2 s.
Proof.
  intros H1 H2.
  assert (Hin : forall type F,
            pxfmt_per_fmt_info (validate_format_type_combo format type) = Some F ->
            In (validate_format_type_combo format type) (layout_results format)).
  { intros type F H.
    destruct (validate_format_type_combo_In format type) as [E|E];
      [rewrite E in H; discriminate | exact E]. }
  pose proof (layout_results_same_components format _ _
                (Hin type1 F1 H1) (Hin type2 F2 H2)) as Hsame.
  unfold same_components_fmt in Hsame. rewrite H1, H2 in Hsame.
  unfold same_components in Hsame.
  apply andb_true_iff in Hsame as [Hsame Hslots].
  apply andb_true_iff in Hsame as [Hn Hfp].
  apply Z.eqb_eq in Hn. apply eqb_prop in Hfp.
  split; [exact Hn|]. split; [exact Hfp|].
  intros s. rewrite forallb_forall in Hslots.
  destruct (Z.eq_dec s 0) as [->|?]; [apply eqb_prop, Hslots; simpl; tauto|].
  destruct (Z.eq_dec s 1) as [->|?]; [apply eqb_prop, Hslots; simpl; tauto|].
  destruct (Z.eq_dec s 2) as [->|?]; [apply eqb_prop, Hslots; simpl; tauto|].
  destruct (Z.eq_dec s 3) as [->|?]; [apply eqb_prop, Hslots; simpl; tauto|].
  destruct (slot_present F1 s) eqn:E1.
  { pose proof (slot_present_range _ F1 s H1 E1). lia. }
  destruct (slot_present F2 s) eqn:E2; [|reflexivity].
  pose proof (slot_present_range _ F2 s H2 E2). lia.
Qed.

(** ** Where the converter writes *)



(** ** The range of packed normalized components *)

Lemma sf_eqb_eq (x y : spec_float) : sf_eqb x y = true -> x = y.
Proof.
  destruct x as [s|s| |s m e], y as [s'|s'| |s' m' e']; cbn [sf_eqb];
    try discriminate; try reflexivity.
  - intros H. apply eqb_prop in H. now subst.
  - intros H. apply eqb_prop in H. now subst.
  - rewrite !andb_true_iff. intros [[Hs Hm] He].
    apply eqb_prop in Hs. apply Pos.eqb_eq in Hm. apply Z.eqb_eq in He.
    now subst.
Qed.

Lemma unit_quotient_packed (mx v : Z) :
  mem_Z mx packed_maxima = true -> 0 <= v <= mx -> unit_quotient mx v = true.
Proof.
  intros Hmx Hv. revert v Hv.
  assert (Hall : forallb
            (fun mx =>
               forallb (unit_quotient mx) (map Z.of_nat (seq 0 (S (Z.to_nat mx)))))
            packed_maxima = true) by (vm_compute; reflexivity).
  rewrite forallb_forall in Hall.
  apply (below_by_computation (unit_quotient mx)).
  apply Hall. unfold mem_Z in Hmx. apply existsb_exists in Hmx.
  destruct Hmx as (y & Hy & Heq). apply Z.eqb_eq in Heq. now subst y.
Qed.

(** X15. A present component of a normalized packed format, signed or not,
    decodes to the quotient of its field by its maximum, kept exactly by the
    [double] slot, and that value lies between 0.0 and 1.0: a signed packed
    format never yields a negative value. *)
Theorem packed_normalized_decode_range (fmt : pxfmt_sized_format)
    (F : fmt_info) (intermediate src : mem) (psrc c : nat) :
  pxfmt_per_fmt_info fmt = Some F ->
  m_is_packed F = true ->
  m_is_normalized F = true ->
  present F c = true ->
  length intermediate = (4 * sizeof (m_intermediate_type F))%nat ->
  let q := ddiv (Z_to_double (normalized_raw F src psrc c))
             (Z_to_double (elt (m_max F) c)) in
  load double (to_intermediate intermediate src psrc fmt)
    (elem_addr double 0 (elt (m_index F) c))
  = Vfp q
  /\ SFleb d_zero q = true /\ SFleb q d_one = true.
Proof.
  intros HF Hp Hn Hc Hlen q.
  pose proof (present_lt_4 fmt F c HF Hc) as Hc4.
  destruct (packed_component_facts fmt F c HF Hp Hc4)
    as (Hmask & Hs & Hrange & HTi & Hpres).
  rewrite Hc in Hpres. destruct Hpres as [Hidx Hmx]. rewrite Hn in HTi.
  destruct (packed_formats_not_depth_stencil fmt F HF Hp) as [H24 H32].
  pose proof (field_range (packed_raw F src psrc) _ _ Hmx Hs) as Hfield.
  rewrite <- Hmask in Hfield.
  assert (Hraw : normalized_raw F src psrc c
                 = Z.shiftr (Z.land (packed_raw F src psrc) (elt (m_mask F) c))
                     (elt (m_shift F) c))
    by (unfold normalized_raw; now rewrite Hp).
  pose proof (unit_quotient_packed _ _ Hmx Hfield) as Hq.
  unfold unit_quotient in Hq. cbv zeta in Hq. rewrite <- Hraw in Hq. fold q in Hq.
  rewrite !andb_true_iff in Hq. destruct Hq as [[Hkept H0] H1].
  apply sf_eqb_eq in Hkept.
  split; [|split; assumption].
  unfold to_intermediate, pxfmt_case_statements. rewrite HF.
  unfold to_intermediate_F. rewrite H24, H32, <- HTi.
  rewrite (to_int_loop_slot fmt) by
    (try assumption; unfold set_intermediate_to_defaults;
     rewrite !store_length; lia).
  unfold decoded_value. rewrite Hp, Hn. fold (packed_raw F src psrc).
  rewrite <- Hraw. fold q. rewrite HTi.
  unfold through_object, encode, decode. cbn [convert sizeof].
  change (256 ^ Z.of_nat 8) with (256 ^ 8). now rewrite Hkept.
Qed.

(** ** A pixel converted from one format to another *)

Lemma int_copy_across (t : ctype) (n : Z) :
  is_integer_type t = true ->
  through_object t (convert uint32 (Vint n)) = convert t (Vint n).
Proof.
  intros Ht. unfold through_object, encode, decode.
  destruct t; try discriminate Ht; cbn [convert sizeof]; f_equal;
    unfold int_repr, sext, wrap, bitsof; cbn [is_signed_int sizeof];
    repeat match goal with
    | |- context [2 ^ ?k] =>
        let r := eval vm_compute in (2 ^ k) in change (2 ^ k) with r
    | |- context [256 ^ ?k] =>
        let r := eval vm_compute in (256 ^ k) in change (256 ^ k) with r
    end;
    repeat match goal with
    | |- context [if ?x <? ?y then _ else _] => destruct (Z.ltb_spec x y)
    end;
    Z.div_mod_to_equations; lia.
Qed.

Lemma source_component_Some (F : fmt_info) (s : Z) (c : nat) :
  source_component F s = Some c ->
  present F c = true /\ elt (m_index F) c = s.
Proof.
  unfold source_component. intros H. apply find_some in H as [Hin Heq].
  split; [now apply present_components_spec | now apply Z.eqb_eq].
Qed.

Lemma source_component_None (F : fmt_info) (s : Z) :
  source_component F s = None -> slot_present F s = false.
Proof.
  unfold source_component, slot_present. intros H.
  destruct (existsb _ _) eqn:E; [|reflexivity].
  apply existsb_exists in E as (c & Hin & Hc).
  pose proof (find_none _ _ H c Hin) as Hn. cbv beta in Hn. congruence.
Qed.

Lemma unpacked_exact_kind (fmt : pxfmt_sized_format) (F : fmt_info) :
  pxfmt_per_fmt_info fmt = Some F ->
  unpacked_exact F = true ->
  (unorm8_unpacked F = true
   /\ m_is_normalized F = true /\ m_formatted_type F = uint8)
  \/ (m_is_normalized F = false
      /\ is_integer_type (m_formatted_type F) = true).
Proof.
  intros HF. destruct fmt; inversion HF; subst F; clear HF;
    intros Hu; try discriminate Hu;
    first [ left; repeat split; reflexivity
          | right; repeat split; reflexivity ].
Qed.

Lemma exact_family_facts (fmt : pxfmt_sized_format) (F : fmt_info) :
  pxfmt_per_fmt_info fmt = Some F ->
  exact_family F = true ->
  is_D24_UNORM_S8_UINT fmt = false /\ is_D32_FLOAT_S8_UINT fmt = false
  /\ m_needs_fp_intermediate F = m_is_normalized F
  /\ m_intermediate_type F = (if m_is_normalized F then double else uint32).
Proof.
  intros HF. destruct fmt; inversion HF; subst F; clear HF;
    intros Hu; try discriminate Hu; repeat split; reflexivity.
Qed.

(** The truncated product is the scaled field, rounded down. *)
Lemma trunc_norm_product (mx mx' v : Z) :
  mem_Z mx packed_maxima = true -> mem_Z mx' packed_maxima = true ->
  0 <= v <= mx ->
  SF_trunc (norm_product mx mx' v) = Some (v * mx' / mx).
Proof.
  intros Hmx Hmx' Hv.
  pose (check := fun mx mx' v =>
          match SF_trunc (norm_product mx mx' v) with
          | Some n => n =? v * mx' / mx
          | None => false
          end).
  assert (Hall : forallb
            (fun mx =>
               forallb
                 (fun mx' =>
                    forallb (check mx mx')
                      (map Z.of_nat (seq 0 (S (Z.to_nat mx)))))
                 packed_maxima)
            packed_maxima = true) by (vm_compute; reflexivity).
  rewrite forallb_forall in Hall.
  assert (Hin : forall y, mem_Z y packed_maxima = true -> In y packed_maxima).
  { intros y Hy. unfold mem_Z in Hy. apply existsb_exists in Hy.
    destruct Hy as (z & Hz & Heq). apply Z.eqb_eq in Heq. now subst z. }
  specialize (Hall mx (Hin mx Hmx)). rewrite forallb_forall in Hall.
  specialize (Hall mx' (Hin mx' Hmx')).
  pose proof (below_by_computation (check mx mx') mx Hall v Hv) as H.
  unfold check in H.
  destruct (SF_trunc (norm_product mx mx' v)) as [n|]; [|discriminate H].
  apply Z.eqb_eq in H. now subst n.
Qed.

Lemma trunc_default_product (mx d : Z) :
  mem_Z mx packed_maxima = true -> d = 0 \/ d = 1 ->
  SF_trunc (dmul (Z_to_double d) (Z_to_double mx)) = Some (d * mx).
Proof.
  intros Hmx Hd. destruct (packed_maxima_cases mx Hmx) as (k & Hk & ->).
  assert (Hk' : k = 1 \/ k = 2 \/ k = 3 \/ k = 4 \/ k = 5 \/ k = 6 \/ k = 7
                \/ k = 8 \/ k = 9 \/ k = 10) by lia.
  destruct Hd as [-> | ->];
    repeat (destruct Hk' as [-> | Hk']; [vm_compute; reflexivity|]);
    subst k; vm_compute; reflexivity.
Qed.

(** A present component of a source format of the family: its maximum and
    the range of its scalar or field (normalized formats), and the value it
    leaves in its slot. *)
Lemma exact_family_component (fmt : pxfmt_sized_format) (F : fmt_info)
    (src : mem) (psrc c : nat) :
  pxfmt_per_fmt_info fmt = Some F ->
  exact_family F = true ->
  present F c = true ->
  0 <= normalized_raw F src psrc c < 2 ^ 32
  /\ if m_is_normalized F
     then mem_Z (elt (m_max F) c) packed_maxima = true
          /\ normalized_raw F src psrc c <= elt (m_max F) c
          /\ through_object double (decoded_value F src psrc c)
             = Vfp (bits_to_SF prec64 emax64
                      (SF_to_bits prec64 emax64
                         (ddiv (Z_to_double (normalized_raw F src psrc c))
                            (Z_to_double (elt (m_max F) c)))
                       mod 256 ^ 8))
     else through_object uint32 (decoded_value F src psrc c)
          = Vint (normalized_raw F src psrc c).
Proof.
  intros HF Hfam Hc.
  pose proof (present_lt_4 fmt F c HF Hc) as Hc4.
  assert (Hu32 : forall v, 0 <= to_uint32 v < 2 ^ 32).
  { intros v. unfold to_uint32.
    destruct v as [n|x]; cbn [convert].
    - unfold int_repr. cbn [is_signed_int]. apply wrap_range. cbn. lia.
    - unfold fp_to_int.
      destruct (SF_trunc x) as [n|];
        [destruct (int_in_range uint32 n) eqn:E|];
        try (unfold int_repr; cbn [is_signed_int]; apply wrap_range; cbn; lia).
      unfold int_in_range in E. cbn [is_signed_int] in E.
      apply andb_true_iff in E as [E1 E2].
      apply Z.leb_le in E1. apply Z.ltb_lt in E2. exact (conj E1 E2). }
  unfold exact_family in Hfam. destruct (m_is_packed F) eqn:Hp.
  - destruct (packed_component_facts fmt F c HF Hp Hc4)
      as (Hmask & Hs & Hrange & HTi & Hpres).
    rewrite Hc in Hpres. destruct Hpres as [Hidx Hmx].
    pose proof (field_range (packed_raw F src psrc) _ _ Hmx Hs) as Hfield.
    rewrite <- Hmask in Hfield.
    assert (Hraw : normalized_raw F src psrc c
                   = Z.shiftr (Z.land (packed_raw F src psrc) (elt (m_mask F) c))
                       (elt (m_shift F) c))
      by (unfold normalized_raw; now rewrite Hp).
    rewrite <- Hraw in Hfield.
    destruct (packed_maxima_cases _ Hmx) as (k & Hk & Hmax).
    assert (Hlt : elt (m_max F) c < 2 ^ 32).
    { rewrite Hmax, Z.ones_equiv.
      assert (2 ^ k <= 2 ^ 32) by (apply Z.pow_le_mono_r; lia). lia. }
    split; [lia|].
    unfold decoded_value. rewrite Hp. fold (packed_raw F src psrc).
    rewrite <- Hraw. destruct (m_is_normalized F).
    + split; [exact Hmx|]. split; [lia|].
      unfold through_object, encode, decode. cbn [convert sizeof]. reflexivity.
    + unfold through_object, encode, decode, int_repr, wrap.
      cbn [convert is_signed_int sizeof]. unfold int_repr, wrap.
      cbn [is_signed_int].
      change (256 ^ Z.of_nat 4) with 4294967296.
      change (2 ^ bitsof uint32) with 4294967296.
      change (2 ^ 32) with 4294967296 in Hlt.
      rewrite !Z.mod_mod by lia. f_equal. apply Z.mod_small. lia.
  - cbn [orb] in Hfam.
    assert (Hraw : normalized_raw F src psrc c
                   = to_uint32
                       (load (m_formatted_type F) src
                          (elem_addr (m_formatted_type F) psrc (Z.of_nat c))))
      by (unfold normalized_raw; now rewrite Hp).
    split; [rewrite Hraw; apply Hu32|].
    destruct (unpacked_exact_kind fmt F HF Hfam) as [(H8 & Hn & HT) | (Hn & Hint)];
      rewrite Hn.
    + destruct (unorm8_component_facts fmt F c HF H8 Hc)
        as (_ & _ & _ & Hmax & _).
      rewrite Hmax. split; [reflexivity|].
      unfold decoded_value. rewrite Hp, Hn, <- Hraw, Hmax.
      split; [|unfold through_object, encode, decode; cbn [convert sizeof];
               reflexivity].
      rewrite Hraw, HT. unfold load, to_uint32, decode, convert, int_repr, wrap.
      cbn [is_signed_int].
      change (2 ^ bitsof uint8) with 256.
      change (2 ^ bitsof uint32) with 4294967296.
      set (b := load_le _ _ _).
      pose proof (Z.mod_pos_bound b 256 eq_refl).
      rewrite Z.mod_small by lia. lia.
    + unfold decoded_value. rewrite Hp, Hn, Hraw.
      unfold load, decode.
      destruct (m_formatted_type F); try discriminate Hint;
        unfold through_object, encode, decode, to_uint32;
        cbn [convert sizeof]; f_equal;
        unfold int_repr, wrap; cbn [is_signed_int];
        change (256 ^ Z.of_nat 4) with (2 ^ bitsof uint32);
        now rewrite !Z.mod_mod by (vm_compute; discriminate).
Qed.

(** What the encoder of [D] finds in the slot of its component [c], when
    the intermediate array comes from the decoder of [S]. *)
Lemma converted_slot (src_fmt dst_fmt : pxfmt_sized_format) (S D : fmt_info)
    (intermediate src : mem) (psrc c : nat) :
  pxfmt_per_fmt_info src_fmt = Some S ->
  pxfmt_per_fmt_info dst_fmt = Some D ->
  exact_family S = true ->
  m_is_normalized S = m_is_normalized D ->
  0 <= elt (m_index D) c ->
  (m_is_normalized D = true -> mem_Z (elt (m_max D) c) packed_maxima = true) ->
  length intermediate = (4 * sizeof (m_intermediate_type S))%nat ->
  let x :=
    load (m_intermediate_type S) (to_intermediate_F S intermediate src psrc)
      (elem_addr (m_intermediate_type S) 0 (elt (m_index D) c)) in
  0 <= converted_field S D src psrc c < 2 ^ 32
  /\ if m_is_normalized D
     then exists y,
            x = Vfp y
            /\ SF_trunc (dmul y (Z_to_double (elt (m_max D) c)))
               = Some (converted_field S D src psrc c)
            /\ converted_field S D src psrc c <= elt (m_max D) c
     else x = Vint (converted_field S D src psrc c).
Proof.
  intros HS HD Hfam Hnorm Hpos HmxD Hlen x.
  destruct (exact_family_facts src_fmt S HS Hfam) as (H24 & H32 & _ & HTi).
  pose proof (index_range dst_fmt D c HD) as Hr.
  assert (HmaxD : m_is_normalized D = true ->
            0 < elt (m_max D) c < 2 ^ 32).
  { intros Hn. destruct (packed_maxima_cases _ (HmxD Hn)) as (k & Hk & ->).
    rewrite Z.ones_equiv.
    assert (2 ^ k <= 2 ^ 32) by (apply Z.pow_le_mono_r; lia).
    assert (2 ^ 1 <= 2 ^ k) by (apply Z.pow_le_mono_r; lia).
    change (2 ^ 1) with 2 in *. lia. }
  subst x. unfold converted_field.
  destruct (source_component S (elt (m_index D) c)) as [c'|] eqn:Hfind.
  - apply source_component_Some in Hfind as [Hc' Hidx]. rewrite <- Hidx.
    unfold to_intermediate_F. rewrite (m_fmt_table src_fmt S HS), H24, H32.
    rewrite (to_int_loop_slot src_fmt) by
      (try assumption; unfold set_intermediate_to_defaults;
       rewrite !store_length; lia).
    destruct (exact_family_component src_fmt S src psrc c' HS Hfam Hc')
      as (Hraw & Hcomp).
    rewrite HTi. rewrite Hnorm in *. destruct (m_is_normalized D).
    + destruct Hcomp as (HmxS & Hle & Hval).
      specialize (HmxD eq_refl). specialize (HmaxD eq_refl).
      destruct (packed_maxima_cases _ HmxS) as (k & Hk & Hmax).
      assert (HmaxS : 0 < elt (m_max S) c').
      { rewrite Hmax, Z.ones_equiv.
        assert (2 ^ 1 <= 2 ^ k) by (apply Z.pow_le_mono_r; lia).
        change (2 ^ 1) with 2 in *. lia. }
      assert (Hq : 0 <= normalized_raw S src psrc c' * elt (m_max D) c
                        / elt (m_max S) c' <= elt (m_max D) c).
      { split; [apply Z.div_pos; nia|].
        apply Z.div_le_upper_bound; nia. }
      split; [lia|]. eexists. split; [exact Hval|]. split; [|lia].
      apply (trunc_norm_product _ _ _ HmxS HmxD). lia.
    + split; [exact Hraw | exact Hcomp].
  - apply source_component_None in Hfind.
    assert (Hs : exists s : nat, elt (m_index D) c = Z.of_nat s /\ (s < 4)%nat).
    { exists (Z.to_nat (elt (m_index D) c)). lia. }
    destruct Hs as (s & Hs & Hs4). rewrite Hs in *.
    rewrite (to_intermediate_F_absent_slot src_fmt S intermediate src psrc s)
      by (try assumption; lia).
    unfold default_component. rewrite Hs.
    replace (Z.of_nat s =? 3) with (s =? 3)%nat
      by (destruct (Nat.eqb_spec s 3), (Z.eqb_spec (Z.of_nat s) 3);
          try reflexivity; lia).
    rewrite HTi. rewrite Hnorm in *. destruct (m_is_normalized D).
    + specialize (HmxD eq_refl). specialize (HmaxD eq_refl).
      split; [destruct (s =? 3)%nat; lia|].
      eexists. split; [reflexivity|].
      rewrite (trunc_default_product _ (if (s =? 3)%nat then 1 else 0) HmxD)
        by (destruct (s =? 3)%nat; auto).
      destruct (s =? 3)%nat; split; try (f_equal; lia); lia.
    + destruct (s =? 3)%nat; (split; [vm_compute; split; [discriminate|reflexivity]
                                      | reflexivity]).
Qed.

(** A value cast to an integer type whose range holds its truncation. *)
Lemma fp_to_int_trunc (t : ctype) (x : spec_float) (n : Z) :
  SF_trunc x = Some n -> int_in_range t n = true -> fp_to_int t x = n.
Proof.
  intros Hx Hn. unfold fp_to_int. now rewrite Hx, Hn.
Qed.

(** What each of the four terms of the packed encoder of [D] is, when the
    intermediate array comes from the decoder of [S]. *)
Lemma packed_term_across (src_fmt dst_fmt : pxfmt_sized_format)
    (S D : fmt_info) (intermediate src : mem) (psrc c : nat) :
  pxfmt_per_fmt_info src_fmt = Some S ->
  pxfmt_per_fmt_info dst_fmt = Some D ->
  exact_family S = true -> m_is_packed D = true ->
  m_needs_fp_intermediate S = m_needs_fp_intermediate D ->
  (c < 4)%nat ->
  length intermediate = (4 * sizeof (m_intermediate_type S))%nat ->
  packed_term D (to_intermediate_F S intermediate src psrc) c
  = Z.land
      (wrap 32 (Z.shiftl (converted_field S D src psrc c) (elt (m_shift D) c)))
      (elt (m_mask D) c).
Proof.
  intros HS HD Hfam HpD Hkind Hc Hlen.
  destruct (packed_component_facts dst_fmt D c HD HpD Hc)
    as (HmaskD & HsD & HrangeD & HTiD & HpresD).
  destruct (present D c) eqn:HcD.
  2:{ unfold packed_term. now rewrite HpresD, !Z.land_0_r. }
  destruct HpresD as [HidxD HmxD].
  destruct (exact_family_facts src_fmt S HS Hfam) as (_ & _ & HfpS & HTiS).
  assert (HfamD : exact_family D = true) by (unfold exact_family; now rewrite HpD).
  destruct (exact_family_facts dst_fmt D HD HfamD) as (_ & _ & HfpD & _).
  assert (Hnorm : m_is_normalized S = m_is_normalized D) by congruence.
  assert (HTi : m_intermediate_type D = m_intermediate_type S)
    by (rewrite HTiD, HTiS, Hnorm; reflexivity).
  destruct (converted_slot src_fmt dst_fmt S D intermediate src psrc c
              HS HD Hfam Hnorm ltac:(lia) (fun _ => HmxD) Hlen)
    as (Hrange & Hslot).
  unfold packed_term. f_equal. f_equal. f_equal.
  unfold scaled_component. rewrite HTi, <- HidxD.
  destruct (m_is_normalized D).
  - destruct Hslot as (y & -> & Htrunc & Hle).
    rewrite <- HTi, HTiD. cbn [convert]. unfold to_uint32. cbn [convert].
    apply (fp_to_int_trunc _ _ _ Htrunc).
    unfold int_in_range. cbn [is_signed_int]. change (bitsof uint32) with 32.
    apply andb_true_iff. split; [apply Z.leb_le | apply Z.ltb_lt]; lia.
  - rewrite Hslot. unfold to_uint32. cbn [convert]. unfold int_repr.
    cbn [is_signed_int]. change (bitsof uint32) with 32.
    apply wrap_small. exact Hrange.
Qed.

(** X16. A pixel converted to a packed format, from a packed or an exact
    unpacked format of the same kind of intermediate. The scalar written is
    built as the encoder builds it, from four fields, shifted and masked:
    each component of the destination receives the scalar or field of the
    source component that shares its slot (red, green, blue or alpha), which
    for normalized formats is scaled from the source's maximum to the
    destination's and rounded down, [field * max' / max]; a component the
    source does not have receives 0, or for alpha the maximum (1 for integer
    formats). *)
Theorem pixel_conversion_to_packed (src_fmt dst_fmt : pxfmt_sized_format)
    (S D : fmt_info) (intermediate src dst : mem) (psrc pdst : nat) :
  pxfmt_per_fmt_info src_fmt = Some S ->
  pxfmt_per_fmt_info dst_fmt = Some D ->
  exact_family S = true -> m_is_packed D = true ->
  m_needs_fp_intermediate S = m_needs_fp_intermediate D ->
  length intermediate = (4 * sizeof (m_intermediate_type S))%nat ->
  (pdst + Z.to_nat (m_bytes_per_pixel D) <= length dst)%nat ->
  let term c :=
    Z.land
      (wrap 32 (Z.shiftl (converted_field S D src psrc c) (elt (m_shift D) c)))
      (elt (m_mask D) c) in
  load (m_formatted_type D)
    (from_intermediate dst pdst
       (to_intermediate intermediate src psrc src_fmt) dst_fmt)
    pdst
  = Vint (wrap (bitsof (m_formatted_type D))
            (Z.lor (Z.lor (Z.lor (term 0%nat) (term 1%nat)) (term 2%nat))
               (term 3%nat))).
Proof.
  intros HS HD Hfam HpD Hkind Hlen Hdst term.
  destruct (packed_formats_not_depth_stencil dst_fmt D HD HpD) as [H24 H32].
  destruct (pixel_size_table dst_fmt D HD) as [Hsize _].
  unfold from_intermediate, to_intermediate, pxfmt_case_statements.
  rewrite HS, HD. unfold from_intermediate_F. rewrite H24, H32, HpD.
  unfold from_int_comp_packed.
  rewrite load_store_unsigned
    by (try lia; apply (packed_formats_unsigned_storage dst_fmt D HD HpD)).
  rewrite !(packed_term_across src_fmt dst_fmt S D) by (try assumption; lia).
  reflexivity.
Qed.

(** X17. A pixel converted to an exact unpacked format (integer, or 8-bit
    unsigned normalized), from a packed or an exact unpacked format of the
    same kind of intermediate: each present component of the destination
    pixel receives, converted to its type, the scalar or field of the source
    component that shares its slot, scaled and rounded down as above for
    normalized formats, and where the source has none the default: 0, or for
    alpha 1 (255 for a normalized component). *)
Theorem pixel_conversion_to_unpacked (src_fmt dst_fmt : pxfmt_sized_format)
    (S D : fmt_info) (intermediate src dst : mem) (psrc pdst c : nat) :
  pxfmt_per_fmt_info src_fmt = Some S ->
  pxfmt_per_fmt_info dst_fmt = Some D ->
  exact_family S = true -> unpacked_exact D = true ->
  m_needs_fp_intermediate S = m_needs_fp_intermediate D ->
  present D c = true ->
  length intermediate = (4 * sizeof (m_intermediate_type S))%nat ->
  (pdst + Z.to_nat (m_bytes_per_pixel D) <= length dst)%nat ->
  load (m_formatted_type D)
    (from_intermediate dst pdst
       (to_intermediate intermediate src psrc src_fmt) dst_fmt)
    (elem_addr (m_formatted_type D) pdst (Z.of_nat c))
  = convert (m_formatted_type D) (Vint (converted_field S D src psrc c)).
Proof.
  intros HS HD Hfam HeD Hkind Hc Hlen Hdst.
  destruct (unpacked_exact_facts dst_fmt D HD HeD) as (H24d & H32d & Hpd & _).
  destruct (pixel_size_table dst_fmt D HD) as [_ Hcomps].
  specialize (Hcomps Hpd H24d).
  assert (Hcn : (c < Z.to_nat (m_num_components D))%nat).
  { unfold present in Hc. apply andb_true_iff in Hc as [Hc' _].
    apply Z.ltb_lt in Hc'. lia. }
  assert (Hpos : 0 <= elt (m_index D) c).
  { unfold present in Hc. apply andb_true_iff in Hc as [_ Hc'].
    now apply Z.leb_le. }
  destruct (exact_family_facts src_fmt S HS Hfam) as (_ & _ & HfpS & HTiS).
  assert (HfamD : exact_family D = true)
    by (unfold exact_family; rewrite HeD; apply orb_true_r).
  destruct (exact_family_facts dst_fmt D HD HfamD) as (_ & _ & HfpD & HTiD).
  assert (Hnorm : m_is_normalized S = m_is_normalized D) by congruence.
  assert (HTi : m_intermediate_type D = m_intermediate_type S)
    by (rewrite HTiD, HTiS, Hnorm; reflexivity).
  assert (HmxD : m_is_normalized D = true ->
            mem_Z (elt (m_max D) c) packed_maxima = true).
  { intros Hn.
    destruct (unpacked_exact_kind dst_fmt D HD HeD) as [(H8 & _) | (Hn' & _)];
      [|congruence].
    destruct (unorm8_component_facts dst_fmt D c HD H8 Hc)
      as (_ & _ & _ & -> & _). reflexivity. }
  destruct (converted_slot src_fmt dst_fmt S D intermediate src psrc c
              HS HD Hfam Hnorm Hpos HmxD Hlen) as (Hrange & Hslot).
  unfold from_intermediate, to_intermediate, pxfmt_case_statements.
  rewrite HS, HD. unfold from_intermediate_F.
  rewrite (m_fmt_table dst_fmt D HD), H24d, H32d, Hpd.
  rewrite (from_int_loop_slot dst_fmt) by
    (try assumption; unfold elem_addr; rewrite Nat2Z.id; nia).
  rewrite HTi. unfold encoded_value. rewrite HTi.
  destruct (unpacked_exact_kind dst_fmt D HD HeD)
    as [(H8 & Hn & HT) | (Hn & Hint)]; rewrite Hn in *.
  - destruct Hslot as (y & -> & Htrunc & Hle).
    destruct (unorm8_component_facts dst_fmt D c HD H8 Hc)
      as (_ & _ & _ & Hmax & _).
    rewrite Hmax in *. rewrite <- HTi, HTiD, HT.
    unfold through_object, encode, decode, to_double. cbn [convert sizeof].
    rewrite (fp_to_int_trunc uint8 _ _ Htrunc)
      by (unfold int_in_range; cbn [is_signed_int];
          apply andb_true_iff; split; [apply Z.leb_le | apply Z.ltb_lt];
          change (2 ^ bitsof uint8) with 256; lia).
    f_equal. unfold int_repr, wrap. cbn [is_signed_int].
    change (2 ^ bitsof uint8) with 256. change (256 ^ Z.of_nat 1) with 256.
    now rewrite !Z.mod_mod by lia.
  - rewrite Hslot, <- HTi, HTiD. apply (int_copy_across _ _ Hint).
Qed.

(** ** The missing [break] of [GL_RGBA_INTEGER] *)

(** X18. [case GL_RGBA_INTEGER] of the identifier has no [break] after its
    inner [switch] and runs on into [case GL_BGRA_INTEGER].  This changes
    no result: the two inner [switch]es have the same labels, so a
    datatype that the first does not know falls through the second as
    well, and the identifier answers as if the [break] were there; it never
    returns a [BGRA] format for [GL_RGBA_INTEGER]. *)
Theorem rgba_integer_fall_through (type : Z) :
  validate_format_type_combo GL_RGBA_INTEGER type
  = default PXFMT_INVALID (switch_type type cases_GL_RGBA_INTEGER)
  /\ ~ In (validate_format_type_combo GL_RGBA_INTEGER type)
         (map snd cases_GL_BGRA_INTEGER).
Proof.
  assert (Hcall : validate_format_type_combo GL_RGBA_INTEGER type
                  = default PXFMT_INVALID
                      (switch_type type cases_GL_RGBA_INTEGER)).
  { change (validate_format_type_combo GL_RGBA_INTEGER type)
      with (match switch_type type cases_GL_RGBA_INTEGER with
            | Some r => r
            | None =>
                default PXFMT_INVALID (switch_type type cases_GL_BGRA_INTEGER)
            end).
    destruct (switch_type type cases_GL_RGBA_INTEGER) as [r|] eqn:E;
      [reflexivity|].
    apply switch_type_None in E.
    change (map fst cases_GL_RGBA_INTEGER)
      with (map fst cases_GL_BGRA_INTEGER) in E.
    apply switch_type_None in E. now rewrite E. }
  split; [exact Hcall|]. rewrite Hcall.
  destruct (default_switch_type_In type cases_GL_RGBA_INTEGER) as [-> | Hin].
  - apply no_invalid_by_computation. reflexivity.
  - revert Hin.
    generalize (default PXFMT_INVALID (switch_type type cases_GL_RGBA_INTEGER)).
    intros r Hin Hin'. cbn [map snd cases_GL_RGBA_INTEGER In] in Hin.
    repeat (destruct Hin as [<- | Hin];
            [cbn [map snd cases_GL_BGRA_INTEGER In] in Hin';
             intuition discriminate|]).
    exact Hin.
Qed.

End Pxfmt.

(** * Closed instances *)

(** C2 (counterexample). [PXFMT_R8_UNORM] needs a floating-point
    intermediate and [PXFMT_R8_UINT] an integer one.  Compiled with
    [NDEBUG], the call on a 1 x 1 block runs the pixel loop and returns:
    the encoder reads the low half of the [double] 1.0 as a [uint32] and
    the first destination byte changes from [170] to [0]. *)
Lemma convert_pixels_mismatch_ndebug :
  get_pxfmt_info 1 PXFMT_R8_UNORM = Some (1, 4, true)
  /\ get_pxfmt_info 1 PXFMT_R8_UINT = Some (1, 4, false)
  /\ pxfmt_convert_pixels undef_cast_zero true [170; 170; 170; 170]
       [255; 0; 0; 0] 1 1 PXFMT_R8_UNORM PXFMT_R8_UINT
     = Returned [0; 170; 170; 170].
Proof. repeat split; vm_compute; reflexivity. Qed.

(** The same call compiled with assertions: it stops before the loop. *)
Lemma convert_pixels_intermediate_mismatch_witness :
  pxfmt_convert_pixels undef_cast_zero false [170; 170; 170; 170]
    [255; 0; 0; 0] 1 1 PXFMT_R8_UNORM PXFMT_R8_UINT
  = Aborted [170; 170; 170; 170].
Proof.
  refine (convert_pixels_intermediate_mismatch undef_cast_zero
            [170; 170; 170; 170] [255; 0; 0; 0] 1 1
            PXFMT_R8_UNORM PXFMT_R8_UINT _ _ eq_refl eq_refl _).
  vm_compute. discriminate.
Defined.

(** Three [PXFMT_RGB8_UNORM] pixels per row: 9 bytes, stride 12. *)
Lemma get_pxfmt_info_strides_witness :
  get_pxfmt_info (wrap 32 3) PXFMT_RGB8_UNORM = Some (3, 12, true)
  /\ 12 = Z.land (3 * 3 + 3) 0xFFFFFFFC.
Proof.
  refine (get_pxfmt_info_strides PXFMT_RGB8_UNORM _ 3 eq_refl _ _);
    vm_compute; [discriminate | reflexivity].
Defined.

(** The green byte [128] of a [PXFMT_RGB8_UNORM] pixel, there and back. *)
Lemma unorm8_round_trip_witness :
  from_int_comp_norm_unpacked undef_cast_zero
    (FMT_INFO PXFMT_RGB8_UNORM uint8 double 3 3 true true false false
       0 1 2 (-1) 8 8 8 0 0 0 0 0)
    [0; 0; 0] 0
    (to_int_comp_norm_unpacked undef_cast_zero
       (FMT_INFO PXFMT_RGB8_UNORM uint8 double 3 3 true true false false
          0 1 2 (-1) 8 8 8 0 0 0 0 0)
       (replicate 32 0) [255; 128; 0] 0 1)
    1
  !! 1%nat = Some 128.
Proof.
  refine (proj2 (unorm8_round_trip undef_cast_zero PXFMT_RGB8_UNORM _
                   (replicate 32 0) [255; 128; 0] [0; 0; 0] 0 0 1 128
                   eq_refl eq_refl eq_refl _ eq_refl _ _));
    vm_compute; try lia. split; discriminate.
Defined.

(** [PXFMT_RGB8_UNORM] has no alpha component: slot 3 decodes to 1.0. *)
Lemma to_intermediate_default_alpha_witness :
  slot_present
    (FMT_INFO PXFMT_RGB8_UNORM uint8 double 3 3 true true false false
       0 1 2 (-1) 8 8 8 0 0 0 0 0) 3 = false
  /\ load double
       (to_intermediate undef_cast_zero (replicate 32 0) [255; 128; 0] 0
          PXFMT_RGB8_UNORM) 24
     = Vfp d_one.
Proof.
  split; [reflexivity|].
  refine (proj2 (proj2 (to_intermediate_default_alpha undef_cast_zero
                          PXFMT_RGB8_UNORM _ (replicate 32 0) [255; 128; 0] 0
                          eq_refl _)) eq_refl).
  vm_compute. lia.
Defined.

(** [PXFMT_R8_SNORM] with the stored byte [0xFF] (-1 as an [int8]): the
    dividend is [0xFFFFFFFF] and the decoded value is about 33818640.9. *)
Lemma normalized_decode_nonneg_witness :
  normalized_raw undef_cast_zero
    (FMT_INFO PXFMT_R8_SNORM int8 double 1 1 true true true false
       0 (-1) (-1) (-1) 8 0 0 0 0 0 0 0)
    [255] 0 0 = 0xFFFFFFFF
  /\ SF_trunc (ddiv (Z_to_double 0xFFFFFFFF) (Z_to_double 127)) = Some 33818640
  /\ SF_nonneg (ddiv (Z_to_double 0xFFFFFFFF) (Z_to_double 127)) = true
  /\ to_int_comp undef_cast_zero
       (FMT_INFO PXFMT_R8_SNORM int8 double 1 1 true true true false
          0 (-1) (-1) (-1) 8 0 0 0 0 0 0 0)
       [255] 0 0 (replicate 32 0)
     = store undef_cast_zero double (replicate 32 0) 0
         (Vfp (ddiv (Z_to_double 0xFFFFFFFF) (Z_to_double 127))).
Proof.
  pose proof (normalized_decode_nonneg undef_cast_zero PXFMT_R8_SNORM _
                (replicate 32 0) [255] 0 0 eq_refl eq_refl eq_refl) as H.
  cbv zeta in H.
  refine (match H _ with
          | conj _ (conj Hq (conj _ Hres)) =>
              conj eq_refl (conj eq_refl (conj Hq Hres))
          end).
  vm_compute. lia.
Defined.

(** [PXFMT_RGB565_UNORM] from an intermediate array of [0xFF] bytes (four
    NaNs): the written [uint16] has no bit outside [0xFFFF]. *)
Lemma from_int_comp_packed_confined_witness :
  exists written,
    load uint16
      (from_intermediate undef_cast_zero [0; 0] 0 (replicate 32 255)
         PXFMT_RGB565_UNORM) 0
    = Vint written
    /\ (forall n, Z.testbit 0xFFFF n = false -> Z.testbit written n = false).
Proof.
  destruct (from_int_comp_packed_confined undef_cast_zero PXFMT_RGB565_UNORM _
              [0; 0] 0 (replicate 32 255) eq_refl eq_refl)
    as (Hdisp & written & Hload & _ & _ & Hbits).
  - vm_compute. lia.
  - exists written. split; [|exact Hbits].
    rewrite Hdisp. exact Hload.
Defined.

(** ** Instances of the further properties *)

(** A 32-bit component: the 64-bit shift does not lose the top bit. *)
Lemma max_values_closed_form_witness :
  max_values false 32 = 2 ^ 32 - 1
  /\ max_values true 32 = (if 32 =? 0 then 0 else 2 ^ (32 - 1) - 1).
Proof.
  refine (max_values_closed_form 32 _). lia.
Defined.

(** Five [PXFMT_RGB8_UNORM] pixels per row. *)
Lemma row_stride_multiple_of_4_witness :
  exists row_stride,
    get_pxfmt_info 5 PXFMT_RGB8_UNORM = Some (3, row_stride, true)
    /\ 0 <= row_stride < 2 ^ 32
    /\ row_stride mod 4 = 0.
Proof.
  exact (row_stride_multiple_of_4 PXFMT_RGB8_UNORM _ 5 eq_refl).
Defined.

(** The row of [PXFMT_BGRA16_UNORM], whose components fill the slots 2, 1,
    0 and 3. *)
Lemma descriptor_table_invariants_witness :
  exists F,
    pxfmt_per_fmt_info PXFMT_BGRA16_UNORM = Some F
    /\ m_fmt F = PXFMT_BGRA16_UNORM
    /\ m_num_components F = 4
    /\ m_intermediate_type F = double
    /\ m_bytes_per_pixel F = 8
    /\ NoDup (map (elt (m_index F)) (present_components F)).
Proof.
  eexists. split; [reflexivity|].
  destruct (descriptor_table_invariants PXFMT_BGRA16_UNORM _ eq_refl)
    as (Hfmt & _ & HT & _ & Hbpp & Hnd).
  split; [exact Hfmt|]. split; [reflexivity|]. split; [exact HT|].
  split; [exact (Hbpp eq_refl eq_refl) | exact Hnd].
Defined.

(** [GL_RGBA] with [GL_UNSIGNED_BYTE] (a packed format) and with
    [GL_FLOAT] (an unpacked one). *)
Lemma identifier_layout_decides_components_witness :
  exists F1 F2,
    pxfmt_per_fmt_info (validate_format_type_combo GL_RGBA GL_UNSIGNED_BYTE)
    = Some F1
    /\ pxfmt_per_fmt_info (validate_format_type_combo GL_RGBA GL_FLOAT) = Some F2
    /\ m_is_packed F1 = true /\ m_is_packed F2 = false
    /\ m_num_components F1 = m_num_components F2
    /\ m_needs_fp_intermediate F1 = m_needs_fp_intermediate F2
    /\ slot_present F1 3 = slot_present F2 3.
Proof.
  eexists. eexists. split; [reflexivity|]. split; [reflexivity|].
  split; [reflexivity|]. split; [reflexivity|].
  destruct (identifier_layout_decides_components GL_RGBA GL_UNSIGNED_BYTE
              GL_FLOAT _ _ eq_refl eq_refl) as (Hn & Hfp & Hslots).
  split; [exact Hn|]. split; [exact Hfp | exact (Hslots 3)].
Defined.

(** One [PXFMT_RGB8_UNORM] pixel decoded into an array of zeros and into
    an array of [0xFF] bytes. *)
Lemma to_intermediate_forgets_buffer_witness :
  to_intermediate undef_cast_zero (replicate 32 0) [255; 128; 0] 0
    PXFMT_RGB8_UNORM
  = to_intermediate undef_cast_zero (replicate 32 255) [255; 128; 0] 0
      PXFMT_RGB8_UNORM
  /\ length (to_intermediate undef_cast_zero (replicate 32 0) [255; 128; 0] 0
               PXFMT_RGB8_UNORM) = 32%nat.
Proof.
  exact (to_intermediate_forgets_buffer undef_cast_zero PXFMT_RGB8_UNORM _
           (replicate 32 0) (replicate 32 255) [255; 128; 0] 0
           eq_refl eq_refl eq_refl).
Defined.

(** Two buffers that differ in the byte after a [PXFMT_RGB8_UNORM]
    pixel. *)
Lemma to_intermediate_reads_pixel_only_witness :
  to_intermediate undef_cast_zero (replicate 32 0) [255; 128; 0; 7] 0
    PXFMT_RGB8_UNORM
  = to_intermediate undef_cast_zero (replicate 32 0) [255; 128; 0; 9] 0
      PXFMT_RGB8_UNORM.
Proof.
  refine (to_intermediate_reads_pixel_only undef_cast_zero PXFMT_RGB8_UNORM _
            (replicate 32 0) [255; 128; 0; 7] [255; 128; 0; 9] 0 eq_refl _).
  intros i Hi. destruct i as [|[|[|i]]]; try reflexivity.
  vm_compute in Hi. lia.
Defined.

(** A [PXFMT_RGB565_UNORM] pixel written at offset 1: the byte at offset 3
    stays. *)
Lemma from_intermediate_writes_pixel_only_witness :
  from_intermediate undef_cast_zero [1; 2; 3; 4] 1 (replicate 32 0)
    PXFMT_RGB565_UNORM !! 3%nat
  = [1; 2; 3; 4] !! 3%nat.
Proof.
  refine (from_intermediate_writes_pixel_only undef_cast_zero PXFMT_RGB565_UNORM
            _ [1; 2; 3; 4] 1 (replicate 32 0) eq_refl 3%nat _).
  right. vm_compute. lia.
Defined.

(** The second component, [0xABCD], of a [PXFMT_RG16_UINT] pixel. *)
Lemma unpacked_pixel_round_trip_witness :
  load uint16
    (from_intermediate undef_cast_zero [0; 0; 0; 0] 0
       (to_intermediate undef_cast_zero (replicate 16 0)
          [0x34; 0x12; 0xCD; 0xAB] 0 PXFMT_RG16_UINT)
       PXFMT_RG16_UINT) 2
  = load uint16 [0x34; 0x12; 0xCD; 0xAB] 2.
Proof.
  refine (unpacked_pixel_round_trip undef_cast_zero PXFMT_RG16_UINT _
            (replicate 16 0) [0x34; 0x12; 0xCD; 0xAB] [0; 0; 0; 0] 0 0 1
            eq_refl eq_refl eq_refl eq_refl _).
  vm_compute. lia.
Defined.

(** The [PXFMT_RGBA8_SNORM] pixel [0x017F80FF]: the top bit of each byte is
    lost. *)
Lemma packed_pixel_round_trip_witness :
  load uint32
    (from_intermediate undef_cast_zero [0; 0; 0; 0] 0
       (to_intermediate undef_cast_zero (replicate 32 0)
          [0xFF; 0x80; 0x7F; 0x01] 0 PXFMT_RGBA8_SNORM)
       PXFMT_RGBA8_SNORM) 0
  = Vint 0x017F007F.
Proof.
  refine (proj1 (packed_pixel_round_trip undef_cast_zero PXFMT_RGBA8_SNORM _
                   (replicate 32 0) [0xFF; 0x80; 0x7F; 0x01] [0; 0; 0; 0] 0 0
                   eq_refl eq_refl eq_refl _)).
  vm_compute. lia.
Defined.

(** The green field of the [PXFMT_RGB565_UNORM] pixel [0x07E0] is 63, its
    maximum. *)
Lemma packed_normalized_decode_range_witness :
  load double
    (to_intermediate undef_cast_zero (replicate 32 0) [0xE0; 0x07] 0
       PXFMT_RGB565_UNORM) 8
  = Vfp (ddiv (Z_to_double 63) (Z_to_double 63))
  /\ SFleb d_zero (ddiv (Z_to_double 63) (Z_to_double 63)) = true
  /\ SFleb (ddiv (Z_to_double 63) (Z_to_double 63)) d_one = true.
Proof.
  exact (packed_normalized_decode_range undef_cast_zero PXFMT_RGB565_UNORM _
           (replicate 32 0) [0xE0; 0x07] 0 1
           eq_refl eq_refl eq_refl eq_refl eq_refl).
Defined.

(** The scalars [0xFFFFFF42] and [0x00FFFF42]. *)
Lemma d24_unorm_s8_uint_top_byte_unused_witness :
  to_intermediate undef_cast_zero (replicate 32 0) [0x42; 0xFF; 0xFF; 0xFF] 0
    PXFMT_D24_UNORM_S8_UINT
  = to_intermediate undef_cast_zero (replicate 32 0) [0x42; 0xFF; 0xFF; 0x00] 0
      PXFMT_D24_UNORM_S8_UINT
  /\ exists v,
       load uint32
         (from_intermediate undef_cast_zero [0; 0; 0; 0] 0 (replicate 32 0)
            PXFMT_D24_UNORM_S8_UINT) 0
       = Vint v
       /\ 0 <= v < 2 ^ 24.
Proof.
  refine (d24_unorm_s8_uint_top_byte_unused undef_cast_zero (replicate 32 0)
            [0x42; 0xFF; 0xFF; 0xFF] [0x42; 0xFF; 0xFF; 0x00] [0; 0; 0; 0] 0 0
            eq_refl _).
  vm_compute. lia.
Defined.

(** The depth 1.0f and the stencil word [0xFFFFFF42]. *)
Lemma d32_float_s8_uint_stencil_round_trip_witness :
  load uint32
    (from_intermediate undef_cast_zero (replicate 8 170) 0
       (to_intermediate undef_cast_zero (replicate 32 0)
          [0; 0; 0x80; 0x3F; 0x42; 0xFF; 0xFF; 0xFF] 0 PXFMT_D32_FLOAT_S8_UINT)
       PXFMT_D32_FLOAT_S8_UINT) 4
  = Vint 0x42.
Proof.
  refine (d32_float_s8_uint_stencil_round_trip undef_cast_zero (replicate 32 0)
            [0; 0; 0x80; 0x3F; 0x42; 0xFF; 0xFF; 0xFF] (replicate 8 170) 0 0
            eq_refl _).
  vm_compute. lia.
Defined.



(** A block 2 pixels wide and 2 high of the packed 16-bit
    [PXFMT_RGB565_UNORM] (rows of 4 bytes): the second byte of the pixel of
    row 1 and column 1, at offset 7. *)
Lemma convert_pixels_same_format_witness :
  exists d,
    pxfmt_convert_pixels undef_cast_zero false (replicate 8 170)
      [0x34; 0x12; 0x78; 0x56; 0xBC; 0x9A; 0xF0; 0xDE] 2 2
      PXFMT_RGB565_UNORM PXFMT_RGB565_UNORM
    = Returned d
    /\ length d = 8%nat
    /\ d !! 7%nat = Some 0xDE.
Proof.
  destruct (convert_pixels_same_format undef_cast_zero false (replicate 8 170)
              [0x34; 0x12; 0x78; 0x56; 0xBC; 0x9A; 0xF0; 0xDE] 2 2
              PXFMT_RGB565_UNORM _ eq_refl eq_refl eq_refl)
    as (d & Hcall & Hlen & Hsame);
    [ vm_compute; discriminate | reflexivity | vm_compute; discriminate
    | vm_compute; discriminate | repeat (constructor; [lia|]); constructor |].
  exists d. split; [exact Hcall|]. split; [exact Hlen|].
  exact (Hsame 1 1 1 ltac:(lia) ltac:(lia) ltac:(vm_compute; split; [discriminate | reflexivity])).
Defined.

(** The [PXFMT_RGB8_UNORM] pixel (255, 128, 0) converted to the packed
    [PXFMT_RGBA8_UNORM]: alpha, which the source does not have, becomes
    255. *)
Lemma pixel_conversion_to_packed_witness :
  load uint32
    (from_intermediate undef_cast_zero [0; 0; 0; 0] 0
       (to_intermediate undef_cast_zero (replicate 32 0) [255; 128; 0] 0
          PXFMT_RGB8_UNORM)
       PXFMT_RGBA8_UNORM) 0
  = Vint 0xFF0080FF.
Proof.
  etransitivity.
  - refine (pixel_conversion_to_packed undef_cast_zero PXFMT_RGB8_UNORM
              PXFMT_RGBA8_UNORM _ _ (replicate 32 0) [255; 128; 0] [0; 0; 0; 0]
              0 0 eq_refl eq_refl eq_refl eq_refl eq_refl eq_refl _).
    vm_compute. lia.
  - vm_compute. reflexivity.
Defined.

(** The green field 32 of a [PXFMT_RGB565_UNORM] pixel converted to
    [PXFMT_RGB8_UNORM]: 32 * 255 / 63, rounded down. *)
Lemma pixel_conversion_to_unpacked_witness :
  load uint8
    (from_intermediate undef_cast_zero [0; 0; 0] 0
       (to_intermediate undef_cast_zero (replicate 32 0) [0x00; 0x04] 0
          PXFMT_RGB565_UNORM)
       PXFMT_RGB8_UNORM) 1
  = Vint 129.
Proof.
  etransitivity.
  - refine (pixel_conversion_to_unpacked undef_cast_zero PXFMT_RGB565_UNORM
              PXFMT_RGB8_UNORM _ _ (replicate 32 0) [0x00; 0x04] [0; 0; 0]
              0 0 1 eq_refl eq_refl eq_refl eq_refl eq_refl eq_refl eq_refl _).
    vm_compute. lia.
  - vm_compute. reflexivity.
Defined.
